(* ===================================================================== *)
(*  Gummy duplex streaming client (src/test/test_gummy_websocket.py)       *)
(*                                                                       *)
(*  A shallow embedding of class GummyWebSocketClient and of the driver   *)
(*  test_with_audio_file, with the properties of the protocol client      *)
(*  stated over it.                                                       *)
(*                                                                       *)
(*  What is modelled and how:                                             *)
(*   - the outbound side of the websocket is an ordered log of frames;    *)
(*     a text frame carries the JSON value handed to json.dumps, a        *)
(*     binary frame carries its bytes;                                    *)
(*   - the inbound side is the finite script of messages delivered by     *)
(*     `async for message in self.websocket`, each one presented by what  *)
(*     json.loads makes of it, followed by the way the iterator ends;     *)
(*   - Python exceptions are an explicit outcome; methods of the client   *)
(*     are state transformers over the client object;                     *)
(*   - print statements of the receiving path are recorded as console     *)
(*     lines, one constructor per print; of the progress prints of the    *)
(*     sending path and of the pacing sleeps, which have no effect on     *)
(*     the connection, the divisions are kept, for what they raise.       *)
(* ===================================================================== *)

From Stdlib Require Import ZArith Lia Strings.Byte.
From stdpp Require Import base option list strings gmap.

Set Warnings "-register-all".

Open Scope string_scope.
Open Scope list_scope.
Open Scope Z_scope.

(* --------------------------------------------------------------------- *)
(*  Python values that travel as JSON                                     *)
(* --------------------------------------------------------------------- *)

(* The values json.loads can return and json.dumps accepts here.  A dict
   keeps its items in insertion order; lookup takes the first item with
   the key.  Numbers are integers (the client never computes with a
   number it receives; it only prints it or tests its truth value). *)
Inductive json : Type :=
  | JNone
  | JBool (b : bool)
  | JInt (z : Z)
  | JStr (s : string)
  | JList (items : list json)
  | JDict (items : list (string * json)).

(* Python exceptions the client can meet. *)
Inductive exn : Type :=
  | FileNotFoundError
  | IsADirectoryError
  | ValueError (msg : string)
  | ZeroDivisionError
  | WaveError
  | AttributeError
  | TypeError
  | InvalidHandshake
  | ConnectionClosed
  | OverflowError
  | RecursionError
  | UnicodeDecodeError
  | OSError
  | StructError.                           (* struct.error *)

(* Outcome of running a piece of Python: a value, a raised exception, or
   a loop cut short by the step bound of the model (shown never to
   happen, see send_audio_data_total). *)
Inductive outcome (A : Type) : Type :=
  | Return (a : A)
  | Raise (e : exn)
  | OutOfFuel.
Arguments Return {A} a.
Arguments Raise {A} e.
Arguments OutOfFuel {A}.

(* One statement after another: the second runs when the first returns. *)
Definition and_then {A B} (o : outcome A) (k : A -> outcome B) : outcome B :=
  match o with
  | Return a => k a
  | Raise e => Raise e
  | OutOfFuel => OutOfFuel
  end.

Definition is_Return {A} (o : outcome A) : bool :=
  match o with Return _ => true | _ => false end.

Definition is_Raise {A} (o : outcome A) : bool :=
  match o with Raise _ => true | _ => false end.

Fixpoint dict_item (k : string) (items : list (string * json)) : option json :=
  match items with
  | [] => None
  | (k', v) :: rest => if String.eqb k k' then Some v else dict_item k rest
  end.

(* obj.get(key, default): only a dict has the method. *)
Definition py_get (obj : json) (key : string) (dflt : json) : outcome json :=
  match obj with
  | JDict items => Return (default dflt (dict_item key items))
  | _ => Raise AttributeError
  end.

(* bool(v), as used by `if v:` and by conditional expressions. *)
Definition truthy (v : json) : bool :=
  match v with
  | JNone => false
  | JBool b => b
  | JInt z => negb (Z.eqb z 0)
  | JStr s => negb (String.eqb s "")
  | JList items => negb (bool_decide (items = []))
  | JDict items => negb (bool_decide (items = []))
  end.

(* v == "literal": false for every value that is not that string. *)
Definition py_eq_str (v : json) (lit : string) : bool :=
  match v with
  | JStr s => String.eqb s lit
  | _ => false
  end.

(* iter(v), as used by `for x in v`.  A dict yields its keys, a string
   its characters; None, booleans and numbers are not iterable. *)
Definition py_iter (v : json) : outcome (list json) :=
  match v with
  | JList items => Return items
  | JDict items => Return (map (fun kv => JStr (fst kv)) items)
  | JStr s => Return (map (fun c => JStr (String c EmptyString)) (String.list_ascii_of_string s))
  | _ => Raise TypeError
  end.

(* s.endswith(suffix) *)
Definition endswith (s suffix : string) : bool :=
  let n := String.length s in
  let k := String.length suffix in
  (k <=? n)%nat && String.eqb (String.substring (n - k) k s) suffix.

(* --------------------------------------------------------------------- *)
(*  Console output of the receiving path                                  *)
(* --------------------------------------------------------------------- *)

(* One constructor per print statement of receive_messages and
   _handle_result, carrying the values interpolated into the line.  The
   flag of a head line is the truth value of sentence_end (it selects the
   status shown between brackets). *)
Inductive console_line : Type :=
  | Listening                              (* "start listening" banner *)
  | TaskStartedLine                        (* task-started *)
  | ReceivedResult (event : json)          (* "Received result: {event}" *)
  | TranscriptionHead (final : bool) (begin_time end_time : json)
  | TranslationHead (lang : json) (final : bool) (begin_time end_time : json)
  | TextLine (text : json)                 (* "   {text}" *)
  | BlankLine                              (* print() *)
  | TaskFinishedLine                       (* task-finished *)
  | TaskFailedLine                         (* task-failed *)
  | ErrorCodeLine (error_code : json)
  | ErrorMessageLine (error_message : json)
  | TooLongSpeechHint                      (* hint shown for TOO_LONG_SPEECH *)
  | DetailLine (event : json)              (* json.dumps(event, ...) *)
  | JsonErrorLine                          (* except json.JSONDecodeError *)
  | ConnectionClosedLine.                  (* except ConnectionClosed *)

(* A computation that prints: its outcome and the lines printed, those
   printed before an exception included. *)
Definition Console (A : Type) : Type := outcome A * list console_line.

Definition cret {A} (a : A) : Console A := (Return a, []).

Definition cbind {A B} (m : Console A) (k : A -> Console B) : Console B :=
  match m with
  | (Return a, out) => let '(r, out') := k a in (r, out ++ out')
  | (Raise e, out) => (Raise e, out)
  | (OutOfFuel, out) => (OutOfFuel, out)
  end.

Definition print (l : console_line) : Console unit := (Return tt, [l]).

Definition lift {A} (o : outcome A) : Console A := (o, []).

Declare Scope console_scope.
Delimit Scope console_scope with console.
Notation "x <- m ; k" := (cbind m (fun x => k))
  (at level 100, m at next level, right associativity) : console_scope.
Notation "m ;; k" := (cbind m (fun _ => k))
  (at level 100, right associativity) : console_scope.

Section receiving.
Local Open Scope console_scope.

(* Body of `for translation in translations` in _handle_result. *)
Definition handle_translation (translation : json) : Console unit :=
  lang <- lift (py_get translation "lang" (JStr ""));
  text <- lift (py_get translation "text" (JStr ""));
  sentence_end <- lift (py_get translation "sentence_end" (JBool false));
  begin_time <- lift (py_get translation "begin_time" (JInt 0));
  end_time <- lift (py_get translation "end_time" (JInt 0));
  print (TranslationHead lang (truthy sentence_end) begin_time end_time);;
  print (TextLine text).

Fixpoint for_each {A} (body : A -> Console unit) (xs : list A) : Console unit :=
  match xs with
  | [] => cret tt
  | x :: rest => body x;; for_each body rest
  end.

(* GummyWebSocketClient._handle_result *)
Definition _handle_result (event : json) : Console unit :=
  payload <- lift (py_get event "payload" (JDict []));
  output <- lift (py_get payload "output" (JDict []));
  print (ReceivedResult event);;
  transcription <- lift (py_get output "transcription" (JDict []));
  (if truthy transcription then
     text <- lift (py_get transcription "text" (JStr ""));
     sentence_end <- lift (py_get transcription "sentence_end" (JBool false));
     begin_time <- lift (py_get transcription "begin_time" (JInt 0));
     end_time <- lift (py_get transcription "end_time" (JInt 0));
     print (TranscriptionHead (truthy sentence_end) begin_time end_time);;
     print (TextLine text)
   else cret tt);;
  translations <- lift (py_get output "translations" (JList []));
  items <- lift (py_iter translations);
  for_each handle_translation items;;
  print BlankLine.

(* The other ways json.loads can fail: an integer literal beyond the
   digit limit of int (ValueError), nesting beyond the recursion limit
   (RecursionError), a binary message that is not valid UTF-8
   (UnicodeDecodeError).  None of them is a json.JSONDecodeError. *)
Inductive loads_failure : Type :=
  | IntegerTooLong
  | NestingTooDeep
  | NotUnicode.

Definition loads_exception (f : loads_failure) : exn :=
  match f with
  | IntegerTooLong => ValueError "Exceeds the limit for integer string conversion"
  | NestingTooDeep => RecursionError
  | NotUnicode => UnicodeDecodeError
  end.

(* A message delivered by the websocket iterator, presented by what
   json.loads does with it: it raises json.JSONDecodeError, it raises
   another exception, or it returns the decoded value. *)
Inductive inbound : Type :=
  | Undecodable
  | Decodes (event : json)
  | Unloadable (failure : loads_failure).

(* How `async for message in self.websocket` ends once the script of
   messages is used up: the iterator stops (the connection was closed
   normally), or it raises ConnectionClosed. *)
Inductive stream_end : Type :=
  | IteratorStops
  | IteratorRaises.

Inductive control : Type := Continue | Break.

(* One turn of the loop of receive_messages: the inner try block with
   its `except json.JSONDecodeError` handler. *)
Definition handle_message (message : inbound) : Console control :=
  match message with
  | Undecodable => print JsonErrorLine;; cret Continue
  | Unloadable failure => lift (Raise (loads_exception failure))
  | Decodes event =>
      header <- lift (py_get event "header" (JDict []));
      event_type <- lift (py_get header "event" JNone);
      if py_eq_str event_type "task-started" then
        print TaskStartedLine;; cret Continue
      else if py_eq_str event_type "result-generated" then
        _handle_result event;; cret Continue
      else if py_eq_str event_type "task-finished" then
        print TaskFinishedLine;; cret Break
      else if py_eq_str event_type "task-failed" then
        header1 <- lift (py_get event "header" (JDict []));
        error_code <- lift (py_get header1 "error_code" (JStr "UNKNOWN"));
        header2 <- lift (py_get event "header" (JDict []));
        error_message <- lift (py_get header2 "error_message" (JStr ""));
        print TaskFailedLine;;
        print (ErrorCodeLine error_code);;
        print (ErrorMessageLine error_message);;
        (if py_eq_str error_code "TOO_LONG_SPEECH" then print TooLongSpeechHint
         else cret tt);;
        print (DetailLine event);;
        cret Break
      else cret Continue
  end.

(* The `async for` loop of receive_messages. *)
Fixpoint receive_loop (messages : list inbound) (ending : stream_end) : Console unit :=
  match messages with
  | [] =>
      match ending with
      | IteratorStops => cret tt
      | IteratorRaises => lift (Raise ConnectionClosed)
      end
  | message :: rest =>
      c <- handle_message message;
      match c with
      | Break => cret tt
      | Continue => receive_loop rest ending
      end
  end.

(* try: ... except websockets.exceptions.ConnectionClosed: handler *)
Definition except_ConnectionClosed (body handler : Console unit) : Console unit :=
  match body with
  | (Raise ConnectionClosed, out) => let '(r, out') := handler in (r, out ++ out')
  | _ => body
  end.

(* GummyWebSocketClient.receive_messages *)
Definition receive_messages (messages : list inbound) (ending : stream_end) : Console unit :=
  print Listening;;
  except_ConnectionClosed (receive_loop messages ending) (print ConnectionClosedLine).

End receiving.

(* --------------------------------------------------------------------- *)
(*  The connection and the client object                                  *)
(* --------------------------------------------------------------------- *)

(* What websocket.send puts on the wire: a str goes out as a text frame
   (here the JSON value that was serialised), bytes as a binary frame. *)
Inductive frame : Type :=
  | TextFrame (message : json)
  | BinaryFrame (data : list byte).

(* The client's end of an open websocket.  `sent` is the ordered log of
   outbound frames.  `peer_accepts` is the number of further frames the
   peer takes before it closes the connection (None: it never does);
   `closed` is set by close(). *)
Record connection : Type := {
  request_headers : list (string * string);
  sent : list frame;
  peer_accepts : option nat;
  closed : bool
}.

Record GummyWebSocketClient : Type := {
  api_key : string;
  url : string;
  task_id : string;
  websocket : option connection
}.

Definition set_websocket (self : GummyWebSocketClient) (ws : option connection)
  : GummyWebSocketClient :=
  {| api_key := api_key self; url := url self; task_id := task_id self;
     websocket := ws |}.

(* The outbound log of a client (empty while there is no connection). *)
Definition outbound (self : GummyWebSocketClient) : list frame :=
  match websocket self with
  | Some ws => sent ws
  | None => []
  end.

(* A method of the client: it may raise and it may update the object. *)
Definition M (A : Type) : Type :=
  GummyWebSocketClient -> outcome A * GummyWebSocketClient.

Definition mret {A} (a : A) : M A := fun self => (Return a, self).

Definition mraise {A} (e : exn) : M A := fun self => (Raise e, self).

(* A step that does not touch the client. *)
Definition mlift {A} (o : outcome A) : M A := fun self => (o, self).

Definition mbind {A B} (m : M A) (k : A -> M B) : M B :=
  fun self =>
    match m self with
    | (Return a, self') => k a self'
    | (Raise e, self') => (Raise e, self')
    | (OutOfFuel, self') => (OutOfFuel, self')
    end.

Declare Scope method_scope.
Delimit Scope method_scope with method.
Notation "x <- m ; k" := (mbind m (fun x => k))
  (at level 100, m at next level, right associativity) : method_scope.
Notation "m ;; k" := (mbind m (fun _ => k))
  (at level 100, right associativity) : method_scope.

(* await self.websocket.send(message) *)
Definition websocket_send (f : frame) : M unit :=
  fun self =>
    match websocket self with
    | None => (Raise AttributeError, self)
    | Some ws =>
        if closed ws then (Raise ConnectionClosed, self)
        else
          match peer_accepts ws with
          | Some O => (Raise ConnectionClosed, self)
          | budget =>
              (Return tt,
               set_websocket self
                 (Some {| request_headers := request_headers ws;
                          sent := sent ws ++ [f];
                          peer_accepts := Nat.pred <$> budget;
                          closed := false |}))
          end
    end.

(* GummyWebSocketClient.__init__; uuid is the value of str(uuid.uuid4()). *)
Definition __init__ (api_key : string) (uuid : string) : GummyWebSocketClient :=
  {| api_key := api_key;
     url := "wss://dashscope.aliyuncs.com/api-ws/v1/inference";
     task_id := uuid;
     websocket := None |}.

(* The remote end as websockets.connect meets it: whether the opening
   handshake succeeds, and how many frames it will take. *)
Record server : Type := {
  handshake_ok : bool;
  frames_accepted : option nat
}.

(* GummyWebSocketClient.connect *)
Definition connect (srv : server) : M unit :=
  fun self =>
    let headers :=
      [("Authorization", "bearer " +:+ api_key self);
       ("user-agent", "GummyTest/1.0");
       ("X-DashScope-DataInspection", "enable")] in
    if handshake_ok srv then
      (Return tt,
       set_websocket self
         (Some {| request_headers := headers; sent := [];
                  peer_accepts := frames_accepted srv; closed := false |}))
    else (Raise InvalidHandshake, self).

(* GummyWebSocketClient.send_run_task.  The defaults of the signature are
   target_lang="en", source_lang="auto", sample_rate=16000, format="pcm",
   max_end_silence=5000, enable_inverse_text_normalization=True. *)
Definition run_task_message (task_id target_lang source_lang : string)
    (sample_rate : Z) (format : string) (max_end_silence : Z)
    (enable_inverse_text_normalization : bool) : json :=
  JDict [
    ("header", JDict [
       ("task_id", JStr task_id);
       ("action", JStr "run-task");
       ("streaming", JStr "duplex")]);
    ("payload", JDict [
       ("task_group", JStr "audio");
       ("task", JStr "asr");
       ("function", JStr "recognition");
       ("model", JStr "gummy-realtime-v1");
       ("input", JDict [
          ("format", JStr format);
          ("sample_rate", JInt sample_rate);
          ("audio_type", JStr "sentence");
          ("translation", JDict [
             ("target_lang", JStr target_lang);
             ("source_lang", JStr source_lang)])]);
       ("parameters", JDict [
          ("max_end_silence", JInt max_end_silence);
          ("enable_inverse_text_normalization",
           JBool enable_inverse_text_normalization)])])].

Definition send_run_task (target_lang source_lang : string) (sample_rate : Z)
    (format : string) (max_end_silence : Z)
    (enable_inverse_text_normalization : bool) : M unit :=
  fun self =>
    websocket_send
      (TextFrame (run_task_message (task_id self) target_lang source_lang
                    sample_rate format max_end_silence
                    enable_inverse_text_normalization)) self.

(* GummyWebSocketClient.send_finish_task *)
Definition finish_task_message (task_id : string) : json :=
  JDict [
    ("header", JDict [
       ("task_id", JStr task_id);
       ("action", JStr "finish-task");
       ("streaming", JStr "duplex")]);
    ("payload", JDict [("input", JDict [])])].

Definition send_finish_task : M unit :=
  fun self => websocket_send (TextFrame (finish_task_message (task_id self))) self.

(* GummyWebSocketClient.close *)
Definition close : M unit :=
  fun self =>
    match websocket self with
    | Some ws =>
        (Return tt,
         set_websocket self
           (Some {| request_headers := request_headers ws; sent := sent ws;
                    peer_accepts := peer_accepts ws; closed := true |}))
    | None => (Return tt, self)
    end.

(* --------------------------------------------------------------------- *)
(*  Integers and floats                                                   *)
(* --------------------------------------------------------------------- *)

(* The least magnitude that rounds beyond the largest float (binary64,
   round to nearest, ties to even): half a unit in the last place above
   (2^53 - 1) * 2^971. *)
Definition float_limit : Z := 2 ^ 1024 - 2 ^ 970.

(* a / b for two ints, as far as it can raise.  The quotient is a float
   that the callers only print or sleep on. *)
Definition true_div (a b : Z) : outcome unit :=
  if b =? 0 then Raise ZeroDivisionError
  else if float_limit * Z.abs b <=? Z.abs a then Raise OverflowError
  else Return tt.

(* The float nearest to an int, ties to even; it is an integer itself.
   Every int below 2^53 in magnitude is a float; a larger one keeps its
   53 leading bits. *)
Definition round_binary64 (n : Z) : Z :=
  let a := Z.abs n in
  if a <? 2 ^ 53 then n
  else
    let e := Z.log2 a - 52 in
    let q := Z.shiftr a e in
    let r := a mod 2 ^ e in
    let half := 2 ^ (e - 1) in
    let q' := if (half <? r) || ((r =? half) && Z.odd q) then q + 1 else q in
    Z.sgn n * Z.shiftl q' e.

(* float(n) *)
Definition float_of_int (n : Z) : outcome Z :=
  if float_limit <=? Z.abs n then Raise OverflowError
  else Return (round_binary64 n).

(* int(x * n) for an int n and a float x whose value is the integer k:
   n becomes a float, the product is rounded to a float, infinite beyond
   the range, and int() of an infinite float raises OverflowError. *)
Definition int_of_float_times (k n : Z) : outcome Z :=
  and_then (float_of_int n) (fun x =>
    if float_limit <=? Z.abs (k * x) then Raise OverflowError
    else Return (round_binary64 (k * x))).

(* --------------------------------------------------------------------- *)
(*  Audio files                                                           *)
(* --------------------------------------------------------------------- *)

(* The object returned by wave.open(path, 'rb'): the parameters of the
   fmt chunk, the bytes of the data chunk that the file holds, and the
   number of further bytes that the header of the data chunk announces
   but the file does not hold (0 for a file that is whole).  The wave
   module refuses a file with zero channels or a zero sample width, hence
   `positive`; it puts no condition on the frame rate. *)
Record Wave_read : Type := {
  nchannels : positive;
  sampwidth : positive;
  framerate : N;
  data_chunk : list byte;
  missing : N
}.

Definition getnchannels (wf : Wave_read) : Z := Z.pos (nchannels wf).
Definition getsampwidth (wf : Wave_read) : Z := Z.pos (sampwidth wf).
Definition getframerate (wf : Wave_read) : Z := Z.of_N (framerate wf).

(* The size of the data chunk as its header gives it. *)
Definition chunksize (wf : Wave_read) : Z :=
  Z.of_nat (length (data_chunk wf)) + Z.of_N (missing wf).

(* wave computes the frame count as chunksize // framesize, from the
   header. *)
Definition getnframes (wf : Wave_read) : Z :=
  chunksize wf / (getsampwidth wf * getnchannels wf).

(* What a path names.  A regular file has its bytes and what wave.open
   makes of them (None: wave.open raises); a directory has the size that
   os.path.getsize reports for it. *)
Inductive fs_entry : Type :=
  | Directory (st_size : Z)
  | RegularFile (content : list byte) (wave_view : option Wave_read).

(* os.path.getsize *)
Definition getsize (entry : fs_entry) : Z :=
  match entry with
  | Directory st_size => st_size
  | RegularFile content _ => Z.of_nat (length content)
  end.

(* wave.open(path, 'rb') *)
Definition wave_open (entry : fs_entry) : outcome Wave_read :=
  match entry with
  | Directory _ => Raise IsADirectoryError
  | RegularFile _ None => Raise WaveError
  | RegularFile _ (Some wf) => Return wf
  end.

(* open(path, 'rb'): the unread bytes of the file object. *)
Definition open_rb (entry : fs_entry) : outcome (list byte) :=
  match entry with
  | Directory _ => Raise IsADirectoryError
  | RegularFile content _ => Return content
  end.

(* f.read(size) on a binary file object whose unread bytes are `rest`:
   the bytes read and the bytes left.  -1 reads to the end; a smaller
   size is refused. *)
Definition file_read (size : Z) (rest : list byte)
  : outcome (list byte * list byte) :=
  if size <? -1 then Raise (ValueError "read length must be non-negative or -1")
  else if size =? -1 then Return (rest, [])
  else Return (take (Z.to_nat size) rest, drop (Z.to_nat size) rest).

(* wf.readframes(nframes): nothing for 0 frames, otherwise at most
   nframes * framesize bytes of the data chunk (a negative size reads
   what is left). *)
Definition readframes (wf : Wave_read) (nframes : Z) (rest : list byte)
  : outcome (list byte * list byte) :=
  if nframes =? 0 then Return ([], rest)
  else
    let size := nframes * (getsampwidth wf * getnchannels wf) in
    if size <? 0 then Return (rest, [])
    else Return (take (Z.to_nat size) rest, drop (Z.to_nat size) rest).

(* `numerator / denominator > limit` of Python, for a positive
   denominator.  The true division is a float division; with these
   operands (sizes and rates of a file header, limit 60) the comparison of
   the rounded quotient agrees with the exact one, which is written here
   over the integers. *)
Definition quotient_exceeds (numerator denominator limit : Z) : bool :=
  limit * denominator <? numerator.

Section sending.
Local Open Scope method_scope.

(* The two `while True:` loops of send_audio_data have one shape: read a
   chunk, stop when it is empty, otherwise send it as a binary frame,
   update the counter, compute the pacing sleep and the progress, and go
   on.  `read` is the read of the branch, `progress` what follows the
   send (it takes the counter and the chunk and returns the new counter,
   or raises), `sent` the counter, `rest` the unread bytes, and `fuel`
   bounds the number of turns. *)
Fixpoint send_chunks (fuel : nat)
    (read : list byte -> outcome (list byte * list byte))
    (progress : Z -> list byte -> outcome Z)
    (sent : Z) (rest : list byte) : M unit :=
  match fuel with
  | O => fun self => (OutOfFuel, self)
  | S fuel' =>
      match read rest with
      | Return (data, rest') =>
          match data with
          | [] => mret tt
          | _ => websocket_send (BinaryFrame data);;
                 sent' <- mlift (progress sent data);
                 send_chunks fuel' read progress sent' rest'
          end
      | Raise e => mraise e
      | OutOfFuel => fun self => (OutOfFuel, self)
      end
  end.

(* After a send in the WAV loop:
     sent_frames += frames_per_chunk
     await asyncio.sleep(frames_per_chunk / framerate)
     progress = min((sent_frames / total_frames) * 100, 100) *)
Definition wav_progress (frames_per_chunk framerate total_frames : Z)
    (sent_frames : Z) (data : list byte) : outcome Z :=
  let sent_frames := sent_frames + frames_per_chunk in
  and_then (true_div frames_per_chunk framerate) (fun _ =>
  and_then (true_div sent_frames total_frames) (fun _ =>
  Return sent_frames)).

(* After a send in the raw loop:
     sent_size += len(data)
     await asyncio.sleep(len(data) / (16000 * 2))
     progress = min((sent_size / file_size) * 100, 100) *)
Definition raw_progress (file_size : Z)
    (sent_size : Z) (data : list byte) : outcome Z :=
  let sent_size := sent_size + Z.of_nat (length data) in
  and_then (true_div (Z.of_nat (length data)) (16000 * 2)) (fun _ =>
  and_then (true_div sent_size file_size) (fun _ =>
  Return sent_size)).

(* GummyWebSocketClient.send_audio_data (default chunk_size=3200). *)
Definition send_audio_data (fs : gmap string fs_entry)
    (audio_file_path : string) (chunk_size : Z) : M unit :=
  match fs !! audio_file_path with
  | None => mraise FileNotFoundError
  | Some entry =>
      if endswith audio_file_path ".wav" then
        match wave_open entry with
        | Return wf =>
            let channels := getnchannels wf in
            let sample_width := getsampwidth wf in
            let framerate := getframerate wf in
            let total_frames := getnframes wf in
            if framerate =? 0 then mraise ZeroDivisionError
            else if quotient_exceeds total_frames framerate 60 then
              mraise (ValueError "duration over 60 seconds")
            else
              let frames_per_chunk := chunk_size / (sample_width * channels) in
              send_chunks (S (length (data_chunk wf)))
                (readframes wf frames_per_chunk)
                (wav_progress frames_per_chunk framerate total_frames)
                0 (data_chunk wf)
        | Raise e => mraise e
        | OutOfFuel => fun self => (OutOfFuel, self)
        end
      else
        let file_size := getsize entry in
        if quotient_exceeds file_size (16000 * 2) 60 then
          mraise (ValueError "duration over 60 seconds")
        else
          match open_rb entry with
          | Return f =>
              send_chunks (S (length f)) (file_read chunk_size)
                (raw_progress file_size) 0 f
          | Raise e => mraise e
          | OutOfFuel => fun self => (OutOfFuel, self)
          end
  end.

(* --------------------------------------------------------------------- *)
(*  The drivers                                                           *)
(* --------------------------------------------------------------------- *)

(* Everything a run of a driver takes from outside the program. *)
Record environment : Type := {
  fs : gmap string fs_entry;
  uuid4 : string;
  remote : server;
  messages : list inbound;
  ending : stream_end
}.

(* await receive_task: the outcome of receive_messages reaches the
   awaiting driver. *)
Definition await_receive_task (env : environment) : M unit :=
  fun self => (fst (receive_messages (messages env) (ending env)), self).

(* What a run of a driver leaves behind: the client object after the
   `finally` clause, and what the `try` block came to (Raise e when
   `except Exception as e` caught e). *)
Record session_report : Type := {
  final_client : GummyWebSocketClient;
  tried : outcome unit
}.

(* try: body / except Exception: print / finally: await client.close() *)
Definition try_finally_close (body : M unit) (client : GummyWebSocketClient)
  : session_report :=
  let '(r, client') := body client in
  {| final_client := snd (close client'); tried := r |}.

(* test_with_audio_file (default target_lang="en") *)
Definition test_with_audio_file (env : environment)
    (api_key audio_file target_lang : string) : session_report :=
  let client := __init__ api_key (uuid4 env) in
  try_finally_close
    (connect (remote env);;
     send_run_task target_lang "auto" 16000 "pcm" 10000 true;;
     send_audio_data (fs env) audio_file 3200;;
     send_finish_task;;
     await_receive_task env)
    client.

(* The pyaudio module as test_with_microphone meets it: the exception
   that PyAudio() or audio.open(...) raises, if any; what the i-th
   stream.read(CHUNK) comes to, a buffer or an exception; and the
   exception that stop_stream(), close() or terminate() raises, if
   any. *)
Record PyAudio : Type := {
  open_error : option exn;
  stream_read : nat -> list byte + exn;
  close_error : option exn
}.

Definition raise_if (e : option exn) : M unit :=
  match e with
  | Some exc => mraise exc
  | None => mret tt
  end.

(* for i in range(frames_to_record):
       data = stream.read(CHUNK)
       await client.websocket.send(data)
       progress = ((i + 1) / frames_to_record) * 100
   `i` is the index of the turn and `turns` the number of turns left. *)
Fixpoint record_and_send (read : nat -> list byte + exn) (frames_to_record : Z)
    (i turns : nat) : M unit :=
  match turns with
  | O => mret tt
  | S turns' =>
      match read i with
      | inl data =>
          websocket_send (BinaryFrame data);;
          mlift (true_div (Z.of_nat i + 1) frames_to_record);;
          record_and_send read frames_to_record (S i) turns'
      | inr exc => mraise exc
      end
  end.

(* Step 4 of test_with_microphone: open the stream, compute
   frames_to_record = int(RATE / CHUNK * duration) with RATE = 16000 and
   CHUNK = 3200 (RATE / CHUNK is the float 5.0), record and send, close
   the stream. *)
Definition record_microphone (pyaudio : PyAudio) (duration : Z) : M unit :=
  raise_if (open_error pyaudio);;
  frames_to_record <- mlift (int_of_float_times 5 duration);
  record_and_send (stream_read pyaudio) frames_to_record 0
    (Z.to_nat frames_to_record);;
  raise_if (close_error pyaudio).

(* test_with_microphone, once pyaudio is imported. *)
Definition test_with_microphone (env : environment) (pyaudio : PyAudio)
    (api_key target_lang : string) (duration : Z) : session_report :=
  let client := __init__ api_key (uuid4 env) in
  try_finally_close
    (connect (remote env);;
     send_run_task target_lang "auto" 16000 "pcm" 5000 true;;
     record_microphone pyaudio duration;;
     send_finish_task;;
     await_receive_task env)
    client.

End sending.

(* --------------------------------------------------------------------- *)
(*  Vocabulary of the properties                                          *)
(* --------------------------------------------------------------------- *)

(* The value found by following keys into nested dicts. *)
Fixpoint json_at (path : list string) (v : json) : option json :=
  match path with
  | [] => Some v
  | key :: path' =>
      match v with
      | JDict items =>
          match dict_item key items with
          | Some v' => json_at path' v'
          | None => None
          end
      | _ => None
      end
  end.

Definition dict_keys (v : json) : option (list string) :=
  match v with
  | JDict items => Some (map fst items)
  | _ => None
  end.

Definition is_dict (v : json) : bool :=
  match v with JDict _ => true | _ => false end.

(* A field of an object that may be absent. *)
Definition field (obj : json) (key : string) (dflt : json) : json :=
  match obj with
  | JDict items => default dflt (dict_item key items)
  | _ => dflt
  end.

(* header.event of an inbound message, when it has one. *)
Definition event_kind (message : inbound) : option string :=
  match message with
  | Decodes event =>
      match json_at ["header"; "event"] event with
      | Some (JStr kind) => Some kind
      | _ => None
      end
  | _ => None
  end.

Definition has_kind (kind : string) (message : inbound) : bool :=
  match event_kind message with
  | Some k => String.eqb k kind
  | None => false
  end.

(* An Event of the data model: an object whose header is an object that
   names one of the four kinds. *)
Definition is_event (message : inbound) : bool :=
  match message with
  | Decodes event =>
      is_dict event && is_dict (field event "header" (JDict [])) &&
      (has_kind "task-started" message || has_kind "result-generated" message ||
       has_kind "task-finished" message || has_kind "task-failed" message)
  | _ => false
  end.

(* A terminal event: task-finished or task-failed. *)
Definition is_terminal (message : inbound) : bool :=
  is_event message &&
  (has_kind "task-finished" message || has_kind "task-failed" message).

(* A ResultGenerated event of the data model: payload.output is an
   object, its transcription (when present) is an object, and its
   translations (when present) are a list of objects. *)
Definition well_formed_result (event : json) : bool :=
  let payload := field event "payload" (JDict []) in
  let output := field payload "output" (JDict []) in
  is_dict payload && is_dict output &&
  is_dict (field output "transcription" (JDict [])) &&
  match field output "translations" (JList []) with
  | JList items => forallb is_dict items
  | _ => false
  end.

(* An event that may come before the terminal one. *)
Definition well_formed_progress (message : inbound) : bool :=
  is_event message &&
  (has_kind "task-started" message ||
   has_kind "result-generated" message &&
   match message with
   | Decodes event => well_formed_result event
   | _ => false
   end).

(* The results handed to _handle_result, read off the console: each call
   prints its event first. *)
Definition forwarded (out : list console_line) : list json :=
  omap (fun l => match l with ReceivedResult event => Some event | _ => None end) out.

(* The result-generated events of a script, in arrival order. *)
Definition results_of (script : list inbound) : list json :=
  omap (fun m => match m with
                 | Decodes event =>
                     if has_kind "result-generated" m then Some event else None
                 | _ => None
                 end) script.

(* The lines a script of messages prints, message by message. *)
Definition console_of (script : list inbound) : list console_line :=
  flat_map (fun m => snd (handle_message m)) script.

(* The loop goes on to the next message after this one. *)
Definition continues (message : inbound) : Prop :=
  fst (handle_message message) = Return Continue.

Definition is_json_error (l : console_line) : bool :=
  match l with JsonErrorLine => true | _ => false end.

(* An audio source of the data model: PCM bytes at a known sample rate,
   sample width (bytes) and channel count. *)
Record audio_source : Type := {
  src_bytes : list byte;
  src_rate : N;
  src_width : positive;
  src_channels : positive
}.

(* The wave module's view of a WAV file that holds the source, whole. *)
Definition wave_of (src : audio_source) : Wave_read :=
  {| nchannels := src_channels src; sampwidth := src_width src;
     framerate := src_rate src; data_chunk := src_bytes src; missing := 0 |}.

(* The file at `path` holds the source: a .wav path names a WAV file of
   the source (a whole one: its header announces the bytes it holds), any
   other path names a file of its raw PCM bytes. *)
Definition holds_source (path : string) (entry : fs_entry) (src : audio_source)
  : Prop :=
  match entry with
  | RegularFile content wave_view =>
      if endswith path ".wav" then wave_view = Some (wave_of src)
      else content = src_bytes src
  | Directory _ => False
  end.

Definition src_size (src : audio_source) : Z := Z.of_nat (length (src_bytes src)).

Definition src_frame_size (src : audio_source) : Z :=
  Z.pos (src_width src) * Z.pos (src_channels src).

(* Duration of the source in seconds is (bytes // frame size) / rate;
   this says that it is greater than `limit`. *)
Definition duration_over (limit : Z) (src : audio_source) : bool :=
  (0 <? Z.of_N (src_rate src)) &&
  (limit * Z.of_N (src_rate src) <? src_size src / src_frame_size src).

(* The duration test of send_audio_data lets the file through: a WAV
   file by its own frame count and frame rate, any other file by its
   size read as 16 kHz, 16 bit, mono. *)
Definition within_limit (path : string) (src : audio_source) : bool :=
  if endswith path ".wav" then
    (0 <? Z.of_N (src_rate src)) && negb (duration_over 60 src)
  else src_size src <=? 60 * (16000 * 2).

(* Bytes per binary frame: the chunk size, cut down to whole sample
   frames for a WAV file. *)
Definition bytes_per_frame (path : string) (src : audio_source) (chunk_size : Z) : Z :=
  if endswith path ".wav" then chunk_size / src_frame_size src * src_frame_size src
  else chunk_size.

(* ceil(n / d) for a positive d *)
Definition ceil_div (n d : Z) : Z := (n + d - 1) / d.

(* A WAV source with something to send holds at least one whole sample
   frame, so that its frame count is not 0. *)
Definition has_whole_frame (path : string) (src : audio_source) : Prop :=
  endswith path ".wav" = true -> src_bytes src <> [] ->
  src_frame_size src <= src_size src.

(* What the counter of the WAV loop and the unread bytes have in common
   while bytes are left: the frames counted are the bytes read.  For the
   raw loop the counter is the number of bytes read. *)
Definition wav_counter (frame_size size : Z) (sent : Z) (rest : list byte) : Prop :=
  0 <= sent /\
  (rest <> [] -> sent * frame_size + Z.of_nat (length rest) = size).

Definition raw_counter (size : Z) (sent : Z) (rest : list byte) : Prop :=
  0 <= sent /\ sent + Z.of_nat (length rest) = size.

(* A pyaudio that opens the stream, delivers the buffers of `microphone`
   and closes the stream, all without an exception. *)
Definition working (microphone : nat -> list byte) : PyAudio :=
  {| open_error := None;
     stream_read := fun i => inl (microphone i);
     close_error := None |}.

(* A duration whose product with 5.0 is computed exactly. *)
Definition exact_duration (duration : Z) : Prop :=
  Z.abs (5 * duration) <= 2 ^ 53.

(* The connection is open and the peer keeps taking frames. *)
Definition ready (self : GummyWebSocketClient) : Prop :=
  exists ws, websocket self = Some ws /\ closed ws = false /\ peer_accepts ws = None.

Definition action_is (action : string) (f : frame) : bool :=
  match f with
  | TextFrame message =>
      match json_at ["header"; "action"] message with
      | Some (JStr a) => String.eqb a action
      | _ => false
      end
  | BinaryFrame _ => false
  end.

Definition is_run_task : frame -> bool := action_is "run-task".
Definition is_finish_task : frame -> bool := action_is "finish-task".

Definition is_audio (f : frame) : bool :=
  match f with BinaryFrame _ => true | TextFrame _ => false end.

(* The binary frames of a log, in send order. *)
Definition audio_frames (log : list frame) : list (list byte) :=
  omap (fun f => match f with BinaryFrame data => Some data | TextFrame _ => None end) log.

(* A use of the client after construction: one of its methods, or a
   direct self.websocket.send(data) as in test_with_microphone. *)
Inductive call : Type :=
  | Call_connect (srv : server)
  | Call_send_run_task (target_lang source_lang : string) (sample_rate : Z)
      (format : string) (max_end_silence : Z)
      (enable_inverse_text_normalization : bool)
  | Call_send_audio_data (fs : gmap string fs_entry) (audio_file_path : string)
      (chunk_size : Z)
  | Call_send_bytes (data : list byte)
  | Call_send_finish_task
  | Call_close.

Definition perform (c : call) : M unit :=
  match c with
  | Call_connect srv => connect srv
  | Call_send_run_task tl sl sr fmt mes itn => send_run_task tl sl sr fmt mes itn
  | Call_send_audio_data fs path chunk_size => send_audio_data fs path chunk_size
  | Call_send_bytes data => websocket_send (BinaryFrame data)
  | Call_send_finish_task => send_finish_task
  | Call_close => close
  end.

(* The client after a sequence of calls, whatever each of them came to
   (a caller may catch an exception and go on). *)
Definition after_calls (calls : list call) (self : GummyWebSocketClient)
  : GummyWebSocketClient :=
  fold_left (fun s c => snd (perform c s)) calls self.

(* A text frame carries this task id in its header. *)
Definition carries_task_id (tid : string) (f : frame) : Prop :=
  match f with
  | TextFrame message => json_at ["header"; "task_id"] message = Some (JStr tid)
  | BinaryFrame _ => True
  end.

(* The keys of the object found at `path` are exactly `keys`, in any
   order. *)
Definition keys_at (path : list string) (message : json) (keys : list string) : Prop :=
  exists v ks, json_at path message = Some v /\ dict_keys v = Some ks /\ ks ≡ₚ keys.

Definition without_json_errors (out : list console_line) : list console_line :=
  List.filter (fun l => negb (is_json_error l)) out.

(* The client with `frames` appended to the log of its connection. *)
Definition with_sent (self : GummyWebSocketClient) (frames : list frame)
  : GummyWebSocketClient :=
  match websocket self with
  | Some ws =>
      set_websocket self
        (Some {| request_headers := request_headers ws;
                 sent := sent ws ++ frames;
                 peer_accepts := peer_accepts ws;
                 closed := closed ws |})
  | None => self
  end.

(* A read hands out a prefix of the unread bytes and keeps the rest. *)
Definition splits (read : list byte -> outcome (list byte * list byte)) : Prop :=
  forall r, exists data r', read r = Return (data, r') /\ r = data ++ r'.

(* A read that may also refuse. *)
Definition splits_or_raises
    (read : list byte -> outcome (list byte * list byte)) : Prop :=
  forall r, (exists data r', read r = Return (data, r') /\ r = data ++ r') \/
            (exists exc, read r = Raise exc).

(* The duration test of send_audio_data refuses the file: a WAV file by
   its own frame count and frame rate, any other file by its size read as
   16 kHz, 16 bit, mono. *)
Definition over_limit (path : string) (src : audio_source) : bool :=
  if endswith path ".wav" then duration_over 60 src
  else 60 * (16000 * 2) <? src_size src.

(* The start message of the interface description: header {task_id,
   action, streaming} and payload {task_group, task, function, model,
   input {format, sample_rate, audio_type, translation {target_lang,
   source_lang}}, parameters {max_end_silence,
   enable_inverse_text_normalization}}, with the fixed values it names. *)
Definition run_task_shape (m : json) (tid target_lang source_lang : string)
    (sample_rate : Z) (format : string) (max_end_silence : Z)
    (itn : bool) : Prop :=
  keys_at [] m ["header"; "payload"] /\
  keys_at ["header"] m ["task_id"; "action"; "streaming"] /\
  json_at ["header"; "task_id"] m = Some (JStr tid) /\
  json_at ["header"; "action"] m = Some (JStr "run-task") /\
  json_at ["header"; "streaming"] m = Some (JStr "duplex") /\
  keys_at ["payload"] m
    ["task_group"; "task"; "function"; "model"; "input"; "parameters"] /\
  json_at ["payload"; "task_group"] m = Some (JStr "audio") /\
  json_at ["payload"; "task"] m = Some (JStr "asr") /\
  json_at ["payload"; "function"] m = Some (JStr "recognition") /\
  json_at ["payload"; "model"] m = Some (JStr "gummy-realtime-v1") /\
  keys_at ["payload"; "input"] m
    ["format"; "sample_rate"; "audio_type"; "translation"] /\
  json_at ["payload"; "input"; "format"] m = Some (JStr format) /\
  json_at ["payload"; "input"; "sample_rate"] m = Some (JInt sample_rate) /\
  json_at ["payload"; "input"; "audio_type"] m = Some (JStr "sentence") /\
  keys_at ["payload"; "input"; "translation"] m ["target_lang"; "source_lang"] /\
  json_at ["payload"; "input"; "translation"; "target_lang"] m
    = Some (JStr target_lang) /\
  json_at ["payload"; "input"; "translation"; "source_lang"] m
    = Some (JStr source_lang) /\
  keys_at ["payload"; "parameters"] m
    ["max_end_silence"; "enable_inverse_text_normalization"] /\
  json_at ["payload"; "parameters"; "max_end_silence"] m
    = Some (JInt max_end_silence) /\
  json_at ["payload"; "parameters"; "enable_inverse_text_normalization"] m
    = Some (JBool itn).

(* The finish message: the same header with action finish-task, and
   payload {input: {}}. *)
Definition finish_task_shape (m : json) (tid : string) : Prop :=
  keys_at [] m ["header"; "payload"] /\
  keys_at ["header"] m ["task_id"; "action"; "streaming"] /\
  json_at ["header"; "task_id"] m = Some (JStr tid) /\
  json_at ["header"; "action"] m = Some (JStr "finish-task") /\
  json_at ["header"; "streaming"] m = Some (JStr "duplex") /\
  keys_at ["payload"] m ["input"] /\
  keys_at ["payload"; "input"] m [].

(* The task id of the client is `tid` and every text frame in the log of
   its connection carries it. *)
Definition task_id_invariant (tid : string) (self : GummyWebSocketClient) : Prop :=
  task_id self = tid /\ Forall (carries_task_id tid) (outbound self).

(* A method keeps the invariant, whatever it comes to. *)
Definition keeps_task_id {A} (m : M A) : Prop :=
  forall tid self, task_id_invariant tid self -> task_id_invariant tid (snd (m self)).

(* The log of a finished session: the start message, the audio frames,
   the finish message. *)
Definition session_log (tid target_lang : string) (max_end_silence : Z)
    (chunks : list (list byte)) : list frame :=
  TextFrame (run_task_message tid target_lang "auto" 16000 "pcm" max_end_silence true)
  :: map BinaryFrame chunks ++ [TextFrame (finish_task_message tid)].

(* The sequencing of control messages and audio in a log: one run-task,
   before every binary frame; one finish-task, after every binary frame. *)
Definition well_sequenced (log : list frame) : Prop :=
  length (List.filter is_run_task log) = 1%nat /\
  length (List.filter is_finish_task log) = 1%nat /\
  (forall i j f g,
     log !! i = Some f -> is_run_task f = true ->
     log !! j = Some g -> is_audio g = true -> (i < j)%nat) /\
  (forall i j f g,
     log !! i = Some f -> is_finish_task f = true ->
     log !! j = Some g -> is_audio g = true -> (j < i)%nat).

(* --------------------------------------------------------------------- *)
(*  Sample data                                                           *)
(* --------------------------------------------------------------------- *)

(* Sample events of a scripted server. *)
Definition task_started_event : json :=
  JDict [("header", JDict [("task_id", JStr "t-1"); ("event", JStr "task-started");
                           ("attributes", JDict [])]);
         ("payload", JDict [])].

Definition result_event (text : string) (sentence_end : bool)
    (begin_time end_time : Z) (translated : string) : json :=
  JDict [("header", JDict [("task_id", JStr "t-1");
                           ("event", JStr "result-generated");
                           ("attributes", JDict [])]);
         ("payload", JDict [("output", JDict [
            ("transcription", JDict [
               ("text", JStr text); ("sentence_end", JBool sentence_end);
               ("begin_time", JInt begin_time); ("end_time", JInt end_time)]);
            ("translations", JList [JDict [
               ("lang", JStr "en"); ("text", JStr translated);
               ("sentence_end", JBool sentence_end);
               ("begin_time", JInt begin_time); ("end_time", JInt end_time)]])])])].

Definition task_finished_event : json :=
  JDict [("header", JDict [("task_id", JStr "t-1"); ("event", JStr "task-finished");
                           ("attributes", JDict [])]);
         ("payload", JDict [])].

Definition task_failed_event (error_code error_message : string) : json :=
  JDict [("header", JDict [("task_id", JStr "t-1"); ("event", JStr "task-failed");
                           ("error_code", JStr error_code);
                           ("error_message", JStr error_message);
                           ("attributes", JDict [])]);
         ("payload", JDict [])].

Definition scripted_results : list json :=
  [result_event "ni" false 0 400 "he";
   result_event "ni hao" false 0 800 "hello";
   result_event "ni hao." true 0 1200 "Hello."].

Definition scripted_progress : list inbound :=
  Decodes task_started_event :: map Decodes scripted_results.

(* A client with an open connection to a peer that stays open. *)
Definition connected_client : GummyWebSocketClient :=
  snd (connect {| handshake_ok := true; frames_accepted := None |}
         (__init__ "sk-test" "0f8fad5b-d9cb-469f-a165-70867728950e")).

Definition silence (n : Z) : list byte := replicate (Z.to_nat n) x00.

(* Sample audio: 7 bytes of raw PCM; 0.2 s of 24-bit mono at 16 kHz;
   62.5 s of 16-bit mono at 8 kHz; 61 s of 8-bit mono at 100 Hz. *)
Definition short_raw : audio_source :=
  {| src_bytes := silence 7; src_rate := 16000; src_width := 2; src_channels := 1 |}.

Definition clip_24bit : audio_source :=
  {| src_bytes := silence 9600; src_rate := 16000; src_width := 3; src_channels := 1 |}.

Definition long_8khz : audio_source :=
  {| src_bytes := silence 1000000; src_rate := 8000; src_width := 2; src_channels := 1 |}.

Definition long_100hz : audio_source :=
  {| src_bytes := silence 6100; src_rate := 100; src_width := 1; src_channels := 1 |}.

Definition raw_file (src : audio_source) : fs_entry :=
  RegularFile (src_bytes src) None.

Definition wav_file (src : audio_source) : fs_entry :=
  RegularFile (silence 44 ++ src_bytes src) (Some (wave_of src)).

(* A complete environment for a run of a driver: one short raw file, a
   server that accepts the connection and keeps it open, and a script of
   inbound messages. *)
Definition scripted_env (script : list inbound) (e : stream_end) : environment :=
  {| fs := {["a.pcm" := raw_file short_raw]};
     uuid4 := "0f8fad5b-d9cb-469f-a165-70867728950e";
     remote := {| handshake_ok := true; frames_accepted := None |};
     messages := script;
     ending := e |}.

Definition sample_env : environment :=
  scripted_env (scripted_progress ++ [Decodes task_finished_event]) IteratorStops.

(* The same with a WAV file: 0.2 s of 24-bit mono. *)
Definition clip_env : environment :=
  {| fs := {["clip.wav" := wav_file clip_24bit]};
     uuid4 := "0f8fad5b-d9cb-469f-a165-70867728950e";
     remote := {| handshake_ok := true; frames_accepted := None |};
     messages := scripted_progress ++ [Decodes task_finished_event];
     ending := IteratorStops |}.

(* A WAV file cut short inside its first sample: one byte of 16-bit
   mono.  Its header gives a frame count of 0. *)
Definition sub_frame_wav : audio_source :=
  {| src_bytes := silence 1; src_rate := 16000; src_width := 2; src_channels := 1 |}.

Definition sub_frame_env : environment :=
  {| fs := {["cut.wav" := wav_file sub_frame_wav]};
     uuid4 := "0f8fad5b-d9cb-469f-a165-70867728950e";
     remote := {| handshake_ok := true; frames_accepted := None |};
     messages := scripted_progress ++ [Decodes task_finished_event];
     ending := IteratorStops |}.

(* --------------------------------------------------------------------- *)
(*  Further vocabulary of the receiving path                              *)
(* --------------------------------------------------------------------- *)

(* An object with an object header whose event is none of the four kinds
   (or is missing, or is no string). *)
Definition is_unrecognised (message : inbound) : bool :=
  match message with
  | Decodes event =>
      is_dict event && is_dict (field event "header" (JDict [])) &&
      negb (has_kind "task-started" message || has_kind "result-generated" message ||
            has_kind "task-finished" message || has_kind "task-failed" message)
  | _ => false
  end.

(* The texts printed on the console, in order. *)
Definition text_lines (out : list console_line) : list json :=
  omap (fun l => match l with TextLine text => Some text | _ => None end) out.

(* The translations of a result-generated event. *)
Definition translations_of (event : json) : list json :=
  match field (field (field event "payload" (JDict [])) "output" (JDict []))
          "translations" (JList []) with
  | JList items => items
  | _ => []
  end.

(* The transcription of a result-generated event. *)
Definition transcription_of (event : json) : json :=
  field (field (field event "payload" (JDict [])) "output" (JDict []))
    "transcription" (JDict []).

(* The only exceptions the handling of a message lets out. *)
Definition escapes_only {A} (o : outcome A) : Prop :=
  match o with
  | Return _ => True
  | Raise AttributeError => True
  | Raise TypeError => True
  | _ => False
  end.

(* --------------------------------------------------------------------- *)
(*  Further vocabulary of the sending path                                *)
(* --------------------------------------------------------------------- *)


(* The client has a connection (open or closed). *)
Definition connected (self : GummyWebSocketClient) : Prop :=
  exists ws, websocket self = Some ws.

(* A method never drops the connection object of the client. *)
Definition keeps_connected {A} (m : M A) : Prop :=
  forall self, connected self -> connected (snd (m self)).

(* A method adds only binary frames to the log and keeps the task id. *)
Definition appends_audio_only {A} (m : M A) : Prop :=
  forall self, exists chunks,
    outbound (snd (m self)) = outbound self ++ map BinaryFrame chunks /\
    task_id (snd (m self)) = task_id self.

(* The order of a log that may have been cut short: nothing comes before
   run-task, nothing after finish-task, and every binary frame lies
   between them. *)
Definition never_out_of_order (log : list frame) : Prop :=
  (forall i f, log !! i = Some f -> is_run_task f = true -> i = 0%nat) /\
  (forall i f, log !! i = Some f -> is_finish_task f = true -> S i = length log) /\
  (forall j g, log !! j = Some g -> is_audio g = true ->
     exists f, log !! 0%nat = Some f /\ is_run_task f = true /\ (0 < j)%nat).



(* A WAV file whose header gives frame rate 0, and an empty raw file. *)
Definition zero_rate_wave : Wave_read :=
  {| nchannels := 1; sampwidth := 2; framerate := 0; data_chunk := silence 8;
     missing := 0 |}.

Definition empty_raw : audio_source :=
  {| src_bytes := []; src_rate := 16000; src_width := 2; src_channels := 1 |}.


(* --------------------------------------------------------------------- *)
(*  The command-line entry points                                         *)
(* --------------------------------------------------------------------- *)

(* How an entry point ends: it returns, having run at most one session;
   it leaves through sys.exit; input() meets the end of stdin and raises
   EOFError; or another exception escapes. *)
Inductive main_outcome : Type :=
  | Finished (session : option session_report)
  | SystemExit (code : Z)
  | EndOfInput
  | Escaped (e : exn).

(* `s or dflt` for strings: the default replaces the empty string. *)
Definition py_or (s dflt : string) : string :=
  if String.eqb s "" then dflt else s.

Section entry_points.

(* str.strip() and int(str) are the interpreter's; they are taken as
   given.  int of a string returns the number or raises ValueError
   (None). *)
Variable strip : string -> string.
Variable py_int : string -> option Z.

(* test_with_microphone from its first line: without pyaudio it prints
   how to install it and returns before a client is made. *)
Definition test_with_microphone_if_available (env : environment)
    (pyaudio : option PyAudio)
    (api_key target_lang : string) (duration : Z) : option session_report :=
  match pyaudio with
  | None => None
  | Some module =>
      Some (test_with_microphone env module api_key target_lang duration)
  end.

(* main of test_gummy_websocket.py.  `getenv` is the value of
   os.getenv("DASHSCOPE_API_KEY"), `stdin` the lines that input() will
   return, in order. *)
Definition main (getenv : option string) (stdin : list string)
    (pyaudio : option PyAudio) (env : environment) : main_outcome :=
  match getenv with
  | None => Finished None
  | Some api_key =>
      if String.eqb api_key "" then Finished None
      else
        match stdin with
        | [] => EndOfInput
        | line1 :: stdin1 =>
            let choice := strip line1 in
            if String.eqb choice "1" then
              match stdin1 with
              | [] => EndOfInput
              | line2 :: stdin2 =>
                  let audio_file := strip line2 in
                  match stdin2 with
                  | [] => EndOfInput
                  | line3 :: _ =>
                      let target_lang := py_or (strip line3) "en" in
                      Finished
                        (Some (test_with_audio_file env api_key audio_file
                                 target_lang))
                  end
              end
            else if String.eqb choice "2" then
              match stdin1 with
              | [] => EndOfInput
              | line2 :: stdin2 =>
                  let target_lang := py_or (strip line2) "en" in
                  match stdin2 with
                  | [] => EndOfInput
                  | line3 :: _ =>
                      let duration := strip line3 in
                      match (if String.eqb duration "" then Some 10
                             else py_int duration) with
                      | Some duration =>
                          Finished
                            (test_with_microphone_if_available env pyaudio
                               api_key target_lang duration)
                      | None => Escaped (ValueError "invalid literal for int()")
                      end
                  end
              end
            else Finished None
        end
  end.

(* simple_test.py: the check of the API key at import time, then its
   main. *)
Definition simple_test (getenv : option string) (stdin : list string)
    (env : environment) : main_outcome :=
  match getenv with
  | None => SystemExit 1
  | Some api_key =>
      if String.eqb api_key "" then SystemExit 1
      else
        match stdin with
        | [] => EndOfInput
        | line1 :: stdin1 =>
            let audio_file := strip line1 in
            if String.eqb audio_file "" then SystemExit 1
            else
              match fs env !! audio_file with
              | None => SystemExit 1
              | Some _ =>
                  match stdin1 with
                  | [] => EndOfInput
                  | line2 :: _ =>
                      let target_lang := py_or (strip line2) "en" in
                      Finished
                        (Some (test_with_audio_file env api_key audio_file
                                 target_lang))
                  end
              end
        end
  end.

End entry_points.

(* The session an entry point ran, if it ran one. *)
Definition session_of (o : main_outcome) : option session_report :=
  match o with
  | Finished session => session
  | _ => None
  end.

(* The request headers of the connection a session opened. *)
Definition handshake_headers (r : session_report) : option (list (string * string)) :=
  request_headers <$> websocket (final_client r).

(* The first frame of the log of a session. *)
Definition first_frame (r : session_report) : option frame :=
  outbound (final_client r) !! 0%nat.

(* The headers connect sends for an API key. *)
Definition headers_for (key : string) : list (string * string) :=
  [("Authorization", "bearer " +:+ key);
   ("user-agent", "GummyTest/1.0");
   ("X-DashScope-DataInspection", "enable")].

(* A method leaves the API key of the client and the request headers of
   its connection as they are. *)
Definition keeps_credentials {A} (m : M A) : Prop :=
  forall self,
    api_key (snd (m self)) = api_key self /\
    request_headers <$> websocket (snd (m self))
      = request_headers <$> websocket self.

(* A step never raises FileNotFoundError. *)
Definition never_FileNotFoundError {A} (m : M A) : Prop :=
  forall self, fst (m self) <> Raise FileNotFoundError.

(* --------------------------------------------------------------------- *)
(*  convert_audio.py: stereo to mono                                      *)
(* --------------------------------------------------------------------- *)

Definition byte_value (b : byte) : Z := Z.of_N (Byte.to_N b).

Definition byte_of_value (z : Z) : byte := default x00 (Byte.of_N (Z.to_N z)).

(* The struct format 'h' with '<': a signed 16-bit integer, low byte
   first, two's complement. *)
Definition int16_of_bytes (lo hi : byte) : Z :=
  let u := byte_value lo + 256 * byte_value hi in
  if u <? 32768 then u else u - 65536.

Definition bytes_of_int16 (v : Z) : list byte :=
  let u := v mod 65536 in
  [byte_of_value (u mod 256); byte_of_value (u / 256)].

Definition in_int16 (v : Z) : bool := (-32768 <=? v) && (v <=? 32767).

Fixpoint pairs_int16 (frames : list byte) : list Z :=
  match frames with
  | lo :: hi :: rest => int16_of_bytes lo hi :: pairs_int16 rest
  | _ => []
  end.

(* struct.unpack(f'<{count}h', frames): the buffer must hold exactly
   2 * count bytes, otherwise struct.error. *)
Definition struct_unpack_h (count : Z) (frames : list byte) : outcome (list Z) :=
  if Z.of_nat (length frames) =? 2 * count then Return (pairs_int16 frames)
  else Raise StructError.

(* struct.pack(f'<{len(samples)}h', *samples): every value must fit 16
   bits, otherwise struct.error. *)
Definition struct_pack_h (samples : list Z) : outcome (list byte) :=
  if forallb in_int16 samples then Return (flat_map bytes_of_int16 samples)
  else Raise StructError.

(* sum(xs) *)
Definition sum_Z (xs : list Z) : Z := fold_right Z.add 0 xs.

(* range(0, stop, step) for a positive step *)
Definition range_step (stop step : nat) : list nat :=
  map (fun j => (j * step)%nat) (seq 0 ((stop + step - 1) / step)).

(* The loop of convert_to_mono:
     for i in range(0, len(samples), channels):
         avg = sum(samples[i:i+channels]) // channels *)
Definition average_channels (channels : nat) (samples : list Z) : list Z :=
  map (fun i => sum_Z (take channels (drop i samples)) / Z.of_nat channels)
      (range_step (length samples) channels).

Section convert_audio.

(* What the program takes from the library and the system:
   os.path.splitext; the bytes of the file that a Wave_write leaves for
   given parameters and frames (the file reads back with the parameters
   and frames it was written with); whether two paths name one file
   (os.path.samefile); and the exception that open(path, 'wb') raises, if
   it fails (a missing directory, a permission). *)
Variable splitext : string -> string * string.
Variable wave_bytes : Wave_read -> list byte.
Variable samefile : string -> string -> bool.
Variable open_wb_error : string -> option exn.

(* with wave.open(path, 'wb') as wf_out: set the parameters, writeframes.
   Opening a directory for writing raises.  The file written is what
   `path` names afterwards, and so it is for every other path that names
   the same file. *)
Definition wave_write (fs : gmap string fs_entry) (path : string) (w : Wave_read)
  : outcome (gmap string fs_entry) :=
  match fs !! path with
  | Some (Directory _) => Raise IsADirectoryError
  | _ =>
      match open_wb_error path with
      | Some exc => Raise exc
      | None =>
          let written := RegularFile (wave_bytes w) (Some w) in
          Return (<[path := written]>
                    (map_imap (fun p entry =>
                                 Some (if samefile p path then written else entry))
                       fs))
      end
  end.

(* convert_to_mono (output_file=None by default): the path it returns
   and the file system it leaves.  The prints are left out, but for the
   divisions by the frame rate in two of them, which raise on a frame
   rate of 0.  The message of the ValueError names the sample width; it
   is given here without it. *)
Definition convert_to_mono (fs : gmap string fs_entry) (input_file : string)
    (output_file : option string) : outcome (string * gmap string fs_entry) :=
  let output_file :=
    match output_file with
    | Some path => path
    | None => let '(name, ext) := splitext input_file in name +:+ "_mono" +:+ ext
    end in
  match fs !! input_file with
  | None => Raise FileNotFoundError
  | Some entry =>
      and_then (wave_open entry) (fun wf_in =>
        let channels := getnchannels wf_in in
        let sample_width := getsampwidth wf_in in
        let frame_rate := getframerate wf_in in
        let nframes := getnframes wf_in in
        and_then (true_div nframes frame_rate) (fun _ =>
          if channels =? 1 then Return (input_file, fs)
          else
            and_then (readframes wf_in nframes (data_chunk wf_in))
              (fun '(frames, _) =>
                 if sample_width =? 2 then
                   and_then (struct_unpack_h (nframes * channels) frames)
                     (fun samples =>
                        let mono_samples :=
                          average_channels (Z.to_nat channels) samples in
                        and_then (struct_pack_h mono_samples) (fun mono_frames =>
                        and_then (wave_write fs output_file
                                    {| nchannels := 1;
                                       sampwidth := sampwidth wf_in;
                                       framerate := framerate wf_in;
                                       data_chunk := mono_frames;
                                       missing := 0 |})
                          (fun fs' =>
                        and_then (true_div (Z.of_nat (length mono_samples)) frame_rate)
                          (fun _ => Return (output_file, fs')))))
                 else Raise (ValueError "unsupported sample width"))))
  end.

(* The path convert_to_mono writes to. *)
Definition output_path (input_file : string) (output_file : option string)
  : string :=
  match output_file with
  | Some path => path
  | None => let '(name, ext) := splitext input_file in name +:+ "_mono" +:+ ext
  end.

(* The output path can be opened for writing. *)
Definition writable (fs : gmap string fs_entry) (path : string) : Prop :=
  (forall st_size, fs !! path <> Some (Directory st_size)) /\
  open_wb_error path = None.

End convert_audio.

(* The samples of a 16-bit WAV file, channel after channel, frame after
   frame. *)
Definition wave_samples (w : Wave_read) : list Z := pairs_int16 (data_chunk w).


(* The file system a conversion leaves: the one it found, when it
   raises (after the write only the division of the last print is left,
   and it raises nothing that the division of the first print did not). *)
Definition converted_fs (before : gmap string fs_entry)
    (c : outcome (string * gmap string fs_entry)) : gmap string fs_entry :=
  match c with
  | Return (_, fs) => fs
  | _ => before
  end.


(* A 16-bit file with at least two channels and a frame rate: what
   convert_to_mono converts.  The size of a RIFF chunk is a 32-bit field
   of its header. *)
Definition convertible (wf : Wave_read) : Prop :=
  sampwidth wf = 2%positive /\ nchannels wf <> 1%positive /\
  framerate wf <> 0%N /\ chunksize wf < 2 ^ 32.

(* The file holds every frame that its header announces (it may lack
   announced bytes past the last whole frame). *)
Definition holds_announced_frames (wf : Wave_read) : Prop :=
  getnframes wf * (getsampwidth wf * getnchannels wf)
  <= Z.of_nat (length (data_chunk wf)).

(* The file at `path` is a WAV file that reads as `wf`. *)
Definition wave_at (fs : gmap string fs_entry) (path : string) (wf : Wave_read)
  : Prop :=
  exists content, fs !! path = Some (RegularFile content (Some wf)).


(* The mono file made of a file: one channel, the same sample width and
   frame rate, and for each announced frame the mean of its channels. *)
Definition mono_of (wf : Wave_read) : Wave_read :=
  let channels := Pos.to_nat (nchannels wf) in
  let nframes := Z.to_nat (getnframes wf) in
  {| nchannels := 1;
     sampwidth := sampwidth wf;
     framerate := framerate wf;
     data_chunk :=
       flat_map bytes_of_int16
         (average_channels channels (take (nframes * channels) (wave_samples wf)));
     missing := 0 |}.














(* ===================================================================== *)
(*  The receiving path                                                    *)
(* ===================================================================== *)

Lemma cbind_Return {A B} (a : A) (out : list console_line) (k : A -> Console B) :
  cbind (Return a, out) k = (fst (k a), out ++ snd (k a)).
Proof. unfold cbind. destruct (k a); reflexivity. Qed.

Lemma receive_loop_cons_continue message rest e :
  continues message ->
  receive_loop (message :: rest) e =
    (fst (receive_loop rest e),
     snd (handle_message message) ++ snd (receive_loop rest e)).
Proof.
  unfold continues. intros Hc. cbn [receive_loop].
  destruct (handle_message message) as [r out]. cbn in Hc. subst r.
  rewrite cbind_Return. reflexivity.
Qed.

Lemma receive_loop_prefix pre rest e :
  Forall continues pre ->
  receive_loop (pre ++ rest) e =
    (fst (receive_loop rest e), console_of pre ++ snd (receive_loop rest e)).
Proof.
  induction 1 as [|m pre Hm _ IH]; cbn [app console_of flat_map].
  - destruct (receive_loop rest e); reflexivity.
  - rewrite receive_loop_cons_continue by assumption.
    rewrite IH. cbn [fst snd]. unfold console_of. by rewrite app_assoc.
Qed.

Lemma receive_messages_unfold script e :
  receive_messages script e =
    let body := except_ConnectionClosed (receive_loop script e)
                  (print ConnectionClosedLine) in
    (fst body, Listening :: snd body).
Proof.
  unfold receive_messages, print. rewrite cbind_Return. reflexivity.
Qed.

Lemma forwarded_app a b : forwarded (a ++ b) = forwarded a ++ forwarded b.
Proof. apply omap_app. Qed.

Lemma py_get_is_dict obj key dflt :
  is_dict obj = true -> py_get obj key dflt = Return (field obj key dflt).
Proof. destruct obj; try discriminate. reflexivity. Qed.

Lemma lift_Return_bind {A B} (a : A) (k : A -> Console B) :
  cbind (lift (Return a)) k = k a.
Proof. unfold lift, cbind. destruct (k a); reflexivity. Qed.

Lemma print_bind {B} l (k : unit -> Console B) :
  cbind (print l) k = (fst (k tt), l :: snd (k tt)).
Proof. unfold print. by rewrite cbind_Return. Qed.

Lemma cret_bind {A B} (a : A) (k : A -> Console B) :
  cbind (cret a) k = k a.
Proof. unfold cret, cbind. destruct (k a); reflexivity. Qed.

Lemma handle_translation_dict translation :
  is_dict translation = true ->
  exists out, handle_translation translation = (Return tt, out) /\ forwarded out = [].
Proof.
  intros Hd. unfold handle_translation.
  rewrite !(py_get_is_dict translation), !lift_Return_bind, print_bind by assumption.
  eexists; split; reflexivity.
Qed.

Lemma for_each_translations items :
  forallb is_dict items = true ->
  exists out, for_each handle_translation items = (Return tt, out) /\ forwarded out = [].
Proof.
  induction items as [|t items IH]; cbn [forallb for_each].
  - intros _. by exists [].
  - intros [Ht Hitems]%andb_prop.
    destruct (handle_translation_dict t Ht) as (o1 & -> & F1).
    destruct (IH Hitems) as (o2 & E2 & F2).
    rewrite cbind_Return, E2. cbn [fst snd].
    eexists; split; [reflexivity|]. by rewrite forwarded_app, F1, F2.
Qed.

Lemma handle_result_well_formed event :
  is_dict event = true ->
  well_formed_result event = true ->
  exists out, _handle_result event = (Return tt, ReceivedResult event :: out) /\
              forwarded out = [].
Proof.
  intros He. unfold well_formed_result.
  intros [[[Hp Ho]%andb_prop Ht]%andb_prop Hl]%andb_prop.
  unfold _handle_result.
  rewrite (py_get_is_dict event), lift_Return_bind by assumption.
  rewrite (py_get_is_dict _ "output"), lift_Return_bind by assumption.
  set (output := field (field event "payload" (JDict [])) "output" (JDict [])) in *.
  rewrite print_bind.
  rewrite !(py_get_is_dict output), !lift_Return_bind by assumption.
  destruct (field output "translations" (JList [])) as [| | | |items|] eqn:El; try discriminate.
  destruct (for_each_translations items Hl) as (o2 & E2 & F2).
  set (transcription := field output "transcription" (JDict [])) in *.
  unfold py_iter. rewrite lift_Return_bind, E2.
  destruct (truthy transcription).
  - rewrite !(py_get_is_dict transcription), !lift_Return_bind by assumption.
    cbn. eexists; split; [reflexivity|].
    cbn. rewrite forwarded_app, F2. reflexivity.
  - cbn. eexists; split; [reflexivity|].
    rewrite forwarded_app, F2. reflexivity.
Qed.

Lemma has_kind_get event kind :
  is_dict event = true ->
  is_dict (field event "header" (JDict [])) = true ->
  has_kind kind (Decodes event) = true ->
  py_get (field event "header" (JDict [])) "event" JNone = Return (JStr kind).
Proof.
  destruct event as [| | | | |items]; try discriminate. intros _.
  unfold has_kind, event_kind. cbn [json_at field].
  destruct (dict_item "header" items) as [header|]; cbn; [|discriminate].
  destruct header as [| | | | |hitems]; try discriminate. intros _. cbn.
  destruct (dict_item "event" hitems) as [[| | |k| |]|]; cbn; try discriminate.
  intros ->%String.eqb_eq. reflexivity.
Qed.

Lemma results_of_cons message script :
  results_of (message :: script) =
    match message with
    | Decodes event =>
        if has_kind "result-generated" message then event :: results_of script
        else results_of script
    | _ => results_of script
    end.
Proof.
  unfold results_of. cbn.
  destruct message as [|event|failure]; [reflexivity| |reflexivity].
  destruct (has_kind "result-generated" (Decodes event)); reflexivity.
Qed.

Lemma handle_message_progress message :
  well_formed_progress message = true ->
  continues message /\
  forwarded (snd (handle_message message)) = results_of [message].
Proof.
  unfold well_formed_progress, continues.
  intros [He Hk]%andb_prop.
  destruct message as [|event|failure]; [discriminate| |discriminate].
  pose proof He as He'. unfold is_event in He'.
  apply andb_prop in He' as [[Hd Hh]%andb_prop _].
  unfold handle_message. rewrite results_of_cons.
  rewrite (py_get_is_dict event), lift_Return_bind by assumption.
  apply orb_prop in Hk as [Hk|[Hk Hw]%andb_prop].
  - rewrite (has_kind_get event _ Hd Hh Hk), lift_Return_bind.
    assert (has_kind "result-generated" (Decodes event) = false) as ->.
    { unfold has_kind in *. destruct (event_kind (Decodes event)); [|done].
      apply String.eqb_eq in Hk as ->. reflexivity. }
    cbn. split; reflexivity.
  - rewrite (has_kind_get event _ Hd Hh Hk), lift_Return_bind, Hk.
    destruct (handle_result_well_formed event Hd Hw) as (out & E & F).
    cbn [py_eq_str String.eqb Ascii.eqb Bool.eqb]. cbn match.
    rewrite E, cbind_Return. cbn [cret fst snd]. rewrite app_nil_r.
    split; [reflexivity|].
    change (forwarded (ReceivedResult event :: out)) with (event :: forwarded out).
    rewrite F. reflexivity.
Qed.

Lemma handle_message_task_finished message :
  is_event message = true ->
  has_kind "task-finished" message = true ->
  handle_message message = (Return Break, [TaskFinishedLine]).
Proof.
  intros He Hk. destruct message as [|event|failure]; [discriminate| |discriminate].
  unfold is_event in He. apply andb_prop in He as [[Hd Hh]%andb_prop _].
  unfold handle_message.
  rewrite (py_get_is_dict event), lift_Return_bind by assumption.
  rewrite (has_kind_get event _ Hd Hh Hk), lift_Return_bind.
  reflexivity.
Qed.

Lemma handle_message_task_failed event :
  is_event (Decodes event) = true ->
  has_kind "task-failed" (Decodes event) = true ->
  let header := field event "header" (JDict []) in
  let error_code := field header "error_code" (JStr "UNKNOWN") in
  let error_message := field header "error_message" (JStr "") in
  handle_message (Decodes event) =
    (Return Break,
     [TaskFailedLine; ErrorCodeLine error_code; ErrorMessageLine error_message] ++
     (if py_eq_str error_code "TOO_LONG_SPEECH" then [TooLongSpeechHint] else []) ++
     [DetailLine event]).
Proof.
  intros He Hk. unfold is_event in He.
  apply andb_prop in He as [[Hd Hh]%andb_prop _]. intros header error_code error_message.
  unfold handle_message.
  rewrite !(py_get_is_dict event), !lift_Return_bind by assumption.
  rewrite (has_kind_get event _ Hd Hh Hk), lift_Return_bind.
  cbn [py_eq_str String.eqb Ascii.eqb Bool.eqb]. cbn match.
  rewrite (py_get_is_dict (field event "header" (JDict [])) "error_code")
    by assumption.
  rewrite !lift_Return_bind.
  rewrite (py_get_is_dict (field event "header" (JDict [])) "error_message")
    by assumption.
  rewrite lift_Return_bind.
  fold header. fold error_code. fold error_message.
  destruct (py_eq_str error_code "TOO_LONG_SPEECH"); reflexivity.
Qed.

Lemma receive_loop_break message rest e out :
  handle_message message = (Return Break, out) ->
  receive_loop (message :: rest) e = (Return tt, out).
Proof.
  intros E. cbn [receive_loop]. rewrite E, cbind_Return.
  cbn [cret fst snd]. by rewrite app_nil_r.
Qed.

Lemma well_formed_progress_continues script :
  Forall (fun m => well_formed_progress m = true) script ->
  Forall continues script.
Proof.
  intros H. eapply Forall_impl; [exact H|].
  intros m Hm. by apply handle_message_progress.
Qed.

Lemma forwarded_console_of script :
  Forall (fun m => well_formed_progress m = true) script ->
  forwarded (console_of script) = results_of script.
Proof.
  induction 1 as [|m script Hm _ IH]; [reflexivity|].
  change (console_of (m :: script))
    with (snd (handle_message m) ++ console_of script).
  rewrite forwarded_app, IH.
  destruct (handle_message_progress m Hm) as [_ ->].
  rewrite !results_of_cons. destruct m as [|event|failure]; [reflexivity| |reflexivity].
  destruct (has_kind "result-generated" (Decodes event)); reflexivity.
Qed.

Lemma handle_message_terminal message :
  is_terminal message = true ->
  exists out, handle_message message = (Return Break, out) /\ forwarded out = [].
Proof.
  unfold is_terminal. intros [He [Hk|Hk]%orb_prop]%andb_prop.
  - rewrite (handle_message_task_finished message He Hk). by eexists.
  - destruct message as [|event|failure]; [discriminate| |discriminate].
    rewrite (handle_message_task_failed event He Hk).
    eexists. split; [reflexivity|].
    destruct (py_eq_str _ "TOO_LONG_SPEECH"); reflexivity.
Qed.

(** C4: every result-generated event that arrives before the terminal
    event is handed to _handle_result, once each and in arrival order
    (nothing is dropped or merged), and receive_messages then returns
    normally; after task-finished that is the successful end of the
    session.  The events before the terminal one are well-formed
    task-started and result-generated events. *)
Theorem results_forwarded_in_arrival_order
    (progress : list inbound) (terminal : inbound) (later : list inbound)
    (e : stream_end) :
  Forall (fun m => well_formed_progress m = true) progress ->
  is_terminal terminal = true ->
  fst (receive_messages (progress ++ terminal :: later) e) = Return tt /\
  forwarded (snd (receive_messages (progress ++ terminal :: later) e))
    = results_of progress.
Proof.
  intros Hp Ht.
  destruct (handle_message_terminal terminal Ht) as (out & Hbreak & Hout).
  rewrite receive_messages_unfold.
  rewrite receive_loop_prefix by (by apply well_formed_progress_continues).
  rewrite (receive_loop_break terminal later e out Hbreak).
  cbn [fst snd except_ConnectionClosed]. split; [reflexivity|].
  change (forwarded (Listening :: ?l)) with (forwarded l).
  rewrite forwarded_app, forwarded_console_of, Hout by assumption.
  by rewrite app_nil_r.
Qed.

Lemma results_forwarded_scripted :
  Forall (fun m => well_formed_progress m = true) scripted_progress /\
  is_terminal (Decodes task_finished_event) = true /\
  has_kind "task-finished" (Decodes task_finished_event) = true /\
  fst (receive_messages (scripted_progress ++ [Decodes task_finished_event])
         IteratorStops) = Return tt /\
  forwarded (snd (receive_messages
                    (scripted_progress ++ [Decodes task_finished_event])
                    IteratorStops))
    = scripted_results.
Proof.
  assert (Hp : Forall (fun m => well_formed_progress m = true) scripted_progress)
    by (repeat constructor).
  split; [exact Hp|]. split; [reflexivity|]. split; [reflexivity|].
  exact (results_forwarded_in_arrival_order scripted_progress
           (Decodes task_finished_event) [] IteratorStops Hp eq_refl).
Defined.

(** C5 (as the code has it): when task-failed arrives, the receive loop
    stops without reading further messages, prints the server's error
    code unchanged ("UNKNOWN" when the header has none) and the error
    message, and receive_messages returns normally; nothing is raised to
    the caller. *)
Theorem task_failed_stops_loop_and_prints_code
    (progress : list inbound) (event : json) (later : list inbound)
    (e : stream_end) :
  Forall continues progress ->
  is_event (Decodes event) = true ->
  has_kind "task-failed" (Decodes event) = true ->
  let header := field event "header" (JDict []) in
  let error_code := field header "error_code" (JStr "UNKNOWN") in
  let error_message := field header "error_message" (JStr "") in
  receive_messages (progress ++ Decodes event :: later) e =
    (Return tt,
     Listening :: console_of progress ++
     [TaskFailedLine; ErrorCodeLine error_code; ErrorMessageLine error_message] ++
     (if py_eq_str error_code "TOO_LONG_SPEECH" then [TooLongSpeechHint] else []) ++
     [DetailLine event]).
Proof.
  intros Hp He Hk header error_code error_message.
  rewrite receive_messages_unfold, receive_loop_prefix by assumption.
  rewrite (receive_loop_break (Decodes event) later e _
             (handle_message_task_failed event He Hk)).
  reflexivity.
Qed.

Lemma task_failed_too_long_speech :
  Forall continues [Decodes task_started_event] /\
  is_event (Decodes (task_failed_event "TOO_LONG_SPEECH" "too long")) = true /\
  has_kind "task-failed" (Decodes (task_failed_event "TOO_LONG_SPEECH" "too long"))
    = true /\
  receive_messages
    [Decodes task_started_event;
     Decodes (task_failed_event "TOO_LONG_SPEECH" "too long");
     Decodes task_finished_event] IteratorStops =
    (Return tt,
     [Listening; TaskStartedLine; TaskFailedLine;
      ErrorCodeLine (JStr "TOO_LONG_SPEECH"); ErrorMessageLine (JStr "too long");
      TooLongSpeechHint;
      DetailLine (task_failed_event "TOO_LONG_SPEECH" "too long")]).
Proof.
  assert (Hp : Forall continues [Decodes task_started_event])
    by (repeat constructor).
  split; [exact Hp|]. split; [reflexivity|]. split; [reflexivity|].
  exact (task_failed_stops_loop_and_prints_code [Decodes task_started_event]
           (task_failed_event "TOO_LONG_SPEECH" "too long")
           [Decodes task_finished_event] IteratorStops Hp eq_refl eq_refl).
Defined.

(** C5 as stated fails: after task-failed with error_code TOO_LONG_SPEECH
    the caller of receive_messages gets a normal return, the same outcome
    as after task-finished, and no exception; the try block of
    test_with_audio_file, which awaits it, completes without one. *)
Lemma task_failed_raises_nothing :
  tried (test_with_audio_file
           (scripted_env
              [Decodes task_started_event;
               Decodes (task_failed_event "TOO_LONG_SPEECH" "too long")]
              IteratorStops)
           "sk-test" "a.pcm" "en") = Return tt /\
  fst (receive_messages
         [Decodes task_started_event;
          Decodes (task_failed_event "TOO_LONG_SPEECH" "too long")]
         IteratorStops) = Return tt /\
  fst (receive_messages
         [Decodes task_started_event;
          Decodes (task_failed_event "TOO_LONG_SPEECH" "too long")]
         IteratorStops)
  = fst (receive_messages
           [Decodes task_started_event; Decodes task_finished_event]
           IteratorStops) /\
  ~ (exists exc,
       fst (receive_messages
              [Decodes task_started_event;
               Decodes (task_failed_event "TOO_LONG_SPEECH" "too long")]
              IteratorStops) = Raise exc).
Proof.
  split; [vm_compute; reflexivity|].
  split; [reflexivity|]. split; [reflexivity|].
  intros [exc H]. discriminate H.
Qed.

(** C6 (as the code has it): when the connection closes before a
    terminal event, receive_messages ends and returns normally, whether
    the iterator stops or raises ConnectionClosed; in the second case it
    prints the connection-closed line.  It raises nothing. *)
Theorem connection_closed_returns_normally
    (progress : list inbound) (e : stream_end) :
  Forall continues progress ->
  receive_messages progress e =
    (Return tt,
     Listening :: console_of progress ++
     match e with
     | IteratorRaises => [ConnectionClosedLine]
     | IteratorStops => []
     end).
Proof.
  intros Hp. rewrite receive_messages_unfold.
  pose proof (receive_loop_prefix progress [] e Hp) as Hloop.
  rewrite app_nil_r in Hloop. rewrite Hloop.
  destruct e; cbn; rewrite ?app_nil_r; reflexivity.
Qed.

Lemma connection_closed_mid_stream :
  Forall continues scripted_progress /\
  receive_messages scripted_progress IteratorRaises =
    (Return tt,
     Listening :: console_of scripted_progress ++ [ConnectionClosedLine]).
Proof.
  assert (Hp : Forall continues scripted_progress) by (repeat constructor).
  split; [exact Hp|].
  exact (connection_closed_returns_normally scripted_progress IteratorRaises Hp).
Defined.

(** C6 as stated fails: the connection closes with ConnectionClosed after
    task-started and before any terminal event, and the caller of
    receive_messages gets a normal return, the same outcome as after
    task-finished; the try block of test_with_audio_file, which awaits
    it, completes without an exception. *)
Lemma premature_close_raises_nothing :
  tried (test_with_audio_file
           (scripted_env [Decodes task_started_event] IteratorRaises)
           "sk-test" "a.pcm" "en") = Return tt /\
  fst (receive_messages [Decodes task_started_event] IteratorRaises) = Return tt /\
  fst (receive_messages [Decodes task_started_event] IteratorRaises)
  = fst (receive_messages
           [Decodes task_started_event; Decodes task_finished_event]
           IteratorStops) /\
  ~ (exists exc,
       fst (receive_messages [Decodes task_started_event] IteratorRaises)
       = Raise exc).
Proof.
  split; [vm_compute; reflexivity|].
  split; [reflexivity|]. split; [reflexivity|].
  intros [exc H]. discriminate H.
Qed.

Lemma without_json_errors_app a b :
  without_json_errors (a ++ b) = without_json_errors a ++ without_json_errors b.
Proof. apply List.filter_app. Qed.

Lemma receive_loop_skips_undecodable before after e :
  fst (receive_loop (before ++ Undecodable :: after) e)
    = fst (receive_loop (before ++ after) e) /\
  without_json_errors (snd (receive_loop (before ++ Undecodable :: after) e))
    = without_json_errors (snd (receive_loop (before ++ after) e)).
Proof.
  induction before as [|m before IH]; cbn [app].
  - cbn [receive_loop].
    change (handle_message Undecodable)
      with (@pair (outcome control) _ (Return Continue) [JsonErrorLine]).
    rewrite cbind_Return. cbn [fst snd]. split; reflexivity.
  - cbn [receive_loop].
    destruct (handle_message m) as [[[|]|exc|] out]; try (split; reflexivity).
    rewrite !cbind_Return. cbn [fst snd].
    rewrite !without_json_errors_app. destruct IH as [-> ->]. split; reflexivity.
Qed.

Lemma except_ConnectionClosed_fst body body' handler :
  fst body = fst body' ->
  fst (except_ConnectionClosed body handler)
    = fst (except_ConnectionClosed body' handler).
Proof.
  destruct body as [r out], body' as [r' out']. cbn. intros <-.
  destruct r as [|[]|]; try reflexivity. cbn. by destruct handler.
Qed.

Lemma except_ConnectionClosed_snd body body' handler :
  fst body = fst body' ->
  without_json_errors (snd body) = without_json_errors (snd body') ->
  without_json_errors (snd (except_ConnectionClosed body handler))
    = without_json_errors (snd (except_ConnectionClosed body' handler)).
Proof.
  destruct body as [r out], body' as [r' out']. cbn [fst snd]. intros <- Hout.
  destruct r as [|[]|]; try assumption.
  cbn [except_ConnectionClosed]. destruct handler as [rh outh].
  cbn [snd]. by rewrite !without_json_errors_app, Hout.
Qed.

(** C7 (as the code has it): a message that json.loads cannot decode is
    logged with one line and skipped.  Wherever it stands in the inbound
    script, receive_messages comes to the same outcome as without it and
    prints the same lines apart from the JSON-error lines, so the loop
    goes on with the messages after it. *)
Theorem undecodable_message_logged_and_skipped
    (before after : list inbound) (e : stream_end) :
  handle_message Undecodable = (Return Continue, [JsonErrorLine]) /\
  fst (receive_messages (before ++ Undecodable :: after) e)
    = fst (receive_messages (before ++ after) e) /\
  without_json_errors (snd (receive_messages (before ++ Undecodable :: after) e))
    = without_json_errors (snd (receive_messages (before ++ after) e)).
Proof.
  split; [reflexivity|].
  destruct (receive_loop_skips_undecodable before after e) as [Hr Hout].
  rewrite !receive_messages_unfold. cbn [fst snd]. split.
  - by apply except_ConnectionClosed_fst.
  - change (without_json_errors (Listening :: ?l))
      with (Listening :: without_json_errors l).
    f_equal. by apply except_ConnectionClosed_snd.
Qed.

(** C7 as stated fails: the message "[]" decodes to a list, which is no
    structured event; handling it raises AttributeError out of
    receive_messages, nothing is logged for it and the task-finished
    event after it is never read. *)
Lemma non_object_message_ends_loop :
  is_event (Decodes (JList [])) = false /\
  receive_messages [Decodes (JList []); Decodes task_finished_event] IteratorStops
    = (Raise AttributeError, [Listening]).
Proof. split; reflexivity. Qed.

(* ===================================================================== *)
(*  The sending path                                                      *)
(* ===================================================================== *)

Lemma ready_with_sent self frames : ready self -> ready (with_sent self frames).
Proof.
  intros (ws & Hws & Hc & Hp). unfold with_sent. rewrite Hws.
  eexists. split; [reflexivity|]. by cbn.
Qed.

Lemma outbound_with_sent self frames :
  ready self -> outbound (with_sent self frames) = outbound self ++ frames.
Proof.
  intros (ws & Hws & _). unfold with_sent, outbound. rewrite Hws. reflexivity.
Qed.

Lemma with_sent_nil self : with_sent self [] = self.
Proof.
  unfold with_sent. destruct self as [k u t [ws|]]; [|reflexivity].
  destruct ws. cbn. by rewrite app_nil_r.
Qed.

Lemma with_sent_app self a b :
  with_sent (with_sent self a) b = with_sent self (a ++ b).
Proof.
  unfold with_sent. destruct self as [k u t [ws|]]; [|reflexivity].
  cbn. by rewrite app_assoc.
Qed.

Lemma task_id_with_sent self frames : task_id (with_sent self frames) = task_id self.
Proof. unfold with_sent. by destruct (websocket self). Qed.

Lemma websocket_send_ready f self :
  ready self -> websocket_send f self = (Return tt, with_sent self [f]).
Proof.
  intros (ws & Hws & Hc & Hp). unfold websocket_send, with_sent.
  rewrite Hws, Hc, Hp. reflexivity.
Qed.

(* Whatever the state of the connection, a send changes nothing but the
   log, and the log at most by the frame sent. *)
Lemma websocket_send_cases f self :
  (exists exc, websocket_send f self = (Raise exc, self)) \/
  (websocket_send f self = (Return tt, snd (websocket_send f self)) /\
   task_id (snd (websocket_send f self)) = task_id self /\
   outbound (snd (websocket_send f self)) = outbound self ++ [f]).
Proof.
  unfold websocket_send, outbound.
  destruct (websocket self) as [ws|]; [|left; by eexists].
  destruct (closed ws); [left; by eexists|].
  destruct (peer_accepts ws) as [[|n]|]; [left; by eexists| |];
    right; repeat split; reflexivity.
Qed.

Lemma mbind_Return {A B} (m : M A) (k : A -> M B) self a self' :
  m self = (Return a, self') -> mbind m k self = k a self'.
Proof. unfold mbind. by intros ->. Qed.

Lemma mbind_Raise {A B} (m : M A) (k : A -> M B) self exc self' :
  m self = (Raise exc, self') -> mbind m k self = (Raise exc, self').
Proof. unfold mbind. by intros ->. Qed.

(* Run the send at the head of the goal, on a connection known ready. *)
Ltac send_on_ready H :=
  rewrite (mbind_Return _ _ _ _ _ (websocket_send_ready _ _ H)).

Lemma mbind_mlift {A B} (o : outcome A) (k : A -> M B) self :
  mbind (mlift o) k self =
    match o with
    | Return a => k a self
    | Raise exc => (Raise exc, self)
    | OutOfFuel => (OutOfFuel, self)
    end.
Proof. unfold mbind, mlift. by destruct o. Qed.

Lemma float_limit_large : 2 ^ 64 <= float_limit.
Proof. apply Z.leb_le. vm_compute. reflexivity. Qed.

Lemma true_div_Return a b :
  b <> 0 -> Z.abs a < float_limit * Z.abs b -> true_div a b = Return tt.
Proof.
  intros Hb Ha. unfold true_div.
  destruct (Z.eqb_spec b 0); [done|].
  destruct (Z.leb_spec (float_limit * Z.abs b) (Z.abs a)); [lia|done].
Qed.

(* A quotient of at most 2^63 has a float. *)
Lemma true_div_small a b :
  0 < b -> 0 <= a <= 2 ^ 63 * b -> true_div a b = Return tt.
Proof.
  intros Hb Ha. apply true_div_Return; [lia|].
  pose proof float_limit_large as Hl.
  assert (2 ^ 63 * 2 = 2 ^ 64) as H64 by reflexivity.
  rewrite (Z.abs_eq a), (Z.abs_eq b) by lia. nia.
Qed.

(* Whatever the read, the progress and the state of the connection, the
   loop adds only binary frames to the log and leaves the task id
   alone. *)
Lemma send_chunks_appends_audio read progress fuel sent rest self :
  exists chunks,
    outbound (snd (send_chunks fuel read progress sent rest self))
      = outbound self ++ map BinaryFrame chunks /\
    task_id (snd (send_chunks fuel read progress sent rest self)) = task_id self.
Proof.
  revert sent rest self. induction fuel as [|fuel IH]; intros sent rest self.
  - exists []. cbn. by rewrite app_nil_r.
  - cbn [send_chunks].
    destruct (read rest) as [[data rest']|exc|];
      try (exists []; cbn; by rewrite app_nil_r).
    destruct data as [|b data]; [exists []; cbn; by rewrite app_nil_r|].
    destruct (websocket_send_cases (BinaryFrame (b :: data)) self)
      as [(exc & E)|(E & Htid & Hout)].
    + rewrite (mbind_Raise _ _ _ _ _ E). exists []. cbn. by rewrite app_nil_r.
    + rewrite (mbind_Return _ _ _ _ _ E). cbv beta. rewrite mbind_mlift.
      destruct (progress sent (b :: data)) as [sent'|exc|];
        try (exists [b :: data]; cbn [snd map]; by rewrite Hout, Htid).
      destruct (IH sent' rest' (snd (websocket_send (BinaryFrame (b :: data)) self)))
        as (chunks & Ho & Ht).
      exists ((b :: data) :: chunks). rewrite Ho, Ht, Hout, Htid.
      split; [|reflexivity]. cbn [map]. by rewrite <- app_assoc.
Qed.

(* The loop never runs out of its fuel when the fuel exceeds the number
   of unread bytes. *)
Lemma send_chunks_total read progress fuel sent rest self :
  splits_or_raises read ->
  (forall s d, progress s d <> OutOfFuel) ->
  (length rest < fuel)%nat ->
  fst (send_chunks fuel read progress sent rest self) <> OutOfFuel.
Proof.
  intros Hread Hprog. revert sent rest self.
  induction fuel as [|fuel IH]; intros sent rest self Hlen; [lia|].
  cbn [send_chunks].
  destruct (Hread rest) as [(data & rest' & -> & Hsplit)|(exc & ->)];
    [|discriminate].
  destruct data as [|b data]; [discriminate|].
  destruct (websocket_send_cases (BinaryFrame (b :: data)) self)
    as [(exc & E)|(E & _)].
  - by rewrite (mbind_Raise _ _ _ _ _ E).
  - rewrite (mbind_Return _ _ _ _ _ E). cbv beta. rewrite mbind_mlift.
    specialize (Hprog sent (b :: data)).
    destruct (progress sent (b :: data)) as [sent'|exc|]; [|discriminate|done].
    apply IH. subst rest. rewrite length_app in Hlen. cbn in Hlen. lia.
Qed.

Lemma ceil_div_0 d : 0 < d -> ceil_div 0 d = 0.
Proof. intros Hd. unfold ceil_div. apply Z.div_small. lia. Qed.

Lemma ceil_div_step n d :
  0 < d -> 0 < n -> ceil_div n d = 1 + ceil_div (Z.max 0 (n - d)) d.
Proof.
  intros Hd Hn. unfold ceil_div.
  replace (n + d - 1) with (n - 1 + 1 * d) by lia.
  rewrite Z.div_add by lia.
  destruct (Z.le_gt_cases n d) as [Hle|Hgt].
  - rewrite Z.max_l by lia. rewrite (Z.div_small (n - 1)) by lia.
    rewrite (Z.div_small (0 + d - 1)) by lia. reflexivity.
  - rewrite Z.max_r by lia. replace (n - d + d - 1) with (n - 1) by lia. lia.
Qed.

(* A read of a fixed positive size on a ready connection, with a progress
   that keeps an invariant of the counter and the unread bytes: the bytes
   go out as ceil(n / size) frames whose concatenation is the bytes, each
   of the fixed size but the last, and the loop returns. *)
Lemma send_chunks_fixed_size k read progress (Inv : Z -> list byte -> Prop)
    fuel sent rest :
  (0 < k)%nat ->
  (forall r, read r = Return (take k r, drop k r)) ->
  (forall sent rest, Inv sent rest -> rest <> [] ->
     exists sent',
       progress sent (take k rest) = Return sent' /\ Inv sent' (drop k rest)) ->
  Inv sent rest ->
  (length rest < fuel)%nat ->
  exists chunks,
    concat chunks = rest /\
    Z.of_nat (length chunks) = ceil_div (Z.of_nat (length rest)) (Z.of_nat k) /\
    forall self, ready self ->
      send_chunks fuel read progress sent rest self
        = (Return tt, with_sent self (map BinaryFrame chunks)).
Proof.
  intros Hk Hread Hstep. revert sent rest.
  induction fuel as [|fuel IH]; intros sent rest Hinv Hlen; [lia|].
  cbn [send_chunks]. rewrite Hread.
  destruct rest as [|b rest].
  - rewrite take_nil. exists []. cbn [map concat length].
    rewrite ceil_div_0 by lia. repeat split.
    intros self _. by rewrite with_sent_nil.
  - destruct (Hstep sent (b :: rest) Hinv ltac:(done)) as (sent' & Hp & Hinv').
    destruct k as [|k]; [lia|]. cbn [take] in *.
    destruct (IH sent' (drop (S k) (b :: rest)) Hinv')
      as (chunks & Hcat & Hcount & E).
    { rewrite length_drop. cbn [length] in *. lia. }
    exists ((b :: take k rest) :: chunks). split; [|split].
    + cbn [concat]. rewrite Hcat. cbn [drop app]. by rewrite take_drop.
    + rewrite (ceil_div_step (Z.of_nat (length (b :: rest)))) by (cbn; lia).
      replace (Z.max 0 (Z.of_nat (length (b :: rest)) - Z.of_nat (S k)))
        with (Z.of_nat (length (drop (S k) (b :: rest))))
        by (rewrite length_drop; cbn [length]; lia).
      rewrite <- Hcount. cbn [length]. lia.
    + intros self Hready.
      send_on_ready Hready. cbv beta. rewrite mbind_mlift, Hp.
      rewrite E by (by apply ready_with_sent). by rewrite with_sent_app.
Qed.

(* The same read on a ready connection, whatever the progress comes to:
   the frames in the log are cut from the front of the bytes, none is
   empty, and each has the fixed size but the last. *)
Lemma send_chunks_fixed_size_log k read progress fuel sent rest :
  (0 < k)%nat ->
  (forall r, read r = Return (take k r, drop k r)) ->
  (length rest < fuel)%nat ->
  exists chunks unread,
    rest = concat chunks ++ unread /\
    Forall (fun c => (0 < length c <= k)%nat) chunks /\
    (forall i c, (S i < length chunks)%nat -> chunks !! i = Some c -> length c = k) /\
    forall self, ready self ->
      snd (send_chunks fuel read progress sent rest self)
        = with_sent self (map BinaryFrame chunks).
Proof.
  intros Hk Hread. revert sent rest.
  induction fuel as [|fuel IH]; intros sent rest Hlen; [lia|].
  cbn [send_chunks]. rewrite Hread.
  destruct rest as [|b rest].
  - rewrite take_nil. exists [], []. repeat split; [constructor|cbn; lia|].
    intros self _. cbn [map snd mret]. by rewrite with_sent_nil.
  - destruct k as [|k]; [lia|]. cbn [take].
    assert (Hone : (0 < length (b :: take k rest) <= S k)%nat).
    { cbn [length]. rewrite length_take. lia. }
    destruct (progress sent (b :: take k rest)) as [sent'|exc|] eqn:Hp.
    2,3: (exists [b :: take k rest], (drop (S k) (b :: rest));
      split; [cbn [concat drop app]; by rewrite app_nil_r, take_drop|];
      split; [apply Forall_singleton; exact Hone|];
      split; [intros i c Hi; cbn in Hi; lia|];
      intros self Hready; send_on_ready Hready; cbv beta;
      by rewrite mbind_mlift).
    destruct (IH sent' (drop (S k) (b :: rest)))
      as (chunks & unread & Hcat & Hall & Hfull & E).
    { rewrite length_drop. cbn [length] in *. lia. }
    exists ((b :: take k rest) :: chunks), unread. split; [|split; [|split]].
    + cbn [concat]. rewrite <- app_assoc, <- Hcat. cbn [drop app].
      by rewrite take_drop.
    + by constructor.
    + intros [|i] c Hi Hc; cbn in Hc.
      * injection Hc as <-. cbn [length] in *. rewrite length_take.
        destruct chunks as [|c' chunks]; [cbn in Hi; lia|].
        apply Forall_cons in Hall as [Hc' _].
        assert (length (drop k rest) <> 0)%nat.
        { cbn [drop] in Hcat. rewrite Hcat. cbn [concat].
          rewrite !length_app. lia. }
        rewrite length_drop in *. lia.
      * apply (Hfull i c); [cbn [length] in Hi; lia|exact Hc].
    + intros self Hready. send_on_ready Hready. cbv beta.
      rewrite mbind_mlift.
      rewrite E by (by apply ready_with_sent). by rewrite with_sent_app.
Qed.

Lemma file_read_splits size : -1 <= size -> splits (file_read size).
Proof.
  intros Hs r. unfold file_read.
  destruct (Z.ltb_spec size (-1)); [lia|].
  destruct (Z.eqb_spec size (-1)).
  - exists r, []. by rewrite app_nil_r.
  - eexists _, _. split; [reflexivity|]. by rewrite take_drop.
Qed.

Lemma file_read_splits_or_raises size : splits_or_raises (file_read size).
Proof.
  intros r. destruct (Z.le_gt_cases (-1) size) as [Hs|Hs].
  - left. apply (file_read_splits size Hs).
  - right. unfold file_read. destruct (Z.ltb_spec size (-1)); [|lia]. by eexists.
Qed.

Lemma readframes_splits wf nframes : splits (readframes wf nframes).
Proof.
  intros r. unfold readframes. destruct (nframes =? 0).
  - by exists [], r.
  - destruct (_ <? 0).
    + exists r, []. by rewrite app_nil_r.
    + eexists _, _. split; [reflexivity|]. by rewrite take_drop.
Qed.

Lemma file_read_fixed size r :
  0 < size ->
  file_read size r = Return (take (Z.to_nat size) r, drop (Z.to_nat size) r).
Proof.
  intros Hs. unfold file_read.
  destruct (Z.ltb_spec size (-1)); [lia|].
  destruct (Z.eqb_spec size (-1)); [lia|]. reflexivity.
Qed.

Lemma readframes_fixed wf nframes r :
  0 < nframes ->
  let size := nframes * (getsampwidth wf * getnchannels wf) in
  readframes wf nframes r = Return (take (Z.to_nat size) r, drop (Z.to_nat size) r).
Proof.
  intros Hn size. unfold readframes.
  destruct (Z.eqb_spec nframes 0); [lia|]. fold size.
  assert (0 < size) by (unfold size, getsampwidth, getnchannels; lia).
  destruct (Z.ltb_spec size 0); [lia|]. reflexivity.
Qed.

Lemma connected_client_ready : ready connected_client.
Proof. eexists. repeat split; reflexivity. Qed.

Lemma wave_frame_size src :
  getsampwidth (wave_of src) * getnchannels (wave_of src) = src_frame_size src.
Proof. reflexivity. Qed.

Lemma getnframes_wave_of src :
  getnframes (wave_of src) = src_size src / src_frame_size src.
Proof.
  unfold getnframes, chunksize. rewrite wave_frame_size.
  unfold wave_of, src_size. cbn [data_chunk missing]. f_equal. cbn. lia.
Qed.

Lemma true_div_not_OutOfFuel a b : true_div a b <> OutOfFuel.
Proof.
  unfold true_div. destruct (b =? 0); [done|]. by destruct (_ <=? _).
Qed.

Lemma wav_progress_not_OutOfFuel n rate total s d :
  wav_progress n rate total s d <> OutOfFuel.
Proof.
  unfold wav_progress.
  pose proof (true_div_not_OutOfFuel n rate).
  pose proof (true_div_not_OutOfFuel (s + n) total).
  destruct (true_div n rate) as [[]| |]; cbn; try done.
  destruct (true_div (s + n) total) as [[]| |]; cbn; done.
Qed.

Lemma raw_progress_not_OutOfFuel size s d : raw_progress size s d <> OutOfFuel.
Proof.
  unfold raw_progress.
  pose proof (true_div_not_OutOfFuel (Z.of_nat (length d)) (16000 * 2)).
  pose proof (true_div_not_OutOfFuel (s + Z.of_nat (length d)) size).
  destruct (true_div (Z.of_nat (length d)) (16000 * 2)) as [[]| |]; cbn; try done.
  destruct (true_div (s + Z.of_nat (length d)) size) as [[]| |]; cbn; done.
Qed.

Lemma wav_progress_any frame_size n rate size sent rest :
  0 < frame_size -> 0 < n < 2 ^ 63 -> 0 < rate ->
  (0 < size -> frame_size <= size) ->
  wav_counter frame_size size sent rest ->
  rest <> [] ->
  exists sent',
    wav_progress n rate (size / frame_size) sent
      (take (Z.to_nat (n * frame_size)) rest) = Return sent' /\
    wav_counter frame_size size sent' (drop (Z.to_nat (n * frame_size)) rest).
Proof.
  intros Hfs Hn Hrate Hwhole [Hsent Hcount] Hne. specialize (Hcount Hne).
  assert (0 < Z.of_nat (length rest)) by (destruct rest; [done|cbn; lia]).
  assert (Htotal : 1 <= size / frame_size) by (apply Z.div_le_lower_bound; nia).
  assert (Hle : sent <= size / frame_size) by (apply Z.div_le_lower_bound; nia).
  assert (2 ^ 63 = 9223372036854775808) as H63 by reflexivity.
  exists (sent + n). split.
  - unfold wav_progress. rewrite true_div_small by nia. cbn [and_then].
    rewrite true_div_small by nia. reflexivity.
  - split; [lia|]. intros Hne'.
    assert (length (drop (Z.to_nat (n * frame_size)) rest) <> 0)%nat
      by (by destruct (drop _ rest)).
    rewrite length_drop in *. nia.
Qed.


Lemma raw_progress_any k size sent rest :
  size <= 60 * (16000 * 2) ->
  raw_counter size sent rest ->
  rest <> [] ->
  exists sent',
    raw_progress size sent (take k rest) = Return sent' /\
    raw_counter size sent' (drop k rest).
Proof.
  intros Hlimit [Hsent Hcount] Hne.
  assert (0 < Z.of_nat (length rest)) by (destruct rest; [done|cbn; lia]).
  assert (2 ^ 63 = 9223372036854775808) as H63 by reflexivity.
  pose proof (length_take rest k) as Htake.
  exists (sent + Z.of_nat (length (take k rest))). split.
  - unfold raw_progress. rewrite true_div_small by lia. cbn [and_then].
    rewrite true_div_small by nia. reflexivity.
  - split; [lia|]. rewrite length_drop. lia.
Qed.

Lemma within_limit_wav path src :
  endswith path ".wav" = true ->
  within_limit path src = true ->
  0 < Z.of_N (src_rate src) /\
  src_size src / src_frame_size src <= 60 * Z.of_N (src_rate src).
Proof.
  intros Hwav Hlim. unfold within_limit in Hlim. rewrite Hwav in Hlim.
  apply andb_prop in Hlim as [Hrate Hdur].
  apply Z.ltb_lt in Hrate. apply negb_true_iff in Hdur.
  unfold duration_over in Hdur.
  apply andb_false_iff in Hdur as [Hdur|Hdur];
    [apply Z.ltb_ge in Hdur|apply Z.ltb_ge in Hdur]; lia.
Qed.

Lemma within_limit_raw path src :
  endswith path ".wav" = false ->
  within_limit path src = true ->
  src_size src <= 60 * (16000 * 2).
Proof.
  intros Hwav Hlim. unfold within_limit in Hlim. rewrite Hwav in Hlim.
  by apply Z.leb_le in Hlim.
Qed.

Lemma send_audio_data_wav fs path chunk_size entry src :
  fs !! path = Some entry ->
  endswith path ".wav" = true ->
  holds_source path entry src ->
  within_limit path src = true ->
  send_audio_data fs path chunk_size =
    send_chunks (S (length (src_bytes src)))
      (readframes (wave_of src) (chunk_size / src_frame_size src))
      (wav_progress (chunk_size / src_frame_size src) (Z.of_N (src_rate src))
         (src_size src / src_frame_size src))
      0 (src_bytes src).
Proof.
  intros Hfs Hwav Hsrc Hlim.
  destruct (within_limit_wav path src Hwav Hlim) as [Hrate Hdur].
  unfold send_audio_data. rewrite Hfs, Hwav.
  unfold holds_source in Hsrc. rewrite Hwav in Hsrc.
  destruct entry as [|content wave_view]; [done|]. subst wave_view.
  cbn [wave_open]. rewrite getnframes_wave_of.
  change (getframerate (wave_of src)) with (Z.of_N (src_rate src)).
  destruct (Z.eqb_spec (Z.of_N (src_rate src)) 0); [lia|].
  unfold quotient_exceeds.
  destruct (Z.ltb_spec (60 * Z.of_N (src_rate src))
              (src_size src / src_frame_size src)); [lia|].
  reflexivity.
Qed.

Lemma send_audio_data_raw fs path chunk_size entry src :
  fs !! path = Some entry ->
  endswith path ".wav" = false ->
  holds_source path entry src ->
  within_limit path src = true ->
  send_audio_data fs path chunk_size =
    send_chunks (S (length (src_bytes src))) (file_read chunk_size)
      (raw_progress (src_size src)) 0 (src_bytes src).
Proof.
  intros Hfs Hwav Hsrc Hlim.
  pose proof (within_limit_raw path src Hwav Hlim) as Hsize.
  unfold send_audio_data. rewrite Hfs, Hwav.
  unfold holds_source in Hsrc. rewrite Hwav in Hsrc.
  destruct entry as [|content wave_view]; [done|]. subst content.
  cbn [getsize open_rb]. unfold quotient_exceeds. fold (src_size src).
  destruct (Z.ltb_spec (60 * (16000 * 2)) (src_size src)); [lia|]. reflexivity.
Qed.

(* The read of either loop hands out the next B bytes, B being the bytes
   per frame, when B is positive. *)
Lemma send_audio_data_read path src chunk_size r :
  0 < bytes_per_frame path src chunk_size ->
  (if endswith path ".wav"
   then readframes (wave_of src) (chunk_size / src_frame_size src) r
   else file_read chunk_size r)
  = Return (take (Z.to_nat (bytes_per_frame path src chunk_size)) r,
            drop (Z.to_nat (bytes_per_frame path src chunk_size)) r).
Proof.
  unfold bytes_per_frame. destruct (endswith path ".wav"); intros Hpos.
  - assert (0 < src_frame_size src) by (unfold src_frame_size; lia).
    rewrite readframes_fixed by nia. by rewrite wave_frame_size.
  - by apply file_read_fixed.
Qed.

(* A file that passes the duration test is streamed whole on a ready
   connection, in ceil(N / B) frames, and the call returns.  A WAV file
   with something to send holds a whole sample frame, and the chunk size
   is below 2^63. *)
Lemma send_audio_data_streams fs path chunk_size entry src :
  fs !! path = Some entry ->
  holds_source path entry src ->
  within_limit path src = true ->
  has_whole_frame path src ->
  0 < bytes_per_frame path src chunk_size ->
  chunk_size < 2 ^ 63 ->
  exists chunks,
    concat chunks = src_bytes src /\
    Z.of_nat (length chunks)
      = ceil_div (src_size src) (bytes_per_frame path src chunk_size) /\
    forall self, ready self ->
      send_audio_data fs path chunk_size self
        = (Return tt, with_sent self (map BinaryFrame chunks)).
Proof.
  intros Hfs Hsrc Hlim Hwhole Hpos Hmax.
  pose proof (send_audio_data_read path src chunk_size) as Hread.
  unfold bytes_per_frame, has_whole_frame in *.
  destruct (endswith path ".wav") eqn:Hwav.
  - rewrite (send_audio_data_wav fs path chunk_size entry src) by assumption.
    destruct (within_limit_wav path src Hwav Hlim) as [Hrate _].
    set (n := chunk_size / src_frame_size src) in *.
    assert (Hfs' : 0 < src_frame_size src) by (unfold src_frame_size; lia).
    assert (Hn : 0 < n) by nia.
    assert (Hn' : n < 2 ^ 63).
    { unfold n. apply Z.div_lt_upper_bound; [lia|].
      assert (2 ^ 63 = 9223372036854775808) as -> by reflexivity.
      assert (2 ^ 63 = 9223372036854775808) as H63 by reflexivity. nia. }
    destruct (send_chunks_fixed_size (Z.to_nat (n * src_frame_size src))
                (readframes (wave_of src) n)
                (wav_progress n (Z.of_N (src_rate src))
                   (src_size src / src_frame_size src))
                (wav_counter (src_frame_size src) (src_size src))
                (S (length (src_bytes src))) 0 (src_bytes src))
      as (chunks & Hcat & Hcount & E); [lia| | | |lia|].
    + intros r. by apply Hread.
    + intros sent rest Hinv Hne.
      apply wav_progress_any; try assumption; try lia.
      intros Hsize. apply Hwhole; [reflexivity|].
      unfold src_size in Hsize. by destruct (src_bytes src).
    + split; [lia|]. intros _. unfold src_size. lia.
    + exists chunks. rewrite Z2Nat.id in Hcount by lia. done.
  - rewrite (send_audio_data_raw fs path chunk_size entry src) by assumption.
    pose proof (within_limit_raw path src Hwav Hlim) as Hsize.
    destruct (send_chunks_fixed_size (Z.to_nat chunk_size)
                (file_read chunk_size) (raw_progress (src_size src))
                (raw_counter (src_size src))
                (S (length (src_bytes src))) 0 (src_bytes src))
      as (chunks & Hcat & Hcount & E); [lia| | | |lia|].
    + intros r. by apply Hread.
    + intros sent rest Hinv Hne. by apply raw_progress_any.
    + split; [lia|]. unfold src_size. lia.
    + exists chunks. rewrite Z2Nat.id in Hcount by lia. done.
Qed.



(* The step bound of the model is never met: send_audio_data returns or
   raises on every input. *)
Lemma send_audio_data_total fs path chunk_size self :
  fst (send_audio_data fs path chunk_size self) <> OutOfFuel.
Proof.
  unfold send_audio_data.
  destruct (fs !! path) as [entry|]; [|discriminate].
  destruct (endswith path ".wav").
  - destruct entry as [|content [wf|]]; cbn [wave_open]; try discriminate.
    destruct (_ =? 0); [discriminate|].
    destruct (quotient_exceeds _ _ _); [discriminate|].
    apply send_chunks_total; [| |lia].
    + intros r. left. apply readframes_splits.
    + apply wav_progress_not_OutOfFuel.
  - destruct (quotient_exceeds _ _ _); [discriminate|].
    destruct entry as [|content wave_view]; cbn [open_rb]; [discriminate|].
    apply send_chunks_total;
      [apply file_read_splits_or_raises|apply raw_progress_not_OutOfFuel|lia].
Qed.




(** C2 (as the code has it): a WAV file whose duration, computed from its
    byte length and its own sample rate, sample width and channel count,
    is over 60 seconds, and any other file of more than 60 * 16000 * 2
    bytes (60 seconds when read as 16 kHz, 16-bit mono, whatever its real
    format), makes send_audio_data raise ValueError before it sends
    anything: the client and its outbound log are unchanged. *)
Theorem over_long_audio_rejected_before_sending
    (fs : gmap string fs_entry) (path : string) (chunk_size : Z)
    (self : GummyWebSocketClient) (entry : fs_entry) (src : audio_source) :
  fs !! path = Some entry ->
  holds_source path entry src ->
  over_limit path src = true ->
  send_audio_data fs path chunk_size self
    = (Raise (ValueError "duration over 60 seconds"), self).
Proof.
  intros Hfs Hsrc Hover. unfold send_audio_data. rewrite Hfs.
  unfold holds_source in Hsrc. unfold over_limit in Hover.
  destruct entry as [|content wave_view]; [done|].
  destruct (endswith path ".wav").
  - subst wave_view. cbn [wave_open].
    unfold duration_over in Hover. apply andb_prop in Hover as [Hrate Hdur].
    apply Z.ltb_lt in Hrate.
    change (getframerate (wave_of src)) with (Z.of_N (src_rate src)).
    destruct (Z.eqb_spec (Z.of_N (src_rate src)) 0); [lia|].
    unfold quotient_exceeds.
    rewrite getnframes_wave_of, Hdur. reflexivity.
  - subst content. cbn [getsize]. unfold quotient_exceeds.
    fold (src_size src). rewrite Hover. reflexivity.
Qed.

Lemma over_long_wav_rejected :
  ({["slow.wav" := wav_file long_100hz]} : gmap string fs_entry) !! "slow.wav"
    = Some (wav_file long_100hz) /\
  holds_source "slow.wav" (wav_file long_100hz) long_100hz /\
  over_limit "slow.wav" long_100hz = true /\
  send_audio_data {["slow.wav" := wav_file long_100hz]} "slow.wav" 3200
    connected_client
    = (Raise (ValueError "duration over 60 seconds"), connected_client).
Proof.
  assert (H1 : ({["slow.wav" := wav_file long_100hz]} : gmap string fs_entry)
                 !! "slow.wav" = Some (wav_file long_100hz)) by reflexivity.
  assert (H2 : holds_source "slow.wav" (wav_file long_100hz) long_100hz)
    by reflexivity.
  assert (H3 : over_limit "slow.wav" long_100hz = true)
    by (vm_compute; reflexivity).
  repeat (split; [assumption|]).
  exact (over_long_audio_rejected_before_sending _ "slow.wav" 3200
           connected_client (wav_file long_100hz) long_100hz H1 H2 H3).
Defined.

(** C2 as stated fails: a raw PCM file holding 62.5 seconds of 16-bit
    mono audio at 8 kHz (1 000 000 bytes) is over 60 seconds by its own
    sample rate, yet send_audio_data raises nothing and sends it in 313
    binary frames. *)
Lemma raw_8khz_audio_over_60s_is_sent :
  holds_source "speech.pcm" (raw_file long_8khz) long_8khz /\
  duration_over 60 long_8khz = true /\
  src_size long_8khz = 1000000 /\
  fst (send_audio_data {["speech.pcm" := raw_file long_8khz]} "speech.pcm" 3200
         connected_client) = Return tt /\
  length
    (audio_frames
       (outbound (snd (send_audio_data {["speech.pcm" := raw_file long_8khz]}
                         "speech.pcm" 3200 connected_client))))
    = 313%nat.
Proof.
  split; [reflexivity|]. split; [vm_compute; reflexivity|].
  split; [vm_compute; reflexivity|]. split; vm_compute; reflexivity.
Qed.

(** C10: for a path that names nothing (os.path.exists is false),
    send_audio_data raises FileNotFoundError at once; nothing is read and
    nothing is sent, the client and its outbound log are unchanged. *)
Theorem missing_file_raises_before_any_io
    (fs : gmap string fs_entry) (path : string) (chunk_size : Z)
    (self : GummyWebSocketClient) :
  fs !! path = None ->
  send_audio_data fs path chunk_size self = (Raise FileNotFoundError, self) /\
  outbound (snd (send_audio_data fs path chunk_size self)) = outbound self.
Proof.
  intros Hfs. unfold send_audio_data. rewrite Hfs. split; reflexivity.
Qed.

Lemma missing_file_sample :
  ({["a.pcm" := raw_file short_raw]} : gmap string fs_entry) !! "b.pcm" = None /\
  send_audio_data {["a.pcm" := raw_file short_raw]} "b.pcm" 3200 connected_client
    = (Raise FileNotFoundError, connected_client) /\
  outbound (snd (send_audio_data {["a.pcm" := raw_file short_raw]} "b.pcm" 3200
                   connected_client))
    = outbound connected_client.
Proof.
  assert (H1 : ({["a.pcm" := raw_file short_raw]} : gmap string fs_entry)
                 !! "b.pcm" = None) by reflexivity.
  split; [exact H1|].
  exact (missing_file_raises_before_any_io _ "b.pcm" 3200 connected_client H1).
Defined.

Lemma run_task_message_shape tid tl sl sr fmt mes itn :
  run_task_shape (run_task_message tid tl sl sr fmt mes itn) tid tl sl sr fmt mes itn.
Proof.
  unfold run_task_shape.
  repeat split; try reflexivity;
    (do 2 eexists; split; [reflexivity|split; reflexivity]).
Qed.

Lemma finish_task_message_shape tid :
  finish_task_shape (finish_task_message tid) tid.
Proof.
  unfold finish_task_shape.
  repeat split; try reflexivity;
    (do 2 eexists; split; [reflexivity|split; reflexivity]).
Qed.

(** C8: on an open connection send_run_task sends one text frame whose
    message has header {task_id, action: "run-task", streaming: "duplex"}
    and payload {task_group: "audio", task: "asr", function:
    "recognition", model, input: {format, sample_rate, audio_type:
    "sentence", translation: {target_lang, source_lang}}, parameters:
    {max_end_silence, enable_inverse_text_normalization}} filled from the
    configuration, and send_finish_task sends one text frame whose message
    has header {task_id, action: "finish-task", streaming: "duplex"} and
    payload {input: {}}. *)
Theorem control_messages_have_documented_shape
    (self : GummyWebSocketClient) (target_lang source_lang : string)
    (sample_rate : Z) (format : string) (max_end_silence : Z) (itn : bool) :
  ready self ->
  (exists start,
     fst (send_run_task target_lang source_lang sample_rate format
            max_end_silence itn self) = Return tt /\
     outbound (snd (send_run_task target_lang source_lang sample_rate format
                      max_end_silence itn self))
       = outbound self ++ [TextFrame start] /\
     run_task_shape start (task_id self) target_lang source_lang sample_rate
       format max_end_silence itn) /\
  (exists finish,
     fst (send_finish_task self) = Return tt /\
     outbound (snd (send_finish_task self)) = outbound self ++ [TextFrame finish] /\
     finish_task_shape finish (task_id self)).
Proof.
  intros Hready. split.
  - eexists. unfold send_run_task. rewrite websocket_send_ready by assumption.
    cbn [fst snd]. rewrite outbound_with_sent by assumption.
    split; [reflexivity|]. split; [reflexivity|]. apply run_task_message_shape.
  - eexists. unfold send_finish_task. rewrite websocket_send_ready by assumption.
    cbn [fst snd]. rewrite outbound_with_sent by assumption.
    split; [reflexivity|]. split; [reflexivity|]. apply finish_task_message_shape.
Qed.

Lemma control_messages_sample :
  ready connected_client /\
  (exists start,
     fst (send_run_task "en" "auto" 16000 "pcm" 10000 true connected_client)
       = Return tt /\
     outbound (snd (send_run_task "en" "auto" 16000 "pcm" 10000 true
                      connected_client))
       = outbound connected_client ++ [TextFrame start] /\
     run_task_shape start (task_id connected_client) "en" "auto" 16000 "pcm"
       10000 true) /\
  (exists finish,
     fst (send_finish_task connected_client) = Return tt /\
     outbound (snd (send_finish_task connected_client))
       = outbound connected_client ++ [TextFrame finish] /\
     finish_task_shape finish (task_id connected_client)).
Proof.
  assert (H : ready connected_client) by (eexists; repeat split; reflexivity).
  split; [exact H|].
  exact (control_messages_have_documented_shape connected_client
           "en" "auto" 16000 "pcm" 10000 true H).
Defined.

Lemma keeps_mbind {A B} (m : M A) (k : A -> M B) :
  keeps_task_id m -> (forall a, keeps_task_id (k a)) -> keeps_task_id (mbind m k).
Proof.
  intros Hm Hk tid self Hinv. unfold mbind.
  specialize (Hm tid self Hinv).
  destruct (m self) as [[a|exc|] self']; cbn [snd] in *; try assumption.
  by apply Hk.
Qed.

Lemma keeps_websocket_send f :
  (forall tid, carries_task_id tid f) -> keeps_task_id (websocket_send f).
Proof.
  intros Hf tid self [Htid Hlog].
  destruct (websocket_send_cases f self) as [(exc & ->)|(_ & Ht & Ho)].
  - cbn [snd]. by split.
  - split; [congruence|]. rewrite Ho. apply Forall_app. split; [assumption|].
    by constructor.
Qed.

Lemma keeps_send_run_task tl sl sr fmt mes itn :
  keeps_task_id (send_run_task tl sl sr fmt mes itn).
Proof.
  intros tid self [Htid Hlog]. unfold send_run_task.
  destruct (websocket_send_cases
              (TextFrame (run_task_message (task_id self) tl sl sr fmt mes itn)) self)
    as [(exc & ->)|(_ & Ht & Ho)].
  - cbn [snd]. by split.
  - split; [congruence|]. rewrite Ho. apply Forall_app. split; [assumption|].
    constructor; [|constructor]. cbn. by rewrite Htid.
Qed.

Lemma keeps_send_finish_task : keeps_task_id send_finish_task.
Proof.
  intros tid self [Htid Hlog]. unfold send_finish_task.
  destruct (websocket_send_cases
              (TextFrame (finish_task_message (task_id self))) self)
    as [(exc & ->)|(_ & Ht & Ho)].
  - cbn [snd]. by split.
  - split; [congruence|]. rewrite Ho. apply Forall_app. split; [assumption|].
    constructor; [|constructor]. cbn. by rewrite Htid.
Qed.

(* A method that adds only binary frames keeps the invariant. *)
Lemma keeps_appends_audio_only {A} (m : M A) :
  appends_audio_only m -> keeps_task_id m.
Proof.
  intros Hm tid self [Htid Hlog].
  destruct (Hm self) as (chunks & Ho & Ht).
  split; [congruence|]. rewrite Ho. apply Forall_app. split; [assumption|].
  apply Forall_forall. intros f [c [-> _]]%list_elem_of_fmap. exact I.
Qed.

Lemma keeps_send_chunks fuel read progress sent rest :
  keeps_task_id (send_chunks fuel read progress sent rest).
Proof.
  apply keeps_appends_audio_only. intros self. apply send_chunks_appends_audio.
Qed.

Lemma appends_audio_only_unchanged {A} (r : outcome A) :
  appends_audio_only (fun self => (r, self)).
Proof. intros self. exists []. cbn. by rewrite app_nil_r. Qed.

Lemma appends_audio_only_mbind {A B} (m : M A) (k : A -> M B) :
  appends_audio_only m -> (forall a, appends_audio_only (k a)) ->
  appends_audio_only (mbind m k).
Proof.
  intros Hm Hk self. unfold mbind.
  destruct (Hm self) as (chunks & Ho & Ht).
  destruct (m self) as [[a|exc|] self']; cbn [snd] in *;
    try (by exists chunks).
  destruct (Hk a self') as (chunks' & Ho' & Ht').
  exists (chunks ++ chunks'). rewrite Ho', Ht', Ho, Ht.
  by rewrite map_app, app_assoc.
Qed.

Lemma appends_audio_only_websocket_send data :
  appends_audio_only (websocket_send (BinaryFrame data)).
Proof.
  intros self.
  destruct (websocket_send_cases (BinaryFrame data) self)
    as [(exc & ->)|(_ & Ht & Ho)].
  - exists []. cbn. by rewrite app_nil_r.
  - by exists [data].
Qed.

Lemma appends_audio_only_record_and_send read frames_to_record i turns :
  appends_audio_only (record_and_send read frames_to_record i turns).
Proof.
  revert i. induction turns as [|turns IH]; intros i; cbn [record_and_send].
  - apply (appends_audio_only_unchanged (Return tt)).
  - destruct (read i) as [data|exc]; [|apply appends_audio_only_unchanged].
    apply appends_audio_only_mbind; [apply appends_audio_only_websocket_send|].
    intros _. apply appends_audio_only_mbind; [apply appends_audio_only_unchanged|].
    intros _. apply IH.
Qed.

Lemma appends_audio_only_raise_if e : appends_audio_only (raise_if e).
Proof. destruct e; apply appends_audio_only_unchanged. Qed.

Lemma appends_audio_only_record_microphone pyaudio duration :
  appends_audio_only (record_microphone pyaudio duration).
Proof.
  unfold record_microphone.
  apply appends_audio_only_mbind; [apply appends_audio_only_raise_if|].
  intros _. apply appends_audio_only_mbind; [apply appends_audio_only_unchanged|].
  intros n. apply appends_audio_only_mbind;
    [apply appends_audio_only_record_and_send|].
  intros _. apply appends_audio_only_raise_if.
Qed.

Lemma keeps_unchanged {A} (r : outcome A) : keeps_task_id (fun self => (r, self)).
Proof. intros tid self Hinv. exact Hinv. Qed.

Lemma keeps_send_audio_data fs path chunk_size :
  keeps_task_id (send_audio_data fs path chunk_size).
Proof.
  unfold send_audio_data, mraise.
  destruct (fs !! path) as [entry|]; [|apply keeps_unchanged].
  destruct (endswith path ".wav").
  - destruct (wave_open entry); try apply keeps_unchanged.
    destruct (_ =? 0); [apply keeps_unchanged|].
    destruct (quotient_exceeds _ _ _); [apply keeps_unchanged|].
    apply keeps_send_chunks.
  - destruct (quotient_exceeds _ _ _); [apply keeps_unchanged|].
    destruct (open_rb entry); try apply keeps_unchanged.
    apply keeps_send_chunks.
Qed.

Lemma keeps_connect srv : keeps_task_id (connect srv).
Proof.
  intros tid self [Htid Hlog]. unfold connect.
  destruct (handshake_ok srv); [|by split].
  split; [assumption|]. constructor.
Qed.

Lemma keeps_close : keeps_task_id close.
Proof.
  intros tid self [Htid Hlog]. unfold task_id_invariant, close, outbound in *.
  destruct (websocket self) as [ws|] eqn:E; cbn; [|rewrite E]; by split.
Qed.

Create HintDb keeps discriminated.
#[local] Hint Resolve keeps_connect keeps_send_run_task keeps_send_audio_data
  keeps_send_finish_task keeps_close keeps_send_chunks : keeps.

Lemma keeps_perform c : keeps_task_id (perform c).
Proof.
  destruct c; cbn [perform]; auto with keeps.
  apply keeps_websocket_send. intros tid. exact I.
Qed.

Lemma task_id_invariant_init api_key uuid :
  task_id_invariant uuid (__init__ api_key uuid).
Proof. split; [reflexivity|constructor]. Qed.

(** C9: the task id is set once, by the constructor, and no use of the
    client changes it: after any sequence of calls on the client its
    task_id is the one generated at construction, and every control
    message in the log of its connection (run-task and finish-task alike)
    carries that value in its header. *)
Theorem task_id_fixed_at_construction
    (api_key uuid : string) (calls : list call) :
  task_id (after_calls calls (__init__ api_key uuid)) = uuid /\
  Forall (carries_task_id uuid)
    (outbound (after_calls calls (__init__ api_key uuid))).
Proof.
  change (task_id_invariant uuid (after_calls calls (__init__ api_key uuid))).
  generalize (task_id_invariant_init api_key uuid).
  generalize (__init__ api_key uuid) as self.
  induction calls as [|c calls IH]; intros self Hinv; [exact Hinv|].
  apply IH. by apply keeps_perform.
Qed.

(* The same for a run of either driver. *)
Lemma task_id_fixed_in_drivers env api_key audio_file target_lang pyaudio duration :
  task_id_invariant (uuid4 env)
    (final_client (test_with_audio_file env api_key audio_file target_lang)) /\
  task_id_invariant (uuid4 env)
    (final_client (test_with_microphone env pyaudio api_key target_lang duration)).
Proof.
  assert (Hawait : keeps_task_id (await_receive_task env)).
  { intros tid self Hinv. exact Hinv. }
  assert (Hrec : keeps_task_id (record_microphone pyaudio duration)).
  { apply keeps_appends_audio_only, appends_audio_only_record_microphone. }
  assert (Htry : forall body client tid,
             keeps_task_id body -> task_id_invariant tid client ->
             task_id_invariant tid (final_client (try_finally_close body client))).
  { intros body client tid Hbody Hinv. unfold try_finally_close.
    specialize (Hbody tid client Hinv).
    destruct (body client) as [r client']. cbn [final_client snd] in *.
    by apply keeps_close. }
  split; apply Htry; try apply task_id_invariant_init;
    do 4 (apply keeps_mbind; [solve [auto with keeps]|intros _]); exact Hawait.
Qed.

Section sequencing.

Lemma connect_ready srv self :
  handshake_ok srv = true ->
  frames_accepted srv = None ->
  exists self',
    connect srv self = (Return tt, self') /\ ready self' /\
    outbound self' = [] /\ task_id self' = task_id self.
Proof.
  intros Hh Hf. unfold connect. rewrite Hh, Hf. eexists.
  split; [reflexivity|]. split; [|split; reflexivity].
  eexists. repeat split; reflexivity.
Qed.

Lemma close_outbound self : outbound (snd (close self)) = outbound self.
Proof.
  unfold close, outbound.
  destruct (websocket self) as [ws|] eqn:E; cbn; [|rewrite E]; reflexivity.
Qed.

(* An int below 2^53 in magnitude is its own float, and 5.0 times it is
   exact as long as the product is no more than 2^53. *)
Lemma int_of_float_times_exact duration :
  exact_duration duration ->
  int_of_float_times 5 duration = Return (5 * duration).
Proof.
  unfold exact_duration. intros Hd.
  assert (2 ^ 53 = 9007199254740992) as H53 by reflexivity.
  pose proof float_limit_large as Hl.
  assert (2 ^ 64 = 18446744073709551616) as H64 by reflexivity.
  assert (Hround : forall n, Z.abs n < 2 ^ 53 -> round_binary64 n = n).
  { intros n Hn. unfold round_binary64. cbv zeta.
    destruct (Z.ltb_spec (Z.abs n) (2 ^ 53)); [reflexivity|lia]. }
  unfold int_of_float_times, float_of_int.
  destruct (Z.leb_spec float_limit (Z.abs duration)); [lia|].
  cbn [and_then]. rewrite (Hround duration) by lia.
  destruct (Z.leb_spec float_limit (Z.abs (5 * duration))); [lia|].
  rewrite Hround by lia. reflexivity.
Qed.

Lemma record_and_send_ready microphone frames_to_record i turns self :
  ready self ->
  turns = 0%nat \/ Z.of_nat (i + turns) <= frames_to_record ->
  record_and_send (fun j => inl (microphone j)) frames_to_record i turns self
    = (Return tt,
       with_sent self (map BinaryFrame (map microphone (seq i turns)))).
Proof.
  revert i self. induction turns as [|turns IH]; intros i self Hready Hle.
  - cbn. by rewrite with_sent_nil.
  - cbn [record_and_send seq map].
    send_on_ready Hready. cbv beta. rewrite mbind_mlift.
    assert (2 ^ 63 = 9223372036854775808) as H63 by reflexivity.
    rewrite true_div_small by nia.
    rewrite IH by (try (by apply ready_with_sent); lia).
    by rewrite with_sent_app.
Qed.

(* A pyaudio that works and an exact duration: the 5 * duration buffers
   go out, in order. *)
Lemma record_microphone_ready microphone duration self :
  ready self ->
  exact_duration duration ->
  record_microphone (working microphone) duration self
    = (Return tt,
       with_sent self
         (map BinaryFrame (map microphone (seq 0 (Z.to_nat (5 * duration)))))).
Proof.
  intros Hready Hd. unfold record_microphone, working.
  cbn [open_error stream_read close_error raise_if].
  unfold mbind at 1. unfold mret at 1. rewrite mbind_mlift.
  rewrite (int_of_float_times_exact duration Hd).
  unfold mbind. rewrite record_and_send_ready by (try assumption; lia).
  reflexivity.
Qed.

(* The steps of a driver after connect, on a ready client: the log grows
   by the start message, the audio frames and the finish message. *)
Lemma bracketed_stream_log (stream : M unit) (tail : M unit) chunks tl mes self :
  ready self ->
  (forall s, ready s -> stream s = (Return tt, with_sent s (map BinaryFrame chunks))) ->
  (forall s, snd (tail s) = s) ->
  outbound (snd (mbind (send_run_task tl "auto" 16000 "pcm" mes true)
                   (fun _ => mbind stream
                      (fun _ => mbind send_finish_task (fun _ => tail))) self))
    = outbound self ++ session_log (task_id self) tl mes chunks.
Proof.
  intros Hready Hstream Htail.
  assert (Hrun : send_run_task tl "auto" 16000 "pcm" mes true self
                 = (Return tt,
                    with_sent self
                      [TextFrame (run_task_message (task_id self) tl "auto" 16000
                                    "pcm" mes true)]))
    by (unfold send_run_task; by rewrite websocket_send_ready).
  rewrite (mbind_Return _ _ _ _ _ Hrun).
  set (s1 := with_sent self _).
  assert (Hr1 : ready s1) by (by apply ready_with_sent).
  rewrite (mbind_Return _ _ _ _ _ (Hstream s1 Hr1)).
  set (s2 := with_sent s1 _).
  assert (Hr2 : ready s2) by (by apply ready_with_sent).
  assert (Hfin : send_finish_task s2
                 = (Return tt,
                    with_sent s2 [TextFrame (finish_task_message (task_id self))])).
  { unfold send_finish_task. rewrite websocket_send_ready by assumption.
    unfold s2, s1. by rewrite !task_id_with_sent. }
  rewrite (mbind_Return _ _ _ _ _ Hfin), Htail.
  unfold s2, s1. rewrite !with_sent_app, outbound_with_sent by assumption.
  reflexivity.
Qed.

Lemma try_finally_close_outbound body client :
  outbound (final_client (try_finally_close body client))
    = outbound (snd (body client)).
Proof.
  unfold try_finally_close. destruct (body client) as [r client'].
  cbn [final_client snd]. apply close_outbound.
Qed.

Lemma filter_action_audio action chunks :
  List.filter (action_is action) (map BinaryFrame chunks) = [].
Proof. induction chunks as [|c chunks IH]; [reflexivity|exact IH]. Qed.

Lemma session_log_lookup tid tl mes chunks i f :
  session_log tid tl mes chunks !! i = Some f ->
  (i = 0%nat /\ is_run_task f = true /\ is_finish_task f = false /\ is_audio f = false) \/
  ((0 < i <= length chunks)%nat /\
   is_run_task f = false /\ is_finish_task f = false /\ is_audio f = true) \/
  (i = S (length chunks) /\
   is_run_task f = false /\ is_finish_task f = true /\ is_audio f = false).
Proof.
  unfold session_log. destruct i as [|i]; cbn [lookup list_lookup].
  - intros [= <-]. left. by repeat split.
  - change (?l !! i = Some f -> ?P) with (l !! i = Some f -> P).
    intros Hi. right.
    apply lookup_app_Some in Hi as [Hi|[Hlen Hi]].
    + left. apply list_lookup_fmap_Some in Hi as (c & -> & Hc).
      apply lookup_lt_Some in Hc. split; [lia|]. by repeat split.
    + right. rewrite length_map in *.
      destruct (i - length chunks)%nat as [|k] eqn:Hk; [|by destruct k].
      cbn in Hi. injection Hi as <-. split; [lia|]. by repeat split.
Qed.

Lemma session_log_well_sequenced tid tl mes chunks :
  well_sequenced (session_log tid tl mes chunks).
Proof.
  unfold well_sequenced. repeat split.
  - unfold session_log, is_run_task. cbn [List.filter].
    change (action_is "run-task" (TextFrame (run_task_message _ _ _ _ _ _ _)))
      with true. cbn match.
    by rewrite List.filter_app, filter_action_audio.
  - unfold session_log, is_finish_task. cbn [List.filter].
    change (action_is "finish-task" (TextFrame (run_task_message _ _ _ _ _ _ _)))
      with false. cbn match.
    by rewrite List.filter_app, filter_action_audio.
  - intros i j f g Hi Hf Hj Hg.
    apply session_log_lookup in Hi as [?|[?|?]], Hj as [?|[?|?]];
      intuition (try congruence; try lia).
  - intros i j f g Hi Hf Hj Hg.
    apply session_log_lookup in Hi as [?|[?|?]], Hj as [?|[?|?]];
      intuition (try congruence; try lia).
Qed.

(* The sessions of a server that accepts the connection and keeps it
   open. *)
Variable env : environment.
Variables api_key target_lang : string.
Hypothesis handshake : handshake_ok (remote env) = true.
Hypothesis stays_open : frames_accepted (remote env) = None.


(* The same for a recording session with a pyaudio that works, whatever
   the microphone delivers. *)
Lemma test_with_microphone_log microphone duration :
  exact_duration duration ->
  outbound (final_client
              (test_with_microphone env (working microphone) api_key target_lang
                 duration))
    = session_log (uuid4 env) target_lang 5000
        (map microphone (seq 0 (Z.to_nat (5 * duration)))).
Proof.
  intros Hd.
  destruct (connect_ready (remote env) (__init__ api_key (uuid4 env))
              handshake stays_open) as (c1 & Hc & Hr1 & Ho1 & Ht1).
  unfold test_with_microphone.
  rewrite try_finally_close_outbound.
  rewrite (mbind_Return _ _ _ _ _ Hc).
  rewrite (bracketed_stream_log _ _ (map microphone (seq 0 (Z.to_nat (5 * duration)))));
    try assumption.
  - rewrite Ho1, Ht1. reflexivity.
  - intros s Hs. by apply record_microphone_ready.
  - reflexivity.
Qed.

End sequencing.

Lemma send_audio_data_appends_audio fs path chunk_size self :
  exists chunks,
    outbound (snd (send_audio_data fs path chunk_size self))
      = outbound self ++ map BinaryFrame chunks /\
    task_id (snd (send_audio_data fs path chunk_size self)) = task_id self.
Proof.
  assert (Hsame : forall r : outcome unit,
             exists chunks,
               outbound (snd (r, self)) = outbound self ++ map BinaryFrame chunks /\
               task_id (snd (r, self)) = task_id self).
  { intros r. exists []. cbn. by rewrite app_nil_r. }
  unfold send_audio_data, mraise.
  destruct (fs !! path) as [entry|]; [|apply Hsame].
  destruct (endswith path ".wav").
  - destruct (wave_open entry); try apply Hsame.
    destruct (_ =? 0); [apply Hsame|].
    destruct (quotient_exceeds _ _ _); [apply Hsame|].
    apply send_chunks_appends_audio.
  - destruct (quotient_exceeds _ _ _); [apply Hsame|].
    destruct (open_rb entry); try apply Hsame.
    apply send_chunks_appends_audio.
Qed.

(* Whatever the environment (a refused handshake, a peer that closes at
   any point, a missing or over-long file), the log a run of
   test_with_audio_file leaves is an initial part of a well-sequenced
   session log: the run-task message comes first and at most once, binary
   frames follow it, and the finish-task message, if sent, is last. *)
Lemma test_with_audio_file_log_prefix env api_key audio_file target_lang :
  exists chunks,
    outbound (final_client (test_with_audio_file env api_key audio_file target_lang))
    `prefix_of` session_log (uuid4 env) target_lang 10000 chunks.
Proof.
  unfold test_with_audio_file. rewrite try_finally_close_outbound.
  set (c0 := __init__ api_key (uuid4 env)).
  unfold mbind at 1. unfold connect at 1.
  destruct (handshake_ok (remote env)).
  2:{ exists []. cbn. apply prefix_nil. }
  set (c1 := set_websocket c0 _).
  assert (Ho1 : outbound c1 = []) by reflexivity.
  assert (Ht1 : task_id c1 = uuid4 env) by reflexivity.
  clearbody c1. unfold mbind at 1. unfold send_run_task at 1.
  destruct (websocket_send_cases
              (TextFrame (run_task_message (task_id c1) target_lang "auto" 16000
                            "pcm" 10000 true)) c1)
    as [(exc & ->)|(E & Ht2 & Ho2)].
  { exists []. cbn [snd]. rewrite Ho1. apply prefix_nil. }
  rewrite E. set (c2 := snd (websocket_send _ c1)) in *. clearbody c2.
  destruct (send_audio_data_appends_audio (fs env) audio_file 3200 c2)
    as (chunks & Ho3 & Ht3).
  exists chunks. unfold mbind at 1.
  destruct (send_audio_data (fs env) audio_file 3200 c2) as [[[]|exc|] c3];
    cbn [snd] in *;
    try (rewrite Ho3, Ho2, Ho1, Ht1; unfold session_log; cbn [app];
         apply prefix_cons, prefix_app_r; reflexivity).
  unfold mbind at 1. unfold send_finish_task at 1.
  destruct (websocket_send_cases (TextFrame (finish_task_message (task_id c3))) c3)
    as [(exc & ->)|(E4 & Ht4 & Ho4)].
  { cbn [snd]. rewrite Ho3, Ho2, Ho1, Ht1. unfold session_log. cbn [app].
    apply prefix_cons, prefix_app_r. reflexivity. }
  rewrite E4. unfold await_receive_task. cbn [snd].
  rewrite Ho4, Ho3, Ho2, Ho1, Ht3, Ht2, Ht1. unfold session_log. cbn [app].
  reflexivity.
Qed.



(* Outside a valid configuration the session stops where the exception
   is raised, and finish-task is not sent.  A WAV file cut short inside
   its first sample passes the duration test with a frame count of 0; its
   one byte goes out, and the progress line divides by that count. *)
Lemma sub_frame_wav_stops_session :
  within_limit "cut.wav" sub_frame_wav = true /\
  ~ has_whole_frame "cut.wav" sub_frame_wav /\
  tried (test_with_audio_file sub_frame_env "sk-test" "cut.wav" "en")
    = Raise ZeroDivisionError /\
  outbound (final_client
              (test_with_audio_file sub_frame_env "sk-test" "cut.wav" "en"))
    = [TextFrame (run_task_message (uuid4 sub_frame_env) "en" "auto" 16000 "pcm"
                    10000 true);
       BinaryFrame (silence 1)].
Proof.
  split; [vm_compute; reflexivity|]. split.
  - intros H. specialize (H eq_refl). vm_compute in H. by apply H.
  - split; vm_compute; reflexivity.
Qed.

(* A duration beyond the range of a float stops a recording session
   before the first buffer is read. *)
Lemma overlong_recording_stops_session :
  tried (test_with_microphone clip_env (working (fun _ => silence 6400))
           "sk-test" "en" (2 ^ 1024))
    = Raise OverflowError /\
  outbound (final_client
              (test_with_microphone clip_env (working (fun _ => silence 6400))
                 "sk-test" "en" (2 ^ 1024)))
    = [TextFrame (run_task_message (uuid4 clip_env) "en" "auto" 16000 "pcm"
                    5000 true)].
Proof.
  split; vm_compute; reflexivity.
Qed.

(* ===================================================================== *)
(*  More on the receiving path                                            *)
(* ===================================================================== *)

Lemma receive_loop_after_break before message later later' e e' out :
  handle_message message = (Return Break, out) ->
  receive_loop (before ++ message :: later) e
    = receive_loop (before ++ message :: later') e'.
Proof.
  intros Hbreak. induction before as [|m before IH]; cbn [app].
  - by rewrite !(receive_loop_break message _ _ out Hbreak).
  - cbn [receive_loop].
    destruct (handle_message m) as [[[|]|exc|] o]; try reflexivity.
    rewrite !cbind_Return, IH. reflexivity.
Qed.

(** X1: once a terminal event (task-finished or task-failed) has been
    handled, receive_messages reads nothing more: what it prints and how
    it ends do not depend on the messages that follow the terminal event
    nor on the way the connection closes afterwards. *)
Theorem nothing_read_after_terminal_event
    (before : list inbound) (terminal : inbound) (later later' : list inbound)
    (e e' : stream_end) :
  is_terminal terminal = true ->
  receive_messages (before ++ terminal :: later) e
    = receive_messages (before ++ terminal :: later') e'.
Proof.
  intros Ht. destruct (handle_message_terminal terminal Ht) as (out & Hbreak & _).
  rewrite !receive_messages_unfold.
  by rewrite (receive_loop_after_break before terminal later later' e e' out Hbreak).
Qed.

Lemma nothing_read_after_task_failed :
  is_terminal (Decodes (task_failed_event "TOO_LONG_SPEECH" "too long")) = true /\
  receive_messages
    (scripted_progress ++
     Decodes (task_failed_event "TOO_LONG_SPEECH" "too long")
     :: [Decodes task_finished_event; Undecodable]) IteratorStops
  = receive_messages
      (scripted_progress ++
       Decodes (task_failed_event "TOO_LONG_SPEECH" "too long") :: [])
      IteratorRaises.
Proof.
  split; [reflexivity|].
  exact (nothing_read_after_terminal_event scripted_progress
           (Decodes (task_failed_event "TOO_LONG_SPEECH" "too long"))
           [Decodes task_finished_event; Undecodable] [] IteratorStops
           IteratorRaises eq_refl).
Defined.

Lemma has_kind_py_eq_str event kind :
  is_dict event = true ->
  is_dict (field event "header" (JDict [])) = true ->
  has_kind kind (Decodes event)
    = py_eq_str (field (field event "header" (JDict [])) "event" JNone) kind.
Proof.
  destruct event as [| | | | |items]; try discriminate. intros _.
  unfold has_kind, event_kind. cbn [json_at field].
  destruct (dict_item "header" items) as [header|]; cbn; [|reflexivity].
  destruct header as [| | | | |hitems]; try discriminate. intros _. cbn.
  destruct (dict_item "event" hitems) as [[| | |k| |]|]; reflexivity.
Qed.

Lemma receive_loop_skip_silent before message after e :
  handle_message message = (Return Continue, []) ->
  receive_loop (before ++ message :: after) e = receive_loop (before ++ after) e.
Proof.
  intros Hskip. induction before as [|m before IH]; cbn [app].
  - cbn [receive_loop]. rewrite Hskip, cbind_Return.
    by destruct (receive_loop after e).
  - cbn [receive_loop]. by rewrite IH.
Qed.

(** X2: an inbound object whose header names none of the four event
    kinds (or names none at all, as the empty object does) is dropped
    without a trace: nothing is printed for it, and receive_messages
    behaves exactly as if the message had not been sent. *)
Theorem unrecognised_event_ignored_silently
    (before : list inbound) (message : inbound) (after : list inbound)
    (e : stream_end) :
  is_unrecognised message = true ->
  handle_message message = (Return Continue, []) /\
  receive_messages (before ++ message :: after) e
    = receive_messages (before ++ after) e.
Proof.
  intros Hu.
  assert (Hskip : handle_message message = (Return Continue, [])).
  { destruct message as [|event|failure]; [discriminate| |discriminate].
    unfold is_unrecognised in Hu.
    apply andb_prop in Hu as [[Hd Hh]%andb_prop Hk].
    apply negb_true_iff in Hk.
    repeat (apply orb_false_elim in Hk as [Hk ?]).
    rewrite !(has_kind_py_eq_str event) in * by assumption.
    unfold handle_message.
    rewrite (py_get_is_dict event), lift_Return_bind by assumption.
    rewrite (py_get_is_dict (field event "header" (JDict []))), lift_Return_bind
      by assumption.
    by repeat match goal with H : py_eq_str _ _ = false |- _ => rewrite H; clear H end. }
  split; [exact Hskip|].
  rewrite !receive_messages_unfold.
  by rewrite (receive_loop_skip_silent before message after e Hskip).
Qed.

Lemma empty_object_ignored_silently :
  is_unrecognised (Decodes (JDict [])) = true /\
  handle_message (Decodes (JDict [])) = (Return Continue, []) /\
  receive_messages
    ([Decodes task_started_event] ++ Decodes (JDict [])
     :: [Decodes task_finished_event]) IteratorStops
  = receive_messages
      ([Decodes task_started_event] ++ [Decodes task_finished_event])
      IteratorStops.
Proof.
  split; [reflexivity|].
  exact (unrecognised_event_ignored_silently [Decodes task_started_event]
           (Decodes (JDict [])) [Decodes task_finished_event] IteratorStops
           eq_refl).
Defined.

(** X3: a decoded message that is not an object, or whose header is not
    an object, makes receive_messages raise AttributeError as soon as the
    loop reaches it: the lines of the messages before it have been
    printed, nothing is printed for it, and no later message is read. *)
Theorem non_object_event_raises_AttributeError
    (before : list inbound) (event : json) (later : list inbound)
    (e : stream_end) :
  Forall continues before ->
  is_dict event && is_dict (field event "header" (JDict [])) = false ->
  receive_messages (before ++ Decodes event :: later) e
    = (Raise AttributeError, Listening :: console_of before).
Proof.
  intros Hb Hbad.
  assert (Hraise : handle_message (Decodes event) = (Raise AttributeError, [])).
  { unfold handle_message.
    destruct (is_dict event) eqn:Hd.
    - cbn [andb] in Hbad.
      rewrite (py_get_is_dict event), lift_Return_bind by assumption.
      destruct (field event "header" (JDict [])); try discriminate; reflexivity.
    - destruct event; try discriminate; reflexivity. }
  rewrite receive_messages_unfold, receive_loop_prefix by assumption.
  cbn [receive_loop]. rewrite Hraise. cbn. by rewrite app_nil_r.
Qed.

Lemma null_header_raises_AttributeError :
  Forall continues scripted_progress /\
  is_dict (JDict [("header", JNone)])
    && is_dict (field (JDict [("header", JNone)]) "header" (JDict [])) = false /\
  receive_messages
    (scripted_progress ++ Decodes (JDict [("header", JNone)])
     :: [Decodes task_finished_event]) IteratorStops
  = (Raise AttributeError, Listening :: console_of scripted_progress).
Proof.
  assert (Hp : Forall continues scripted_progress) by (repeat constructor).
  split; [exact Hp|]. split; [reflexivity|].
  exact (non_object_event_raises_AttributeError scripted_progress
           (JDict [("header", JNone)]) [Decodes task_finished_event]
           IteratorStops Hp eq_refl).
Defined.

Lemma escapes_only_py_get obj key dflt : escapes_only (py_get obj key dflt).
Proof. by destruct obj. Qed.

Lemma escapes_only_py_iter v : escapes_only (py_iter v).
Proof. by destruct v. Qed.

Lemma escapes_only_cbind {A B} (m : Console A) (k : A -> Console B) :
  escapes_only (fst m) ->
  (forall a, escapes_only (fst (k a))) ->
  escapes_only (fst (cbind m k)).
Proof.
  intros Hm Hk. destruct m as [[a|exc|] out]; cbn in *; try done.
  specialize (Hk a). by destruct (k a).
Qed.

Lemma escapes_only_print {B} l (k : unit -> Console B) :
  escapes_only (fst (k tt)) -> escapes_only (fst (cbind (print l) k)).
Proof. intros Hk. apply escapes_only_cbind; [exact I|]. by intros []. Qed.

Ltac escapes :=
  repeat first
    [ exact I
    | apply escapes_only_print
    | apply escapes_only_cbind;
      [first [apply escapes_only_py_get | apply escapes_only_py_iter | idtac]
      |intros ?] ].

Lemma escapes_only_handle_translation t : escapes_only (fst (handle_translation t)).
Proof. unfold handle_translation. escapes. Qed.

Lemma escapes_only_for_each items :
  escapes_only (fst (for_each handle_translation items)).
Proof.
  induction items as [|t items IH]; cbn [for_each]; [exact I|].
  apply escapes_only_cbind; [apply escapes_only_handle_translation|by intros _].
Qed.

Lemma escapes_only_handle_result event : escapes_only (fst (_handle_result event)).
Proof.
  unfold _handle_result. escapes.
  - destruct (truthy _); escapes.
  - apply escapes_only_for_each.
Qed.

Lemma handle_message_outcomes message :
  escapes_only (fst (handle_message message)) \/
  exists failure,
    message = Unloadable failure /\
    fst (handle_message message) = Raise (loads_exception failure).
Proof.
  destruct message as [|event|failure];
    [left; exact I| |right; by exists failure].
  left. cbn [handle_message].
  repeat first
    [ exact I
    | apply escapes_only_handle_result
    | apply escapes_only_print
    | apply escapes_only_cbind;
      [first [apply escapes_only_py_get | apply escapes_only_handle_result | idtac]
      |intros ?]
    | match goal with |- context [if ?c then _ else _] => destruct c end ].
Qed.

Lemma receive_loop_outcomes script e :
  escapes_only (fst (receive_loop script e)) \/
  fst (receive_loop script e) = Raise ConnectionClosed \/
  exists failure,
    Unloadable failure ∈ script /\
    fst (receive_loop script e) = Raise (loads_exception failure).
Proof.
  induction script as [|m script IH]; cbn [receive_loop].
  - destruct e; [left; exact I|right; by left].
  - destruct (handle_message_outcomes m) as [Hm|(failure & -> & Hm)].
    + destruct (handle_message m) as [[[|]|exc|] out]; cbn in Hm |- *;
        try (by left); try done.
      destruct (receive_loop script e) as [r o]. cbn [fst] in *.
      destruct IH as [IH|[IH|(failure & Hin & IH)]];
        [by left|right; by left|].
      right. right. exists failure. split; [by apply list_elem_of_further|done].
    + right. right. exists failure. split; [apply list_elem_of_here|done].
Qed.

(* What receive_messages lets out: an exception from the shape of a
   decoded message, or the one json.loads raised on a message. *)
Lemma receive_messages_escapes script e :
  escapes_only (fst (receive_messages script e)) \/
  exists failure,
    Unloadable failure ∈ script /\
    fst (receive_messages script e) = Raise (loads_exception failure).
Proof.
  rewrite receive_messages_unfold. cbn [fst].
  destruct (receive_loop_outcomes script e) as [H|[H|(failure & Hin & H)]];
    destruct (receive_loop script e) as [r out]; cbn [fst] in H.
  - left. destruct r as [[]|exc|]; [exact I| |done].
    destruct exc; try done; exact I.
  - subst r. left. exact I.
  - right. exists failure. split; [exact Hin|]. subst r. by destruct failure.
Qed.


Lemma text_lines_app a b : text_lines (a ++ b) = text_lines a ++ text_lines b.
Proof. apply omap_app. Qed.

Lemma for_each_translations_texts items :
  forallb is_dict items = true ->
  exists out,
    for_each handle_translation items = (Return tt, out) /\
    text_lines out = map (fun t => field t "text" (JStr "")) items /\
    length out = (2 * length items)%nat.
Proof.
  induction items as [|t items IH]; cbn [forallb for_each].
  - intros _. by exists [].
  - intros [Ht Hitems]%andb_prop.
    destruct (IH Hitems) as (o2 & E2 & T2 & L2).
    unfold handle_translation at 1.
    rewrite !(py_get_is_dict t), !lift_Return_bind, print_bind by assumption.
    cbn [print fst snd]. rewrite cbind_Return, E2. cbn [fst snd].
    eexists; split; [reflexivity|]. split.
    + cbn [app map].
      change (text_lines (?a :: TextLine ?x :: ?l)) with (x :: text_lines l).
      by rewrite T2.
    + cbn [app length]. lia.
Qed.

(** X5: for a well-formed result-generated event _handle_result returns
    normally and prints, after the event itself, the text of the
    transcription (only when the transcription object is not empty) and
    then the text of every translation, in the order of the list; a
    missing "text" is printed as the empty string.  It prints two lines
    for the frame of the output, two for a shown transcription and two
    per translation. *)
Theorem handle_result_prints_every_translation (event : json) :
  is_dict event = true ->
  well_formed_result event = true ->
  fst (_handle_result event) = Return tt /\
  text_lines (snd (_handle_result event))
    = (if truthy (transcription_of event)
       then [field (transcription_of event) "text" (JStr "")] else [])
      ++ map (fun t => field t "text" (JStr "")) (translations_of event) /\
  length (snd (_handle_result event))
    = (2 + (if truthy (transcription_of event) then 2 else 0)
       + 2 * length (translations_of event))%nat.
Proof.
  intros He. unfold well_formed_result, translations_of, transcription_of.
  intros [[[Hp Ho]%andb_prop Ht]%andb_prop Hl]%andb_prop.
  unfold _handle_result.
  rewrite (py_get_is_dict event), lift_Return_bind by assumption.
  rewrite (py_get_is_dict _ "output"), lift_Return_bind by assumption.
  set (output := field (field event "payload" (JDict [])) "output" (JDict [])) in *.
  rewrite print_bind.
  rewrite !(py_get_is_dict output), !lift_Return_bind by assumption.
  destruct (field output "translations" (JList [])) as [| | | |items|] eqn:El;
    try discriminate.
  destruct (for_each_translations_texts items Hl) as (o2 & E2 & T2 & L2).
  set (transcription := field output "transcription" (JDict [])) in *.
  unfold py_iter. rewrite lift_Return_bind, E2.
  destruct (truthy transcription).
  - rewrite !(py_get_is_dict transcription), !lift_Return_bind by assumption.
    cbn. split; [reflexivity|]. split.
    + change (text_lines (?a :: TextLine ?t :: ?l)) with (t :: text_lines l).
      rewrite text_lines_app, T2. cbn. by rewrite app_nil_r.
    + rewrite length_app, L2. cbn. lia.
  - cbn. split; [reflexivity|]. split.
    + rewrite text_lines_app, T2. cbn. by rewrite app_nil_r.
    + rewrite length_app, L2. cbn. lia.
Qed.

Lemma handle_result_prints_scripted_final :
  is_dict (result_event "ni hao." true 0 1200 "Hello.") = true /\
  well_formed_result (result_event "ni hao." true 0 1200 "Hello.") = true /\
  fst (_handle_result (result_event "ni hao." true 0 1200 "Hello.")) = Return tt /\
  text_lines (snd (_handle_result (result_event "ni hao." true 0 1200 "Hello.")))
    = [JStr "ni hao."; JStr "Hello."] /\
  length (snd (_handle_result (result_event "ni hao." true 0 1200 "Hello.")))
    = 6%nat.
Proof.
  split; [reflexivity|]. split; [reflexivity|].
  exact (handle_result_prints_every_translation
           (result_event "ni hao." true 0 1200 "Hello.") eq_refl eq_refl).
Defined.

(* ===================================================================== *)
(*  More on the sending path                                              *)
(* ===================================================================== *)

(** X6: every binary frame that send_audio_data sends is non-empty and
    holds at most B bytes, and every frame but the last holds exactly B
    bytes, where B is the chunk size for a raw PCM file and the chunk size
    cut down to whole sample frames for a WAV file (B > 0; the file passes
    the duration test and the connection stays open). *)
Theorem audio_frame_sizes
    (fs : gmap string fs_entry) (path : string) (chunk_size : Z)
    (self : GummyWebSocketClient) (entry : fs_entry) (src : audio_source) :
  fs !! path = Some entry ->
  holds_source path entry src ->
  within_limit path src = true ->
  ready self ->
  0 < bytes_per_frame path src chunk_size ->
  exists chunks,
    outbound (snd (send_audio_data fs path chunk_size self))
      = outbound self ++ map BinaryFrame chunks /\
    Forall (fun c => 0 < Z.of_nat (length c) <= bytes_per_frame path src chunk_size)
      chunks /\
    (forall i c, (S i < length chunks)%nat -> chunks !! i = Some c ->
       Z.of_nat (length c) = bytes_per_frame path src chunk_size).
Proof.
  intros Hfs Hsrc Hlim Hready Hpos.
  pose proof (fun r => send_audio_data_read path src chunk_size r Hpos) as Hread.
  assert (Hgen : forall read progress,
            (forall r, read r = Return (take (Z.to_nat (bytes_per_frame path src chunk_size)) r,
                                        drop (Z.to_nat (bytes_per_frame path src chunk_size)) r)) ->
            exists chunks,
              outbound (snd (send_chunks (S (length (src_bytes src))) read progress
                               0 (src_bytes src) self))
                = outbound self ++ map BinaryFrame chunks /\
              Forall (fun c => 0 < Z.of_nat (length c)
                               <= bytes_per_frame path src chunk_size) chunks /\
              (forall i c, (S i < length chunks)%nat -> chunks !! i = Some c ->
                 Z.of_nat (length c) = bytes_per_frame path src chunk_size)).
  { intros read progress Hr.
    destruct (send_chunks_fixed_size_log
                (Z.to_nat (bytes_per_frame path src chunk_size)) read progress
                (S (length (src_bytes src))) 0 (src_bytes src)
                ltac:(lia) Hr ltac:(lia))
      as (chunks & unread & _ & Hall & Hfull & E).
    exists chunks. rewrite E by assumption.
    rewrite outbound_with_sent by assumption. split; [reflexivity|]. split.
    - eapply Forall_impl; [exact Hall|]. intros c Hc. cbn in Hc. lia.
    - intros i c Hi Hc. rewrite (Hfull i c Hi Hc). lia. }
  destruct (endswith path ".wav") eqn:Hwav.
  - rewrite (send_audio_data_wav fs path chunk_size entry src) by assumption.
    by apply Hgen.
  - rewrite (send_audio_data_raw fs path chunk_size entry src) by assumption.
    by apply Hgen.
Qed.

Lemma audio_frame_sizes_short_raw :
  ({["a.pcm" := raw_file short_raw]} : gmap string fs_entry) !! "a.pcm"
    = Some (raw_file short_raw) /\
  holds_source "a.pcm" (raw_file short_raw) short_raw /\
  within_limit "a.pcm" short_raw = true /\
  ready connected_client /\
  0 < bytes_per_frame "a.pcm" short_raw 3 /\
  exists chunks,
    outbound (snd (send_audio_data {["a.pcm" := raw_file short_raw]} "a.pcm" 3
                     connected_client))
      = outbound connected_client ++ map BinaryFrame chunks /\
    Forall (fun c => 0 < Z.of_nat (length c) <= bytes_per_frame "a.pcm" short_raw 3)
      chunks /\
    (forall i c, (S i < length chunks)%nat -> chunks !! i = Some c ->
       Z.of_nat (length c) = bytes_per_frame "a.pcm" short_raw 3).
Proof.
  assert (H1 : ({["a.pcm" := raw_file short_raw]} : gmap string fs_entry) !! "a.pcm"
                 = Some (raw_file short_raw)) by reflexivity.
  assert (H2 : holds_source "a.pcm" (raw_file short_raw) short_raw) by reflexivity.
  assert (H3 : within_limit "a.pcm" short_raw = true) by reflexivity.
  assert (H4 : ready connected_client)
    by (eexists; repeat split; reflexivity).
  assert (H5 : 0 < bytes_per_frame "a.pcm" short_raw 3) by reflexivity.
  repeat (split; [assumption|]).
  exact (audio_frame_sizes _ "a.pcm" 3 connected_client
           (raw_file short_raw) short_raw H1 H2 H3 H4 H5).
Defined.











(** X10: a path that names a directory passes the os.path.exists test, so
    it is not reported as a missing file: send_audio_data raises
    IsADirectoryError (for a .wav path from wave.open; for any other path
    from open, once the size reported for the directory has passed the
    duration test) before anything is sent, and the client is
    unchanged. *)
Theorem directory_path_raises_IsADirectoryError
    (fs : gmap string fs_entry) (path : string) (chunk_size : Z)
    (self : GummyWebSocketClient) (st_size : Z) :
  fs !! path = Some (Directory st_size) ->
  endswith path ".wav" = true \/ st_size <= 60 * (16000 * 2) ->
  send_audio_data fs path chunk_size self = (Raise IsADirectoryError, self).
Proof.
  intros Hfs Hcase. unfold send_audio_data. rewrite Hfs.
  destruct (endswith path ".wav"); [reflexivity|].
  destruct Hcase as [|Hsize]; [discriminate|].
  cbn [getsize]. unfold quotient_exceeds.
  destruct (Z.ltb_spec (60 * (16000 * 2)) st_size); [lia|]. reflexivity.
Qed.

Lemma directory_path_sample :
  ({["recordings" := Directory 4096]} : gmap string fs_entry) !! "recordings"
    = Some (Directory 4096) /\
  (endswith "recordings" ".wav" = true \/ 4096 <= 60 * (16000 * 2)) /\
  send_audio_data {["recordings" := Directory 4096]} "recordings" 3200
    connected_client
    = (Raise IsADirectoryError, connected_client).
Proof.
  assert (H1 : ({["recordings" := Directory 4096]} : gmap string fs_entry)
                 !! "recordings" = Some (Directory 4096)) by reflexivity.
  assert (H2 : endswith "recordings" ".wav" = true \/ 4096 <= 60 * (16000 * 2))
    by (right; lia).
  repeat (split; [assumption|]).
  exact (directory_path_raises_IsADirectoryError _ "recordings" 3200
           connected_client 4096 H1 H2).
Defined.

(** X11: a WAV file whose header gives frame rate 0 makes send_audio_data
    raise ZeroDivisionError, from total_frames / framerate, whatever its
    length: the duration test is never reached, nothing is sent and the
    client is unchanged. *)
Theorem zero_frame_rate_raises_ZeroDivisionError
    (fs : gmap string fs_entry) (path : string) (chunk_size : Z)
    (self : GummyWebSocketClient) (content : list byte) (wf : Wave_read) :
  fs !! path = Some (RegularFile content (Some wf)) ->
  endswith path ".wav" = true ->
  framerate wf = 0%N ->
  send_audio_data fs path chunk_size self = (Raise ZeroDivisionError, self).
Proof.
  intros Hfs Hwav Hrate. unfold send_audio_data. rewrite Hfs, Hwav.
  cbn [wave_open]. unfold getframerate. rewrite Hrate. reflexivity.
Qed.

Lemma zero_frame_rate_sample :
  ({["z.wav" := RegularFile (silence 52) (Some zero_rate_wave)]}
     : gmap string fs_entry) !! "z.wav"
    = Some (RegularFile (silence 52) (Some zero_rate_wave)) /\
  endswith "z.wav" ".wav" = true /\
  framerate zero_rate_wave = 0%N /\
  send_audio_data {["z.wav" := RegularFile (silence 52) (Some zero_rate_wave)]}
    "z.wav" 3200 connected_client
    = (Raise ZeroDivisionError, connected_client).
Proof.
  assert (H1 : ({["z.wav" := RegularFile (silence 52) (Some zero_rate_wave)]}
                  : gmap string fs_entry) !! "z.wav"
               = Some (RegularFile (silence 52) (Some zero_rate_wave)))
    by reflexivity.
  assert (H2 : endswith "z.wav" ".wav" = true) by reflexivity.
  assert (H3 : framerate zero_rate_wave = 0%N) by reflexivity.
  repeat (split; [assumption|]).
  exact (zero_frame_rate_raises_ZeroDivisionError _ "z.wav" 3200
           connected_client (silence 52) zero_rate_wave H1 H2 H3).
Defined.

(* ===================================================================== *)
(*  More on the drivers                                                   *)
(* ===================================================================== *)

Lemma appends_audio_only_send_audio_data fs path chunk_size :
  appends_audio_only (send_audio_data fs path chunk_size).
Proof. intros self. apply send_audio_data_appends_audio. Qed.

Lemma driver_log_prefix srv tl mes (stream tail : M unit) api_key uuid :
  appends_audio_only stream ->
  (forall s, snd (tail s) = s) ->
  exists chunks,
    outbound
      (snd (mbind (connect srv)
              (fun _ => mbind (send_run_task tl "auto" 16000 "pcm" mes true)
                 (fun _ => mbind stream
                    (fun _ => mbind send_finish_task (fun _ => tail))))
              (__init__ api_key uuid)))
    `prefix_of` session_log uuid tl mes chunks.
Proof.
  intros Hstream Htail.
  set (c0 := __init__ api_key uuid).
  unfold mbind at 1. unfold connect at 1.
  destruct (handshake_ok srv).
  2:{ exists []. cbn. apply prefix_nil. }
  set (c1 := set_websocket c0 _).
  assert (Ho1 : outbound c1 = []) by reflexivity.
  assert (Ht1 : task_id c1 = uuid) by reflexivity.
  clearbody c1. unfold mbind at 1. unfold send_run_task at 1.
  destruct (websocket_send_cases
              (TextFrame (run_task_message (task_id c1) tl "auto" 16000
                            "pcm" mes true)) c1)
    as [(exc & ->)|(E & Ht2 & Ho2)].
  { exists []. cbn [snd]. rewrite Ho1. apply prefix_nil. }
  rewrite E. set (c2 := snd (websocket_send _ c1)) in *. clearbody c2.
  destruct (Hstream c2) as (chunks & Ho3 & Ht3).
  exists chunks. unfold mbind at 1.
  destruct (stream c2) as [[[]|exc|] c3];
    cbn [snd] in *;
    try (rewrite Ho3, Ho2, Ho1, Ht1; unfold session_log; cbn [app];
         apply prefix_cons, prefix_app_r; reflexivity).
  unfold mbind at 1. unfold send_finish_task at 1.
  destruct (websocket_send_cases (TextFrame (finish_task_message (task_id c3))) c3)
    as [(exc & ->)|(E4 & Ht4 & Ho4)].
  { cbn [snd]. rewrite Ho3, Ho2, Ho1, Ht1. unfold session_log. cbn [app].
    apply prefix_cons, prefix_app_r. reflexivity. }
  rewrite E4, Htail.
  rewrite Ho4, Ho3, Ho2, Ho1, Ht3, Ht2, Ht1. unfold session_log. cbn [app].
  reflexivity.
Qed.

Lemma session_log_length tid tl mes chunks :
  length (session_log tid tl mes chunks) = S (S (length chunks)).
Proof.
  unfold session_log. cbn [length]. rewrite length_app, length_map. cbn. lia.
Qed.

Lemma prefix_never_out_of_order log tid tl mes chunks :
  log `prefix_of` session_log tid tl mes chunks -> never_out_of_order log.
Proof.
  intros Hpre. repeat split.
  - intros i f Hi Hf.
    apply (prefix_lookup_Some _ _ _ _ Hi) in Hpre as Hfull.
    apply session_log_lookup in Hfull as [?|[?|?]]; intuition congruence.
  - intros i f Hi Hf.
    apply (prefix_lookup_Some _ _ _ _ Hi) in Hpre as Hfull.
    apply lookup_lt_Some in Hi.
    apply prefix_length in Hpre. rewrite session_log_length in Hpre.
    apply session_log_lookup in Hfull as [?|[?|?]];
      intuition (try congruence; try lia).
  - intros j g Hj Hg.
    apply (prefix_lookup_Some _ _ _ _ Hj) in Hpre as Hfull.
    assert (Hj0 : (0 < j)%nat).
    { apply session_log_lookup in Hfull as [?|[?|?]];
        intuition (try congruence; try lia). }
    destruct (lookup_lt_is_Some_2 log 0) as [f Hf].
    { apply lookup_lt_Some in Hj. lia. }
    exists f. split; [exact Hf|]. split; [|exact Hj0].
    apply (prefix_lookup_Some _ _ _ _ Hf) in Hpre as Hf0.
    apply session_log_lookup in Hf0 as [?|[?|?]];
      intuition (try congruence; try lia).
Qed.

(** X12: whatever the environment does (the handshake is refused, the
    peer closes at any point, the file is missing or too long, the
    microphone delivers anything), the outbound log a driver leaves is
    never out of order: nothing precedes the run-task message, nothing
    follows the finish-task message, and a binary frame is only ever sent
    after run-task.  The log is an initial part of a complete session
    log. *)
Theorem outbound_log_never_out_of_order
    (env : environment) (api_key audio_file target_lang : string)
    (pyaudio : PyAudio) (duration : Z) :
  never_out_of_order
    (outbound (final_client
                 (test_with_audio_file env api_key audio_file target_lang))) /\
  never_out_of_order
    (outbound (final_client
                 (test_with_microphone env pyaudio api_key target_lang
                    duration))).
Proof.
  split.
  - unfold test_with_audio_file. rewrite try_finally_close_outbound.
    destruct (driver_log_prefix (remote env) target_lang 10000
                (send_audio_data (fs env) audio_file 3200)
                (await_receive_task env) api_key (uuid4 env))
      as (chunks & Hpre);
      [apply appends_audio_only_send_audio_data|reflexivity|].
    eapply prefix_never_out_of_order; exact Hpre.
  - unfold test_with_microphone. rewrite try_finally_close_outbound.
    destruct (driver_log_prefix (remote env) target_lang 5000
                (record_microphone pyaudio duration)
                (await_receive_task env) api_key (uuid4 env))
      as (chunks & Hpre);
      [apply appends_audio_only_record_microphone|reflexivity|].
    eapply prefix_never_out_of_order; exact Hpre.
Qed.

Lemma keeps_connected_mbind {A B} (m : M A) (k : A -> M B) :
  keeps_connected m -> (forall a, keeps_connected (k a)) ->
  keeps_connected (mbind m k).
Proof.
  intros Hm Hk self Hc. unfold mbind. specialize (Hm self Hc).
  destruct (m self) as [[a|exc|] self']; cbn [snd] in *; try assumption.
  by apply Hk.
Qed.

Lemma keeps_connected_websocket_send f : keeps_connected (websocket_send f).
Proof.
  intros self (ws & Hws). unfold websocket_send. rewrite Hws.
  destruct (closed ws); [by exists ws|].
  destruct (peer_accepts ws) as [[|n]|]; cbn; try (by exists ws); by eexists.
Qed.

Lemma keeps_connected_unchanged {A} (r : outcome A) :
  keeps_connected (fun self => (r, self)).
Proof. by intros self Hc. Qed.

Lemma keeps_connected_send_chunks fuel read progress sent rest :
  keeps_connected (send_chunks fuel read progress sent rest).
Proof.
  revert sent rest.
  induction fuel as [|fuel IH]; intros sent rest self Hc; [exact Hc|].
  cbn [send_chunks]. destruct (read rest) as [[data rest']|exc|]; try exact Hc.
  destruct data as [|b data]; [exact Hc|].
  apply keeps_connected_mbind; [apply keeps_connected_websocket_send| |exact Hc].
  intros _. apply keeps_connected_mbind; [apply keeps_connected_unchanged|].
  intros sent'. apply IH.
Qed.

Lemma keeps_connected_send_audio_data fs path chunk_size :
  keeps_connected (send_audio_data fs path chunk_size).
Proof.
  intros self Hc. unfold send_audio_data, mraise.
  destruct (fs !! path) as [entry|]; [|exact Hc].
  destruct (endswith path ".wav").
  - destruct (wave_open entry); try exact Hc.
    destruct (_ =? 0); [exact Hc|].
    destruct (quotient_exceeds _ _ _); [exact Hc|].
    by apply keeps_connected_send_chunks.
  - destruct (quotient_exceeds _ _ _); [exact Hc|].
    destruct (open_rb entry); try exact Hc.
    by apply keeps_connected_send_chunks.
Qed.

Lemma keeps_connected_raise_if e : keeps_connected (raise_if e).
Proof. destruct e; apply keeps_connected_unchanged. Qed.

Lemma keeps_connected_record_and_send read frames_to_record i turns :
  keeps_connected (record_and_send read frames_to_record i turns).
Proof.
  revert i. induction turns as [|turns IH]; intros i; cbn [record_and_send].
  - apply (keeps_connected_unchanged (Return tt)).
  - destruct (read i) as [data|exc]; [|apply keeps_connected_unchanged].
    apply keeps_connected_mbind; [apply keeps_connected_websocket_send|].
    intros _. apply keeps_connected_mbind; [apply keeps_connected_unchanged|].
    intros _. apply IH.
Qed.

Lemma keeps_connected_record_microphone pyaudio duration :
  keeps_connected (record_microphone pyaudio duration).
Proof.
  unfold record_microphone.
  apply keeps_connected_mbind; [apply keeps_connected_raise_if|].
  intros _. apply keeps_connected_mbind; [apply keeps_connected_unchanged|].
  intros n. apply keeps_connected_mbind;
    [apply keeps_connected_record_and_send|].
  intros _. apply keeps_connected_raise_if.
Qed.

Lemma driver_closes_connection srv (rest : M unit) client :
  websocket client = None ->
  keeps_connected rest ->
  if handshake_ok srv
  then exists ws,
         websocket (final_client
                      (try_finally_close (mbind (connect srv) (fun _ => rest))
                         client)) = Some ws /\ closed ws = true
  else websocket (final_client
                    (try_finally_close (mbind (connect srv) (fun _ => rest))
                       client)) = None /\
       tried (try_finally_close (mbind (connect srv) (fun _ => rest)) client)
         = Raise InvalidHandshake.
Proof.
  intros Hnone Hrest. unfold try_finally_close.
  destruct (handshake_ok srv) eqn:Hh.
  - assert (Hc : exists c1, connect srv client = (Return tt, c1) /\ connected c1).
    { unfold connect. rewrite Hh. eexists. split; [reflexivity|]. by eexists. }
    destruct Hc as (c1 & Hc & Hc1).
    rewrite (mbind_Return _ _ _ _ _ Hc).
    specialize (Hrest c1 Hc1).
    destruct (rest c1) as [r c2]. cbn [snd final_client] in *.
    destruct Hrest as (ws & Hws). unfold close. rewrite Hws. cbn. by eexists.
  - assert (Hc : connect srv client = (Raise InvalidHandshake, client))
      by (unfold connect; by rewrite Hh).
    rewrite (mbind_Raise _ _ _ _ _ Hc). cbn [final_client tried].
    unfold close. rewrite Hnone. by split.
Qed.

(** X13: a driver always leaves through its finally clause.  If the
    handshake succeeded, the client ends with its connection closed,
    whatever happened in between (an exception at any step included); if
    the handshake failed, there never was a connection, the exception of
    connect is what the try block caught, and close had nothing to do. *)
Theorem connection_closed_whatever_happens
    (env : environment) (api_key audio_file target_lang : string)
    (pyaudio : PyAudio) (duration : Z) :
  (if handshake_ok (remote env)
   then exists ws,
          websocket (final_client
                       (test_with_audio_file env api_key audio_file target_lang))
            = Some ws /\ closed ws = true
   else websocket (final_client
                     (test_with_audio_file env api_key audio_file target_lang))
          = None /\
        tried (test_with_audio_file env api_key audio_file target_lang)
          = Raise InvalidHandshake) /\
  (if handshake_ok (remote env)
   then exists ws,
          websocket (final_client
                       (test_with_microphone env pyaudio api_key target_lang
                          duration))
            = Some ws /\ closed ws = true
   else websocket (final_client
                     (test_with_microphone env pyaudio api_key target_lang
                        duration))
          = None /\
        tried (test_with_microphone env pyaudio api_key target_lang duration)
          = Raise InvalidHandshake).
Proof.
  assert (Hsend : forall f, keeps_connected (websocket_send f))
    by apply keeps_connected_websocket_send.
  assert (Hrun : forall tl mes,
             keeps_connected (send_run_task tl "auto" 16000 "pcm" mes true)).
  { intros tl mes self Hc. unfold send_run_task. by apply Hsend. }
  assert (Hfin : keeps_connected send_finish_task).
  { intros self Hc. unfold send_finish_task. by apply Hsend. }
  assert (Hawait : keeps_connected (await_receive_task env)) by (by intros self Hc).
  split.
  - apply (driver_closes_connection (remote env)); [reflexivity|].
    repeat (apply keeps_connected_mbind; [|intros _]);
      auto using keeps_connected_send_audio_data.
  - apply (driver_closes_connection (remote env)); [reflexivity|].
    apply keeps_connected_mbind; [apply Hrun|intros _].
    apply keeps_connected_mbind;
      [apply keeps_connected_record_microphone|intros _].
    apply keeps_connected_mbind; [apply Hfin|intros _]. exact Hawait.
Qed.

Lemma audio_frames_app a b : audio_frames (a ++ b) = audio_frames a ++ audio_frames b.
Proof. apply omap_app. Qed.

Lemma audio_frames_binary chunks : audio_frames (map BinaryFrame chunks) = chunks.
Proof.
  induction chunks as [|c chunks IH]; [reflexivity|].
  cbn [map]. change (audio_frames (BinaryFrame c :: ?l)) with (c :: audio_frames l).
  by rewrite IH.
Qed.

Lemma audio_frames_session_log tid tl mes chunks :
  audio_frames (session_log tid tl mes chunks) = chunks.
Proof.
  unfold session_log.
  change (audio_frames (TextFrame ?m :: ?l)) with (audio_frames l).
  rewrite audio_frames_app, audio_frames_binary. cbn. by rewrite app_nil_r.
Qed.

(* The steps of a driver after connect, on a ready client, with what the
   awaited receive task came to. *)
Lemma bracketed_stream_result (stream : M unit) (rt : outcome unit) chunks tl mes self :
  ready self ->
  (forall s, ready s -> stream s = (Return tt, with_sent s (map BinaryFrame chunks))) ->
  mbind (send_run_task tl "auto" 16000 "pcm" mes true)
    (fun _ => mbind stream
       (fun _ => mbind send_finish_task (fun _ s => (rt, s)))) self
  = (rt, with_sent self (session_log (task_id self) tl mes chunks)).
Proof.
  intros Hready Hstream.
  assert (Hrun : send_run_task tl "auto" 16000 "pcm" mes true self
                 = (Return tt,
                    with_sent self
                      [TextFrame (run_task_message (task_id self) tl "auto" 16000
                                    "pcm" mes true)]))
    by (unfold send_run_task; by rewrite websocket_send_ready).
  rewrite (mbind_Return _ _ _ _ _ Hrun).
  set (s1 := with_sent self _).
  assert (Hr1 : ready s1) by (by apply ready_with_sent).
  rewrite (mbind_Return _ _ _ _ _ (Hstream s1 Hr1)).
  set (s2 := with_sent s1 _).
  assert (Hr2 : ready s2) by (by apply ready_with_sent).
  assert (Hfin : send_finish_task s2
                 = (Return tt,
                    with_sent s2 [TextFrame (finish_task_message (task_id self))])).
  { unfold send_finish_task. rewrite websocket_send_ready by assumption.
    unfold s2, s1. by rewrite !task_id_with_sent. }
  rewrite (mbind_Return _ _ _ _ _ Hfin).
  unfold s2, s1. by rewrite !with_sent_app.
Qed.

Lemma tried_try_finally_close body client :
  tried (try_finally_close body client) = fst (body client).
Proof. unfold try_finally_close. by destruct (body client). Qed.

Lemma test_with_microphone_frames
    (env : environment) (microphone : nat -> list byte)
    (api_key target_lang : string) (duration : Z) :
  handshake_ok (remote env) = true ->
  frames_accepted (remote env) = None ->
  exact_duration duration ->
  audio_frames
    (outbound (final_client
                 (test_with_microphone env (working microphone) api_key
                    target_lang duration)))
    = map microphone (seq 0 (Z.to_nat (5 * duration))) /\
  Z.of_nat
    (length (audio_frames
               (outbound (final_client
                            (test_with_microphone env (working microphone)
                               api_key target_lang duration)))))
    = Z.max 0 (5 * duration) /\
  tried (test_with_microphone env (working microphone) api_key target_lang
           duration)
    = fst (receive_messages (messages env) (ending env)).
Proof.
  intros Hh Hf Hd.
  destruct (connect_ready (remote env) (__init__ api_key (uuid4 env)) Hh Hf)
    as (c1 & Hc & Hr1 & Ho1 & Ht1).
  assert (Hbody :
    mbind (connect (remote env))
      (fun _ => mbind (send_run_task target_lang "auto" 16000 "pcm" 5000 true)
         (fun _ => mbind (record_microphone (working microphone) duration)
            (fun _ => mbind send_finish_task (fun _ => await_receive_task env))))
      (__init__ api_key (uuid4 env))
    = (fst (receive_messages (messages env) (ending env)),
       with_sent c1
         (session_log (task_id c1) target_lang 5000
            (map microphone (seq 0 (Z.to_nat (5 * duration))))))).
  { rewrite (mbind_Return _ _ _ _ _ Hc).
    apply (bracketed_stream_result _ _ _ _ _ c1 Hr1).
    intros s Hs. by apply record_microphone_ready. }
  assert (Hlog :
    audio_frames
      (outbound (final_client
                   (test_with_microphone env (working microphone) api_key
                      target_lang duration)))
    = map microphone (seq 0 (Z.to_nat (5 * duration)))).
  { unfold test_with_microphone. rewrite try_finally_close_outbound, Hbody.
    cbn [snd]. rewrite outbound_with_sent, Ho1 by assumption.
    cbn [app]. apply audio_frames_session_log. }
  split; [exact Hlog|]. split.
  - rewrite Hlog, length_map, length_seq. lia.
  - unfold test_with_microphone. by rewrite tried_try_finally_close, Hbody.
Qed.

(** X14: with a handshake that succeeds, a connection that stays open, a
    pyaudio that opens, reads and closes without an exception, and a
    duration whose product with the float RATE / CHUNK = 5.0 is exact
    (5 * duration is at most 2^53 in magnitude), a recording session
    sends, between run-task and finish-task, exactly the buffers read
    from the microphone, in order: int(5.0 * duration) = 5 * duration of
    them, and none when the duration is zero or negative.  What the try
    block comes to is the outcome of the receive task awaited at its
    end. *)
Theorem microphone_session_frames
    (env : environment) (microphone : nat -> list byte)
    (api_key target_lang : string) (duration : Z) :
  handshake_ok (remote env) = true ->
  frames_accepted (remote env) = None ->
  exact_duration duration ->
  audio_frames
    (outbound (final_client
                 (test_with_microphone env (working microphone) api_key
                    target_lang duration)))
    = map microphone (seq 0 (Z.to_nat (5 * duration))) /\
  Z.of_nat
    (length (audio_frames
               (outbound (final_client
                            (test_with_microphone env (working microphone)
                               api_key target_lang duration)))))
    = Z.max 0 (5 * duration) /\
  tried (test_with_microphone env (working microphone) api_key target_lang
           duration)
    = fst (receive_messages (messages env) (ending env)).
Proof.
  apply test_with_microphone_frames.
Qed.

Lemma microphone_session_two_seconds :
  handshake_ok (remote sample_env) = true /\
  frames_accepted (remote sample_env) = None /\
  exact_duration 2 /\
  audio_frames
    (outbound (final_client
                 (test_with_microphone sample_env
                    (working (fun _ => silence 6400)) "sk-test" "en" 2)))
    = map (fun _ => silence 6400) (seq 0 (Z.to_nat (5 * 2))) /\
  Z.of_nat
    (length (audio_frames
               (outbound (final_client
                            (test_with_microphone sample_env
                               (working (fun _ => silence 6400)) "sk-test"
                               "en" 2)))))
    = Z.max 0 (5 * 2) /\
  tried (test_with_microphone sample_env (working (fun _ => silence 6400))
           "sk-test" "en" 2)
    = fst (receive_messages (messages sample_env) (ending sample_env)).
Proof.
  assert (H1 : handshake_ok (remote sample_env) = true) by reflexivity.
  assert (H2 : frames_accepted (remote sample_env) = None) by reflexivity.
  assert (H3 : exact_duration 2) by (unfold exact_duration; simpl; lia).
  repeat (split; [assumption|]).
  exact (microphone_session_frames sample_env (fun _ => silence 6400)
           "sk-test" "en" 2 H1 H2 H3).
Defined.

(** X15: with a valid configuration, a chunk of 3200 bytes that holds at
    least one sample frame, and a WAV source that is empty or holds at
    least one whole sample frame (so that total_frames, the divisor of
    the progress line, is not zero), a session of test_with_audio_file
    puts the whole source on the wire: the binary frames of its log,
    joined in send order, are the bytes of the source; and what the try
    block comes to is the outcome of the receive task awaited at its
    end. *)
Theorem file_session_sends_whole_source
    (env : environment) (api_key audio_file target_lang : string)
    (entry : fs_entry) (src : audio_source) :
  handshake_ok (remote env) = true ->
  frames_accepted (remote env) = None ->
  fs env !! audio_file = Some entry ->
  holds_source audio_file entry src ->
  within_limit audio_file src = true ->
  has_whole_frame audio_file src ->
  0 < bytes_per_frame audio_file src 3200 ->
  concat (audio_frames
            (outbound (final_client
                         (test_with_audio_file env api_key audio_file target_lang))))
    = src_bytes src /\
  tried (test_with_audio_file env api_key audio_file target_lang)
    = fst (receive_messages (messages env) (ending env)).
Proof.
  intros Hh Hf Hfs Hsrc Hlim Hwhole Hpos.
  destruct (connect_ready (remote env) (__init__ api_key (uuid4 env)) Hh Hf)
    as (c1 & Hc & Hr1 & Ho1 & Ht1).
  destruct (send_audio_data_streams (fs env) audio_file 3200 entry src
              Hfs Hsrc Hlim Hwhole Hpos ltac:(reflexivity))
    as (chunks & Hcat & _ & Hsend).
  assert (Hbody :
    mbind (connect (remote env))
      (fun _ => mbind (send_run_task target_lang "auto" 16000 "pcm" 10000 true)
         (fun _ => mbind (send_audio_data (fs env) audio_file 3200)
            (fun _ => mbind send_finish_task (fun _ => await_receive_task env))))
      (__init__ api_key (uuid4 env))
    = (fst (receive_messages (messages env) (ending env)),
       with_sent c1 (session_log (task_id c1) target_lang 10000 chunks))).
  { rewrite (mbind_Return _ _ _ _ _ Hc).
    by apply (bracketed_stream_result _ _ _ _ _ c1 Hr1). }
  unfold test_with_audio_file. split.
  - rewrite try_finally_close_outbound, Hbody. cbn [snd].
    rewrite outbound_with_sent, Ho1 by assumption. cbn [app].
    by rewrite audio_frames_session_log.
  - by rewrite tried_try_finally_close, Hbody.
Qed.

Lemma file_session_sends_clip :
  handshake_ok (remote clip_env) = true /\
  frames_accepted (remote clip_env) = None /\
  fs clip_env !! "clip.wav" = Some (wav_file clip_24bit) /\
  holds_source "clip.wav" (wav_file clip_24bit) clip_24bit /\
  within_limit "clip.wav" clip_24bit = true /\
  has_whole_frame "clip.wav" clip_24bit /\
  0 < bytes_per_frame "clip.wav" clip_24bit 3200 /\
  concat (audio_frames
            (outbound (final_client
                         (test_with_audio_file clip_env "sk-test" "clip.wav" "en"))))
    = src_bytes clip_24bit /\
  tried (test_with_audio_file clip_env "sk-test" "clip.wav" "en")
    = fst (receive_messages (messages clip_env) (ending clip_env)).
Proof.
  assert (H1 : handshake_ok (remote clip_env) = true) by reflexivity.
  assert (H2 : frames_accepted (remote clip_env) = None) by reflexivity.
  assert (H3 : fs clip_env !! "clip.wav" = Some (wav_file clip_24bit))
    by reflexivity.
  assert (H4 : holds_source "clip.wav" (wav_file clip_24bit) clip_24bit)
    by reflexivity.
  assert (H5 : within_limit "clip.wav" clip_24bit = true) by reflexivity.
  assert (H6 : has_whole_frame "clip.wav" clip_24bit)
    by (intros _ _; vm_compute; discriminate).
  assert (H7 : 0 < bytes_per_frame "clip.wav" clip_24bit 3200) by reflexivity.
  do 7 (split; [assumption|]).
  exact (file_session_sends_whole_source clip_env "sk-test" "clip.wav" "en"
           (wav_file clip_24bit) clip_24bit H1 H2 H3 H4 H5 H6 H7).
Defined.

(** X16: when send_audio_data refuses the file before sending anything
    (the file is missing, too long, a directory, not a WAV file), a
    session of test_with_audio_file has by then sent the run-task message
    and sends nothing more: the log holds run-task alone, no finish-task
    follows, and the exception is what the try block caught.  The
    handshake succeeded and the peer took the first frame. *)
Theorem refused_file_leaves_task_unfinished
    (env : environment) (api_key audio_file target_lang : string) (exc : exn) :
  handshake_ok (remote env) = true ->
  frames_accepted (remote env) <> Some 0%nat ->
  (forall self, send_audio_data (fs env) audio_file 3200 self = (Raise exc, self)) ->
  tried (test_with_audio_file env api_key audio_file target_lang) = Raise exc /\
  outbound (final_client (test_with_audio_file env api_key audio_file target_lang))
    = [TextFrame (run_task_message (uuid4 env) target_lang "auto" 16000 "pcm"
                    10000 true)].
Proof.
  intros Hh Hf Hrefuse.
  assert (Hbody : exists c2,
    mbind (connect (remote env))
      (fun _ => mbind (send_run_task target_lang "auto" 16000 "pcm" 10000 true)
         (fun _ => mbind (send_audio_data (fs env) audio_file 3200)
            (fun _ => mbind send_finish_task (fun _ => await_receive_task env))))
      (__init__ api_key (uuid4 env)) = (Raise exc, c2) /\
    outbound c2
      = [TextFrame (run_task_message (uuid4 env) target_lang "auto" 16000 "pcm"
                      10000 true)]).
  { unfold mbind at 1, connect at 1. rewrite Hh.
    unfold mbind at 1, send_run_task at 1, websocket_send at 1.
    cbn [websocket set_websocket closed peer_accepts sent request_headers task_id
         __init__].
    destruct (frames_accepted (remote env)) as [[|n]|]; [done| |];
      rewrite (mbind_Raise _ _ _ _ _ (Hrefuse _)); eexists; split; reflexivity. }
  destruct Hbody as (c2 & Hbody & Hout).
  unfold test_with_audio_file. split.
  - by rewrite tried_try_finally_close, Hbody.
  - by rewrite try_finally_close_outbound, Hbody.
Qed.

Lemma missing_file_leaves_task_unfinished :
  handshake_ok (remote sample_env) = true /\
  frames_accepted (remote sample_env) <> Some 0%nat /\
  (forall self,
     send_audio_data (fs sample_env) "b.pcm" 3200 self
       = (Raise FileNotFoundError, self)) /\
  tried (test_with_audio_file sample_env "sk-test" "b.pcm" "en")
    = Raise FileNotFoundError /\
  outbound (final_client (test_with_audio_file sample_env "sk-test" "b.pcm" "en"))
    = [TextFrame (run_task_message (uuid4 sample_env) "en" "auto" 16000 "pcm"
                    10000 true)].
Proof.
  assert (H1 : handshake_ok (remote sample_env) = true) by reflexivity.
  assert (H2 : frames_accepted (remote sample_env) <> Some 0%nat) by discriminate.
  assert (H3 : forall self,
             send_audio_data (fs sample_env) "b.pcm" 3200 self
               = (Raise FileNotFoundError, self))
    by (intros self; reflexivity).
  repeat (split; [assumption|]).
  exact (refused_file_leaves_task_unfinished sample_env "sk-test" "b.pcm" "en"
           FileNotFoundError H1 H2 H3).
Defined.

(* ===================================================================== *)
(*  The command-line entry points                                         *)
(* ===================================================================== *)

Lemma keeps_credentials_mbind {A B} (m : M A) (k : A -> M B) :
  keeps_credentials m -> (forall a, keeps_credentials (k a)) ->
  keeps_credentials (mbind m k).
Proof.
  intros Hm Hk self. unfold mbind. specialize (Hm self).
  destruct (m self) as [[a|exc|] self']; cbn [snd] in *; try assumption.
  destruct Hm as [Hma Hmh]. destruct (Hk a self') as [Hka Hkh]. split; congruence.
Qed.

Lemma keeps_credentials_unchanged {A} (r : outcome A) :
  keeps_credentials (fun self => (r, self)).
Proof. by intros self. Qed.

Lemma keeps_credentials_websocket_send f : keeps_credentials (websocket_send f).
Proof.
  intros self. unfold websocket_send.
  destruct (websocket self) as [ws|] eqn:Hws.
  - destruct (closed ws); [cbn; by rewrite ?Hws|].
    destruct (peer_accepts ws) as [[|n]|]; cbn; by rewrite ?Hws.
  - cbn. by rewrite Hws.
Qed.

Lemma keeps_credentials_send_chunks fuel read progress sent rest :
  keeps_credentials (send_chunks fuel read progress sent rest).
Proof.
  revert sent rest. induction fuel as [|fuel IH]; intros sent rest;
    [apply keeps_credentials_unchanged|].
  cbn [send_chunks].
  destruct (read rest) as [[data rest']|exc|];
    try apply keeps_credentials_unchanged.
  destruct data as [|b data]; [apply keeps_credentials_unchanged|].
  apply keeps_credentials_mbind; [apply keeps_credentials_websocket_send|].
  intros _. apply keeps_credentials_mbind; [apply keeps_credentials_unchanged|].
  intros sent'. apply IH.
Qed.

Lemma keeps_credentials_send_audio_data fs path chunk_size :
  keeps_credentials (send_audio_data fs path chunk_size).
Proof.
  unfold send_audio_data, mraise.
  destruct (fs !! path) as [entry|]; [|apply keeps_credentials_unchanged].
  destruct (endswith path ".wav").
  - destruct (wave_open entry); try apply keeps_credentials_unchanged.
    destruct (_ =? 0); [apply keeps_credentials_unchanged|].
    destruct (quotient_exceeds _ _ _); [apply keeps_credentials_unchanged|].
    apply keeps_credentials_send_chunks.
  - destruct (quotient_exceeds _ _ _); [apply keeps_credentials_unchanged|].
    destruct (open_rb entry); try apply keeps_credentials_unchanged.
    apply keeps_credentials_send_chunks.
Qed.

Lemma keeps_credentials_raise_if e : keeps_credentials (raise_if e).
Proof. destruct e; apply keeps_credentials_unchanged. Qed.

Lemma keeps_credentials_record_and_send read frames_to_record i turns :
  keeps_credentials (record_and_send read frames_to_record i turns).
Proof.
  revert i. induction turns as [|turns IH]; intros i; cbn [record_and_send].
  - apply (keeps_credentials_unchanged (Return tt)).
  - destruct (read i) as [data|exc]; [|apply keeps_credentials_unchanged].
    apply keeps_credentials_mbind; [apply keeps_credentials_websocket_send|].
    intros _. apply keeps_credentials_mbind; [apply keeps_credentials_unchanged|].
    intros _. apply IH.
Qed.

Lemma keeps_credentials_record_microphone pyaudio duration :
  keeps_credentials (record_microphone pyaudio duration).
Proof.
  unfold record_microphone.
  apply keeps_credentials_mbind; [apply keeps_credentials_raise_if|].
  intros _. apply keeps_credentials_mbind; [apply keeps_credentials_unchanged|].
  intros n. apply keeps_credentials_mbind;
    [apply keeps_credentials_record_and_send|].
  intros _. apply keeps_credentials_raise_if.
Qed.

Lemma keeps_credentials_close : keeps_credentials close.
Proof.
  intros self. unfold close.
  destruct (websocket self) as [ws|] eqn:Hws; cbn; by rewrite ?Hws.
Qed.

(* A driver keeps the API key it was given, and the connection it opens,
   if any, carries the headers made from that key. *)
Lemma driver_credentials srv (rest : M unit) key uuid :
  keeps_credentials rest ->
  api_key (final_client
             (try_finally_close (mbind (connect srv) (fun _ => rest))
                (__init__ key uuid))) = key /\
  forall hs,
    handshake_headers
      (try_finally_close (mbind (connect srv) (fun _ => rest)) (__init__ key uuid))
      = Some hs ->
    hs = headers_for key.
Proof.
  intros Hrest. unfold handshake_headers, try_finally_close.
  assert (Hbody : api_key (snd (mbind (connect srv) (fun _ => rest) (__init__ key uuid)))
                  = key /\
                  (request_headers <$>
                     websocket (snd (mbind (connect srv) (fun _ => rest)
                                       (__init__ key uuid))))
                  = if handshake_ok srv then Some (headers_for key) else None).
  { unfold mbind, connect. destruct (handshake_ok srv); [|by split].
    destruct (Hrest (set_websocket (__init__ key uuid)
                       (Some {| request_headers :=
                                  [("Authorization", "bearer " +:+ api_key (__init__ key uuid));
                                   ("user-agent", "GummyTest/1.0");
                                   ("X-DashScope-DataInspection", "enable")];
                                sent := []; peer_accepts := frames_accepted srv;
                                closed := false |}))) as [Hk Hh].
    split; [by rewrite Hk|]. by rewrite Hh. }
  destruct (mbind (connect srv) (fun _ => rest) (__init__ key uuid)) as [r c].
  cbn [snd final_client] in *. destruct Hbody as [Hk Hh].
  destruct (keeps_credentials_close c) as [Hck Hch].
  split; [congruence|]. intros hs Hhs. rewrite Hch, Hh in Hhs.
  destruct (handshake_ok srv); congruence.
Qed.

Lemma test_with_audio_file_credentials env key audio_file target_lang :
  api_key (final_client (test_with_audio_file env key audio_file target_lang)) = key /\
  forall hs,
    handshake_headers (test_with_audio_file env key audio_file target_lang) = Some hs ->
    hs = headers_for key.
Proof.
  apply (driver_credentials (remote env)).
  apply keeps_credentials_mbind;
    [intros self; apply keeps_credentials_websocket_send|intros _].
  apply keeps_credentials_mbind;
    [apply keeps_credentials_send_audio_data|intros _].
  apply keeps_credentials_mbind;
    [intros self; apply keeps_credentials_websocket_send|intros _].
  apply keeps_credentials_unchanged.
Qed.

Lemma test_with_microphone_credentials env pyaudio key target_lang duration :
  api_key (final_client
             (test_with_microphone env pyaudio key target_lang duration)) = key /\
  forall hs,
    handshake_headers (test_with_microphone env pyaudio key target_lang duration)
      = Some hs ->
    hs = headers_for key.
Proof.
  apply (driver_credentials (remote env)).
  apply keeps_credentials_mbind;
    [intros self; apply keeps_credentials_websocket_send|intros _].
  apply keeps_credentials_mbind;
    [apply keeps_credentials_record_microphone|intros _].
  apply keeps_credentials_mbind;
    [intros self; apply keeps_credentials_websocket_send|intros _].
  apply keeps_credentials_unchanged.
Qed.

Lemma main_session_inv strip py_int getenv stdin pyaudio env r :
  session_of (main strip py_int getenv stdin pyaudio env) = Some r ->
  exists key, getenv = Some key /\ key <> "" /\
    ((exists audio_file target_lang,
        r = test_with_audio_file env key audio_file target_lang) \/
     (exists module target_lang duration,
        r = test_with_microphone env module key target_lang duration)).
Proof.
  unfold main. destruct getenv as [key|]; [|discriminate].
  destruct (String.eqb_spec key ""); [discriminate|].
  intros H. exists key. split; [reflexivity|]. split; [assumption|].
  destruct stdin as [|l1 stdin1]; [discriminate|].
  destruct (String.eqb (strip l1) "1").
  - destruct stdin1 as [|l2 [|l3 rest]]; try discriminate.
    cbn [session_of] in H. injection H as <-. left. by eexists _, _.
  - destruct (String.eqb (strip l1) "2"); [|discriminate].
    destruct stdin1 as [|l2 [|l3 rest]]; try discriminate.
    right.
    destruct (if String.eqb (strip l3) "" then Some 10 else py_int (strip l3))
      as [d|]; [|discriminate].
    destruct pyaudio as [mic|]; [|discriminate].
    cbn [session_of test_with_microphone_if_available] in H.
    injection H as <-. by eexists _, _, _.
Qed.

Lemma simple_test_session_inv strip getenv stdin env r :
  session_of (simple_test strip getenv stdin env) = Some r ->
  exists key audio_file target_lang,
    getenv = Some key /\ key <> "" /\
    is_Some (fs env !! audio_file) /\
    r = test_with_audio_file env key audio_file target_lang.
Proof.
  unfold simple_test. destruct getenv as [key|]; [|discriminate].
  destruct (String.eqb_spec key ""); [discriminate|].
  destruct stdin as [|l1 stdin1]; [discriminate|].
  destruct (String.eqb (strip l1) ""); [discriminate|].
  destruct (fs env !! strip l1) as [entry|] eqn:Hfs; [|discriminate].
  destruct stdin1 as [|l2 rest]; [discriminate|].
  cbn [session_of]. intros [= <-].
  exists key, (strip l1), (py_or (strip l2) "en").
  repeat split; try assumption. rewrite Hfs. by eexists.
Qed.

(** X17: a session started from the command line (main, or simple_test)
    runs under the API key found in DASHSCOPE_API_KEY, which is set and
    not empty: the client holds that key, and the connection it opens, if
    any, was requested with exactly the Authorization header "bearer "
    followed by the key, the user-agent and the data-inspection header.
    No session is run without a key. *)
Theorem entry_points_use_environment_key
    (strip : string -> string) (py_int : string -> option Z)
    (getenv : option string) (stdin : list string)
    (pyaudio : option PyAudio) (env : environment)
    (r : session_report) :
  session_of (main strip py_int getenv stdin pyaudio env) = Some r \/
  session_of (simple_test strip getenv stdin env) = Some r ->
  exists key,
    getenv = Some key /\ key <> "" /\
    api_key (final_client r) = key /\
    forall hs, handshake_headers r = Some hs -> hs = headers_for key.
Proof.
  intros [H|H].
  - apply main_session_inv in H
      as (key & Hg & Hk & [(f & tl & ->)|(mic & tl & d & ->)]);
      exists key; (split; [assumption|]); (split; [assumption|]).
    + apply test_with_audio_file_credentials.
    + apply test_with_microphone_credentials.
  - apply simple_test_session_inv in H as (key & f & tl & Hg & Hk & _ & ->).
    exists key. split; [assumption|]. split; [assumption|].
    apply test_with_audio_file_credentials.
Qed.

Lemma main_file_session_uses_key :
  (session_of (main (fun s => s) (fun _ => None) (Some "sk-test")
                 ["1"; "a.pcm"; "ja"] None sample_env)
     = Some (test_with_audio_file sample_env "sk-test" "a.pcm" "ja") \/
   session_of (simple_test (fun s => s) (Some "sk-test") ["1"; "a.pcm"; "ja"]
                 sample_env)
     = Some (test_with_audio_file sample_env "sk-test" "a.pcm" "ja")) /\
  exists key,
    Some "sk-test" = Some key /\ key <> "" /\
    api_key (final_client (test_with_audio_file sample_env "sk-test" "a.pcm" "ja"))
      = key /\
    forall hs,
      handshake_headers (test_with_audio_file sample_env "sk-test" "a.pcm" "ja")
        = Some hs ->
      hs = headers_for key.
Proof.
  assert (H : session_of (main (fun s => s) (fun _ => None) (Some "sk-test")
                            ["1"; "a.pcm"; "ja"] None sample_env)
                = Some (test_with_audio_file sample_env "sk-test" "a.pcm" "ja") \/
              session_of (simple_test (fun s => s) (Some "sk-test")
                            ["1"; "a.pcm"; "ja"] sample_env)
                = Some (test_with_audio_file sample_env "sk-test" "a.pcm" "ja"))
    by (left; reflexivity).
  split; [exact H|].
  exact (entry_points_use_environment_key (fun s => s) (fun _ => None)
           (Some "sk-test") ["1"; "a.pcm"; "ja"] None sample_env
           (test_with_audio_file sample_env "sk-test" "a.pcm" "ja") H).
Defined.

Lemma first_frame_of_prefix log tid tl mes chunks f :
  log `prefix_of` session_log tid tl mes chunks ->
  log !! 0%nat = Some f ->
  f = TextFrame (run_task_message tid tl "auto" 16000 "pcm" mes true).
Proof.
  intros Hpre Hf. apply (prefix_lookup_Some _ _ _ _ Hf) in Hpre.
  unfold session_log in Hpre. cbn in Hpre. congruence.
Qed.

Lemma first_frame_test_with_audio_file env key audio_file tl f :
  first_frame (test_with_audio_file env key audio_file tl) = Some f ->
  f = TextFrame (run_task_message (uuid4 env) tl "auto" 16000 "pcm" 10000 true).
Proof.
  unfold first_frame, test_with_audio_file. rewrite try_finally_close_outbound.
  destruct (driver_log_prefix (remote env) tl 10000
              (send_audio_data (fs env) audio_file 3200)
              (await_receive_task env) key (uuid4 env))
    as (chunks & Hpre);
    [apply appends_audio_only_send_audio_data|reflexivity|].
  by apply first_frame_of_prefix with (chunks := chunks).
Qed.

Lemma first_frame_test_with_microphone env pyaudio key tl duration f :
  first_frame (test_with_microphone env pyaudio key tl duration) = Some f ->
  f = TextFrame (run_task_message (uuid4 env) tl "auto" 16000 "pcm" 5000 true).
Proof.
  unfold first_frame, test_with_microphone. rewrite try_finally_close_outbound.
  destruct (driver_log_prefix (remote env) tl 5000
              (record_microphone pyaudio duration)
              (await_receive_task env) key (uuid4 env))
    as (chunks & Hpre);
    [apply appends_audio_only_record_microphone|reflexivity|].
  by apply first_frame_of_prefix with (chunks := chunks).
Qed.

(** X18: main hands the typed target language to the session, and "en"
    when the line is blank.  Whatever a session started by main sends
    first is the run-task message for that language, with source language
    "auto", 16000 Hz, format "pcm" and inverse text normalisation on; the
    silence threshold is 10000 ms for a file session (choice 1) and the
    default 5000 ms for a recording session (choice 2). *)
Theorem main_passes_target_language
    (strip : string -> string) (py_int : string -> option Z)
    (key line1 line2 line3 : string) (rest : list string)
    (pyaudio : option PyAudio) (env : environment)
    (r : session_report) (f : frame) :
  key <> "" ->
  session_of (main strip py_int (Some key) (line1 :: line2 :: line3 :: rest)
                pyaudio env) = Some r ->
  first_frame r = Some f ->
  (strip line1 = "1" /\
   f = TextFrame (run_task_message (uuid4 env)
                    (if String.eqb (strip line3) "" then "en" else strip line3)
                    "auto" 16000 "pcm" 10000 true)) \/
  (strip line1 = "2" /\
   f = TextFrame (run_task_message (uuid4 env)
                    (if String.eqb (strip line2) "" then "en" else strip line2)
                    "auto" 16000 "pcm" 5000 true)).
Proof.
  intros Hkey. unfold main.
  destruct (String.eqb_spec key ""); [done|].
  destruct (String.eqb_spec (strip line1) "1") as [H1|H1].
  - cbn [session_of]. intros [= <-] Hf. left. split; [assumption|].
    by apply first_frame_test_with_audio_file in Hf.
  - destruct (String.eqb_spec (strip line1) "2") as [H2|H2]; [|discriminate].
    destruct (if String.eqb (strip line3) "" then Some 10 else py_int (strip line3))
      as [d|]; [|discriminate].
    destruct pyaudio as [mic|]; [|discriminate].
    cbn [session_of test_with_microphone_if_available]. intros [= <-] Hf.
    right. split; [assumption|].
    by apply first_frame_test_with_microphone in Hf.
Qed.

Lemma main_blank_language_sample :
  "sk-test" <> "" /\
  session_of (main (fun s => s) (fun _ => None) (Some "sk-test")
                ("1" :: "a.pcm" :: "" :: []) None sample_env)
    = Some (test_with_audio_file sample_env "sk-test" "a.pcm" "en") /\
  first_frame (test_with_audio_file sample_env "sk-test" "a.pcm" "en")
    = Some (TextFrame (run_task_message (uuid4 sample_env) "en" "auto" 16000
                         "pcm" 10000 true)) /\
  (("1" = "1" /\
    TextFrame (run_task_message (uuid4 sample_env) "en" "auto" 16000 "pcm"
                 10000 true)
    = TextFrame (run_task_message (uuid4 sample_env)
                   (if String.eqb "" "" then "en" else "")
                   "auto" 16000 "pcm" 10000 true)) \/
   ("1" = "2" /\
    TextFrame (run_task_message (uuid4 sample_env) "en" "auto" 16000 "pcm"
                 10000 true)
    = TextFrame (run_task_message (uuid4 sample_env)
                   (if String.eqb "a.pcm" "" then "en" else "a.pcm")
                   "auto" 16000 "pcm" 5000 true))).
Proof.
  assert (H1 : "sk-test" <> "") by discriminate.
  assert (H2 : session_of (main (fun s => s) (fun _ => None) (Some "sk-test")
                             ("1" :: "a.pcm" :: "" :: []) None sample_env)
               = Some (test_with_audio_file sample_env "sk-test" "a.pcm" "en"))
    by reflexivity.
  assert (H3 : first_frame (test_with_audio_file sample_env "sk-test" "a.pcm" "en")
               = Some (TextFrame (run_task_message (uuid4 sample_env) "en" "auto"
                                    16000 "pcm" 10000 true)))
    by reflexivity.
  do 3 (split; [assumption|]).
  exact (main_passes_target_language (fun s => s) (fun _ => None) "sk-test"
           "1" "a.pcm" "" [] None sample_env
           (test_with_audio_file sample_env "sk-test" "a.pcm" "en")
           (TextFrame (run_task_message (uuid4 sample_env) "en" "auto" 16000
                         "pcm" 10000 true))
           H1 H2 H3).
Defined.

(** X19: in main, a blank duration line means ten seconds: with pyaudio
    present (and opening, reading and closing its stream without an
    exception), a handshake that succeeds and a connection that stays open,
    choice 2 with a blank duration sends exactly 50 binary frames, the
    first 50 buffers of the microphone in order, between run-task and
    finish-task. *)
Theorem main_blank_duration_records_ten_seconds
    (strip : string -> string) (py_int : string -> option Z)
    (key line1 line2 line3 : string) (rest : list string)
    (microphone : nat -> list byte) (env : environment) :
  key <> "" ->
  strip line1 = "2" ->
  strip line3 = "" ->
  handshake_ok (remote env) = true ->
  frames_accepted (remote env) = None ->
  exists r,
    main strip py_int (Some key) (line1 :: line2 :: line3 :: rest)
      (Some (working microphone)) env = Finished (Some r) /\
    audio_frames (outbound (final_client r)) = map microphone (seq 0 50) /\
    well_sequenced (outbound (final_client r)).
Proof.
  intros Hkey H1 H3 Hh Hf. unfold main.
  destruct (String.eqb_spec key ""); [done|].
  rewrite H1, H3. cbn [String.eqb Ascii.eqb Bool.eqb].
  cbn [test_with_microphone_if_available].
  assert (Hd : exact_duration 10) by (vm_compute; discriminate).
  eexists. split; [reflexivity|]. split.
  - by destruct (test_with_microphone_frames env microphone key
                   (py_or (strip line2) "en") 10 Hh Hf Hd) as [-> _].
  - rewrite (test_with_microphone_log env key (py_or (strip line2) "en") Hh Hf
               microphone 10 Hd).
    apply session_log_well_sequenced.
Qed.

Lemma main_blank_duration_sample :
  "sk-test" <> "" /\
  (fun s : string => s) "2" = "2" /\
  (fun s : string => s) "" = "" /\
  handshake_ok (remote sample_env) = true /\
  frames_accepted (remote sample_env) = None /\
  exists r,
    main (fun s => s) (fun _ => None) (Some "sk-test") ("2" :: "ja" :: "" :: [])
      (Some (working (fun _ => silence 6400))) sample_env = Finished (Some r) /\
    audio_frames (outbound (final_client r))
      = map (fun _ => silence 6400) (seq 0 50) /\
    well_sequenced (outbound (final_client r)).
Proof.
  assert (H1 : "sk-test" <> "") by discriminate.
  assert (H2 : (fun s : string => s) "2" = "2") by reflexivity.
  assert (H3 : (fun s : string => s) "" = "") by reflexivity.
  assert (H4 : handshake_ok (remote sample_env) = true) by reflexivity.
  assert (H5 : frames_accepted (remote sample_env) = None) by reflexivity.
  do 5 (split; [assumption|]).
  exact (main_blank_duration_records_ten_seconds (fun s => s) (fun _ => None)
           "sk-test" "2" "ja" "" [] (fun _ => silence 6400) sample_env
           H1 H2 H3 H4 H5).
Defined.

Lemma never_fnf_mbind {A B} (m : M A) (k : A -> M B) :
  never_FileNotFoundError m -> (forall a, never_FileNotFoundError (k a)) ->
  never_FileNotFoundError (mbind m k).
Proof.
  intros Hm Hk self. unfold mbind. specialize (Hm self).
  destruct (m self) as [[a|exc|] self']; cbn [fst] in *;
    [apply Hk|intros [= ->]; by apply Hm|discriminate].
Qed.

Lemma never_fnf_websocket_send f : never_FileNotFoundError (websocket_send f).
Proof.
  intros self. unfold websocket_send.
  destruct (websocket self) as [ws|]; [|done].
  destruct (closed ws); [done|].
  by destruct (peer_accepts ws) as [[|n]|].
Qed.

Lemma true_div_not_fnf a b : true_div a b <> Raise FileNotFoundError.
Proof.
  unfold true_div. destruct (b =? 0); [done|]. by destruct (_ <=? _).
Qed.

Lemma wav_progress_not_fnf n rate total s d :
  wav_progress n rate total s d <> Raise FileNotFoundError.
Proof.
  unfold wav_progress.
  pose proof (true_div_not_fnf n rate).
  pose proof (true_div_not_fnf (s + n) total).
  destruct (true_div n rate) as [[]| |]; cbn; [|congruence|done].
  destruct (true_div (s + n) total) as [[]| |]; cbn; [done|congruence|done].
Qed.

Lemma raw_progress_not_fnf size s d :
  raw_progress size s d <> Raise FileNotFoundError.
Proof.
  unfold raw_progress.
  pose proof (true_div_not_fnf (Z.of_nat (length d)) (16000 * 2)).
  pose proof (true_div_not_fnf (s + Z.of_nat (length d)) size).
  destruct (true_div (Z.of_nat (length d)) (16000 * 2)) as [[]| |]; cbn;
    [|congruence|done].
  destruct (true_div (s + Z.of_nat (length d)) size) as [[]| |]; cbn;
    [done|congruence|done].
Qed.

Lemma never_fnf_send_chunks fuel read progress sent rest :
  (forall r, read r <> Raise FileNotFoundError) ->
  (forall n data, progress n data <> Raise FileNotFoundError) ->
  never_FileNotFoundError (send_chunks fuel read progress sent rest).
Proof.
  intros Hread Hprogress. revert sent rest.
  induction fuel as [|fuel IH]; intros sent rest self; [done|].
  cbn [send_chunks]. specialize (Hread rest).
  destruct (read rest) as [[data rest']|exc|]; [| |done].
  - destruct data as [|b data]; [done|].
    apply never_fnf_mbind; [apply never_fnf_websocket_send|]. intros _.
    apply never_fnf_mbind; [intros s; apply Hprogress|]. intros sent'. apply IH.
  - cbn. congruence.
Qed.

Lemma file_read_not_fnf size r : file_read size r <> Raise FileNotFoundError.
Proof.
  unfold file_read. destruct (size <? -1); [done|]. by destruct (size =? -1).
Qed.

Lemma readframes_not_fnf wf n r : readframes wf n r <> Raise FileNotFoundError.
Proof.
  unfold readframes. destruct (n =? 0); [done|]. by destruct (_ <? 0).
Qed.

(* send_audio_data raises FileNotFoundError for a missing path only. *)
Lemma send_audio_data_existing_not_fnf fs path chunk_size :
  is_Some (fs !! path) ->
  never_FileNotFoundError (send_audio_data fs path chunk_size).
Proof.
  intros [entry Hfs] self. unfold send_audio_data, mraise. rewrite Hfs.
  destruct (endswith path ".wav").
  - destruct entry as [|content [wf|]]; cbn [wave_open]; try done.
    destruct (_ =? 0); [done|].
    destruct (quotient_exceeds _ _ _); [done|].
    apply never_fnf_send_chunks;
      [apply readframes_not_fnf|intros n data; apply wav_progress_not_fnf].
  - destruct (quotient_exceeds _ _ _); [done|].
    destruct entry as [|content wave_view]; cbn [open_rb]; [done|].
    apply never_fnf_send_chunks;
      [apply file_read_not_fnf|intros n data; apply raw_progress_not_fnf].
Qed.

Lemma test_with_audio_file_existing_not_fnf env key audio_file tl :
  is_Some (fs env !! audio_file) ->
  tried (test_with_audio_file env key audio_file tl) <> Raise FileNotFoundError.
Proof.
  intros Hfs. unfold test_with_audio_file. rewrite tried_try_finally_close.
  apply never_fnf_mbind.
  { intros self. unfold connect. by destruct (handshake_ok (remote env)). }
  intros _. apply never_fnf_mbind.
  { intros self. apply never_fnf_websocket_send. }
  intros _. apply never_fnf_mbind.
  { by apply send_audio_data_existing_not_fnf. }
  intros _. apply never_fnf_mbind.
  { intros self. apply never_fnf_websocket_send. }
  intros _ self. unfold await_receive_task. cbn [fst].
  destruct (receive_messages_escapes (messages env) (ending env))
    as [H|(failure & _ & H)]; intros E; rewrite E in H;
    [exact H|by destruct failure].
Qed.

(** X20: simple_test checks the path before it starts a session (an
    empty path or a path that does not exist ends the program with exit
    status 1), so a session it runs is never stopped by
    FileNotFoundError; and it runs no session without an API key. *)
Theorem simple_test_never_meets_missing_file
    (strip : string -> string) (getenv : option string) (stdin : list string)
    (env : environment) (r : session_report) :
  session_of (simple_test strip getenv stdin env) = Some r ->
  tried r <> Raise FileNotFoundError /\
  exists key audio_file target_lang,
    getenv = Some key /\ key <> "" /\ audio_file <> "" /\
    is_Some (fs env !! audio_file) /\
    r = test_with_audio_file env key audio_file target_lang.
Proof.
  unfold simple_test. destruct getenv as [key|]; [|discriminate].
  destruct (String.eqb_spec key ""); [discriminate|].
  destruct stdin as [|l1 stdin1]; [discriminate|].
  destruct (String.eqb_spec (strip l1) ""); [discriminate|].
  destruct (fs env !! strip l1) as [entry|] eqn:Hfs; [|discriminate].
  destruct stdin1 as [|l2 rest]; [discriminate|].
  cbn [session_of]. intros [= <-].
  assert (Hsome : is_Some (fs env !! strip l1)) by (rewrite Hfs; by eexists).
  split; [by apply test_with_audio_file_existing_not_fnf|].
  exists key, (strip l1), (py_or (strip l2) "en"). by repeat split.
Qed.

Lemma simple_test_sample :
  session_of (simple_test (fun s => s) (Some "sk-test") ["a.pcm"; ""] sample_env)
    = Some (test_with_audio_file sample_env "sk-test" "a.pcm" "en") /\
  tried (test_with_audio_file sample_env "sk-test" "a.pcm" "en")
    <> Raise FileNotFoundError /\
  exists key audio_file target_lang,
    Some "sk-test" = Some key /\ key <> "" /\ audio_file <> "" /\
    is_Some (fs sample_env !! audio_file) /\
    test_with_audio_file sample_env "sk-test" "a.pcm" "en"
      = test_with_audio_file sample_env key audio_file target_lang.
Proof.
  assert (H : session_of (simple_test (fun s => s) (Some "sk-test") ["a.pcm"; ""]
                            sample_env)
              = Some (test_with_audio_file sample_env "sk-test" "a.pcm" "en"))
    by reflexivity.
  split; [exact H|].
  exact (simple_test_never_meets_missing_file (fun s => s) (Some "sk-test")
           ["a.pcm"; ""] sample_env
           (test_with_audio_file sample_env "sk-test" "a.pcm" "en") H).
Defined.

(* ===================================================================== *)
(*  convert_audio.py: stereo to mono                                      *)
(* ===================================================================== *)

Lemma byte_value_bounds b : 0 <= byte_value b < 256.
Proof.
  unfold byte_value. pose proof (Byte.to_N_bounded b). lia.
Qed.


Lemma in_int16_spec v : in_int16 v = true <-> -32768 <= v <= 32767.
Proof. unfold in_int16. rewrite andb_true_iff. lia. Qed.

Lemma int16_of_bytes_in_int16 lo hi : in_int16 (int16_of_bytes lo hi) = true.
Proof.
  apply in_int16_spec. unfold int16_of_bytes.
  pose proof (byte_value_bounds lo). pose proof (byte_value_bounds hi).
  cbv zeta. destruct (Z.ltb_spec (byte_value lo + 256 * byte_value hi) 32768); lia.
Qed.

Lemma pairs_int16_in_int16 frames :
  Forall (fun v => in_int16 v = true) (pairs_int16 frames).
Proof.
  assert (H : forall n frames, (length frames <= n)%nat ->
            Forall (fun v => in_int16 v = true) (pairs_int16 frames)).
  { clear frames. induction n as [|n IH]; intros [|lo [|hi rest]] Hl; cbn in *;
      try constructor; try lia.
    - apply int16_of_bytes_in_int16.
    - apply IH. lia. }
  by apply (H (length frames)).
Qed.




Lemma pairs_int16_take k frames :
  pairs_int16 (take (2 * k) frames) = take k (pairs_int16 frames).
Proof.
  revert frames. induction k as [|k IH]; intros frames; [done|].
  replace (2 * S k)%nat with (S (S (2 * k))) by lia.
  destruct frames as [|lo [|hi rest]]; cbn [take pairs_int16]; try done.
  by rewrite IH.
Qed.

Lemma pairs_int16_length frames :
  (2 * length (pairs_int16 frames) <= length frames < 2 * length (pairs_int16 frames) + 2)%nat.
Proof.
  assert (H : forall n frames, (length frames <= n)%nat ->
    (2 * length (pairs_int16 frames) <= length frames
       < 2 * length (pairs_int16 frames) + 2)%nat).
  { clear frames. induction n as [|n IH]; intros [|lo [|hi rest]] Hl; cbn in *;
      try lia.
    specialize (IH rest). lia. }
  by apply (H (length frames)).
Qed.

Lemma forallb_in_int16 samples :
  Forall (fun v => in_int16 v = true) samples -> forallb in_int16 samples = true.
Proof. induction 1 as [|v vs Hv _ IH]; [done|]. cbn. by rewrite Hv, IH. Qed.

Lemma sum_Z_bounds a b xs :
  Forall (fun x => a <= x <= b) xs ->
  Z.of_nat (length xs) * a <= sum_Z xs <= Z.of_nat (length xs) * b.
Proof. induction 1; cbn [sum_Z fold_right length] in *; [lia|]. fold (sum_Z l) in *. lia. Qed.

Lemma mean_bounds a b xs :
  xs <> [] ->
  Forall (fun x => a <= x <= b) xs ->
  a <= sum_Z xs / Z.of_nat (length xs) <= b.
Proof.
  intros Hne H%sum_Z_bounds.
  assert (0 < Z.of_nat (length xs)) by (destruct xs; [done|cbn; lia]).
  split.
  - apply Z.div_le_lower_bound; lia.
  - apply Z.div_le_upper_bound; lia.
Qed.


Lemma range_step_exact n step :
  (0 < step)%nat ->
  range_step (n * step) step = map (fun j => (j * step)%nat) (seq 0 n).
Proof.
  intros Hs. unfold range_step. do 2 f_equal.
  replace (n * step + step - 1)%nat with (n * step + (step - 1))%nat by lia.
  rewrite Nat.div_add_l by lia. rewrite Nat.div_small by lia. lia.
Qed.

Lemma average_channels_exact channels n samples :
  (0 < channels)%nat ->
  length samples = (n * channels)%nat ->
  average_channels channels samples =
    map (fun j => sum_Z (take channels (drop (j * channels) samples))
                  / Z.of_nat channels) (seq 0 n).
Proof.
  intros Hc Hl. unfold average_channels. rewrite Hl, range_step_exact by done.
  by rewrite map_map.
Qed.

Lemma average_channels_length channels n samples :
  (0 < channels)%nat ->
  length samples = (n * channels)%nat ->
  length (average_channels channels samples) = n.
Proof.
  intros Hc Hl. rewrite (average_channels_exact _ n) by done.
  by rewrite length_map, length_seq.
Qed.

Lemma frame_length channels n j (samples : list Z) :
  length samples = (n * channels)%nat -> (j < n)%nat ->
  length (take channels (drop (j * channels) samples)) = channels.
Proof.
  intros Hl Hj. rewrite length_take, length_drop, Hl. nia.
Qed.

Lemma average_channels_in_int16 channels n samples :
  (0 < channels)%nat ->
  length samples = (n * channels)%nat ->
  Forall (fun v => in_int16 v = true) samples ->
  Forall (fun v => in_int16 v = true) (average_channels channels samples).
Proof.
  intros Hc Hl Hs. rewrite (average_channels_exact _ n) by done.
  apply Forall_forall. intros v Hv.
  first [apply list_elem_of_In in Hv | apply elem_of_list_In in Hv].
  apply in_map_iff in Hv as (j & <- & Hj).
  apply in_seq in Hj. apply in_int16_spec.
  pose proof (frame_length channels n j samples Hl ltac:(lia)) as Hfl.
  pose proof (mean_bounds (-32768) 32767
                (take channels (drop (j * channels) samples))) as Hm.
  rewrite Hfl in Hm. apply Hm.
  - intros E. rewrite E in Hfl. cbn in Hfl. lia.
  - apply Forall_take, Forall_drop. eapply Forall_impl; [exact Hs|].
    intros x Hx. by apply in_int16_spec.
Qed.


Lemma whole_frames_fit wf :
  convertible wf ->
  holds_announced_frames wf ->
  let channels := Pos.to_nat (nchannels wf) in
  let nframes := Z.to_nat (getnframes wf) in
  getnframes wf = Z.of_nat nframes /\
  (2 * (nframes * channels) <= length (data_chunk wf))%nat /\
  (0 < channels)%nat.
Proof.
  intros (Hw & _ & _ & _) Hh channels nframes.
  unfold holds_announced_frames in Hh.
  assert (0 <= getnframes wf).
  { unfold getnframes, chunksize, getsampwidth, getnchannels.
    apply Z.div_pos; lia. }
  assert (Hn : getnframes wf = Z.of_nat nframes) by (unfold nframes; lia).
  repeat split; [done| |unfold channels; lia].
  unfold getsampwidth, getnchannels in Hh. rewrite Hw, Hn in Hh.
  replace (Z.pos (nchannels wf)) with (Z.of_nat channels) in Hh
    by (unfold channels; lia).
  nia.
Qed.


Lemma whole_frames_samples wf :
  convertible wf ->
  holds_announced_frames wf ->
  let channels := Pos.to_nat (nchannels wf) in
  let nframes := Z.to_nat (getnframes wf) in
  length (take (nframes * channels) (wave_samples wf)) = (nframes * channels)%nat.
Proof.
  intros Hc Hh channels nframes.
  destruct (whole_frames_fit wf Hc Hh) as (_ & Hle & _).
  fold channels nframes in Hle.
  pose proof (pairs_int16_length (data_chunk wf)).
  rewrite length_take. unfold wave_samples. lia.
Qed.

Lemma readframes_announced wf :
  convertible wf ->
  exists rest,
    readframes wf (getnframes wf) (data_chunk wf)
    = Return (take (Z.to_nat (getnframes wf * (2 * getnchannels wf)))
                (data_chunk wf), rest).
Proof.
  intros (Hw & _ & _ & _).
  assert (0 <= getnframes wf).
  { unfold getnframes, chunksize, getsampwidth, getnchannels.
    apply Z.div_pos; lia. }
  assert (Hs : getsampwidth wf = 2) by (unfold getsampwidth; by rewrite Hw).
  unfold readframes. rewrite Hs.
  destruct (Z.eqb_spec (getnframes wf) 0) as [E|E].
  - rewrite E. by eexists.
  - destruct (Z.ltb_spec (getnframes wf * (2 * getnchannels wf)) 0);
      [unfold getnchannels in *; nia|].
    by eexists.
Qed.

Lemma mono_frames wf :
  convertible wf ->
  holds_announced_frames wf ->
  let samples :=
    take (Z.to_nat (getnframes wf) * Pos.to_nat (nchannels wf)) (wave_samples wf) in
  exists frames rest,
    readframes wf (getnframes wf) (data_chunk wf) = Return (frames, rest) /\
    struct_unpack_h (getnframes wf * getnchannels wf) frames = Return samples /\
    struct_pack_h (average_channels (Z.to_nat (getnchannels wf)) samples)
    = Return (data_chunk (mono_of wf)) /\
    length (average_channels (Z.to_nat (getnchannels wf)) samples)
    = Z.to_nat (getnframes wf).
Proof.
  intros Hc Hh samples.
  destruct (whole_frames_fit wf Hc Hh) as (Hn & Hle & Hpos).
  pose proof (whole_frames_samples wf Hc Hh) as Hlen.
  destruct (readframes_announced wf Hc) as (rest & Hread).
  set (channels := Pos.to_nat (nchannels wf)) in *.
  set (nframes := Z.to_nat (getnframes wf)) in *.
  assert (Hch : getnchannels wf = Z.of_nat channels)
    by (unfold getnchannels, channels; by rewrite positive_nat_Z).
  assert (Hto : Z.to_nat (getnchannels wf) = channels) by lia.
  assert (Hsz : Z.to_nat (getnframes wf * (2 * getnchannels wf))
                = (2 * (nframes * channels))%nat) by (rewrite Hn, Hch; lia).
  rewrite Hsz in Hread.
  exists (take (2 * (nframes * channels)) (data_chunk wf)), rest.
  split; [exact Hread|]. rewrite Hto. split; [|split].
  - unfold struct_unpack_h. rewrite length_take.
    rewrite Hn, Hch, Nat.min_l by lia.
    destruct (Z.eqb_spec (Z.of_nat (2 * (nframes * channels)))
                (2 * (Z.of_nat nframes * Z.of_nat channels))); [|lia].
    by rewrite pairs_int16_take.
  - unfold struct_pack_h. rewrite forallb_in_int16; [reflexivity|].
    apply (average_channels_in_int16 _ nframes); [exact Hpos|exact Hlen|].
    apply Forall_take, pairs_int16_in_int16.
  - by apply average_channels_length.
Qed.


Lemma output_path_eq splitext input_file output_file :
  match output_file with
  | Some path => path
  | None => let '(name, ext) := splitext input_file in name +:+ "_mono" +:+ ext
  end = output_path splitext input_file output_file.
Proof. reflexivity. Qed.

Lemma convertible_divides wf (n : nat) :
  convertible wf ->
  Z.of_nat n <= chunksize wf ->
  true_div (Z.of_nat n) (getframerate wf) = Return tt.
Proof.
  intros (_ & _ & Hrate & Hsize) Hn.
  assert (2 ^ 32 = 4294967296) as H32 by reflexivity.
  assert (2 ^ 63 = 9223372036854775808) as H63 by reflexivity.
  apply true_div_small; unfold getframerate; lia.
Qed.

Lemma getnframes_le_chunksize wf :
  0 <= getnframes wf <= chunksize wf.
Proof.
  assert (0 < getsampwidth wf * getnchannels wf)
    by (unfold getsampwidth, getnchannels; lia).
  assert (0 <= chunksize wf) by (unfold chunksize; lia).
  unfold getnframes. split; [apply Z.div_pos; lia|].
  apply Z.div_le_upper_bound; nia.
Qed.

(* The steps of convert_to_mono up to struct.unpack, for a 16-bit file of
   several channels and a frame rate. *)
Lemma convert_to_mono_reads splitext wave_bytes samefile open_wb_error
    fs input_file output_file wf :
  wave_at fs input_file wf ->
  convertible wf ->
  exists frames rest,
    readframes wf (getnframes wf) (data_chunk wf) = Return (frames, rest) /\
    convert_to_mono splitext wave_bytes samefile open_wb_error fs input_file
      output_file
    = and_then (struct_unpack_h (getnframes wf * getnchannels wf) frames)
        (fun samples =>
           let mono_samples :=
             average_channels (Z.to_nat (getnchannels wf)) samples in
           and_then (struct_pack_h mono_samples) (fun mono_frames =>
           and_then (wave_write wave_bytes samefile open_wb_error fs
                       (output_path splitext input_file output_file)
                       {| nchannels := 1;
                          sampwidth := sampwidth wf;
                          framerate := framerate wf;
                          data_chunk := mono_frames;
                          missing := 0 |})
             (fun fs' =>
           and_then (true_div (Z.of_nat (length mono_samples)) (getframerate wf))
             (fun _ =>
                Return (output_path splitext input_file output_file, fs'))))).
Proof.
  intros (content & Hin) Hc.
  destruct (readframes_announced wf Hc) as (rest & Hread).
  eexists _, rest. split; [exact Hread|].
  pose proof (getnframes_le_chunksize wf) as Hn.
  assert (Hdiv : true_div (getnframes wf) (getframerate wf) = Return tt).
  { rewrite <- (Z2Nat.id (getnframes wf)) by lia.
    apply convertible_divides; [exact Hc|lia]. }
  destruct Hc as (Hw & Hch & Hrate & Hsize).
  unfold convert_to_mono. cbv zeta. rewrite output_path_eq, Hin.
  cbn [wave_open and_then]. rewrite Hdiv. cbn [and_then].
  destruct (Z.eqb_spec (getnchannels wf) 1) as [E|_];
    [unfold getnchannels in E; congruence|].
  rewrite Hread. cbn [and_then].
  destruct (Z.eqb_spec (getsampwidth wf) 2) as [_|E];
    [|unfold getsampwidth in E; rewrite Hw in E; done].
  reflexivity.
Qed.

(* A 16-bit file of several channels and a frame rate that holds its
   announced frames is converted, and the result written to the output
   path. *)
Lemma convert_to_mono_convertible splitext wave_bytes samefile open_wb_error
    fs input_file output_file wf :
  wave_at fs input_file wf ->
  convertible wf ->
  holds_announced_frames wf ->
  convert_to_mono splitext wave_bytes samefile open_wb_error fs input_file
    output_file
  = and_then (wave_write wave_bytes samefile open_wb_error fs
                (output_path splitext input_file output_file) (mono_of wf))
      (fun fs' => Return (output_path splitext input_file output_file, fs')).
Proof.
  intros Hin Hc Hh.
  destruct (convert_to_mono_reads splitext wave_bytes samefile open_wb_error
              fs input_file output_file wf Hin Hc)
    as (frames & rest & Hread & ->).
  destruct (mono_frames wf Hc Hh)
    as (frames' & rest' & Hread' & Hunpack & Hpack & Hlen).
  rewrite Hread in Hread'. injection Hread' as <- <-.
  rewrite Hunpack. cbn [and_then]. cbv zeta. rewrite Hpack. cbn [and_then].
  rewrite Hlen.
  rewrite (convertible_divides wf _ Hc)
    by (pose proof (getnframes_le_chunksize wf); lia).
  reflexivity.
Qed.


Lemma wave_write_writable wave_bytes samefile open_wb_error fs path w :
  writable open_wb_error fs path ->
  wave_write wave_bytes samefile open_wb_error fs path w
  = Return (<[path := RegularFile (wave_bytes w) (Some w)]>
              (map_imap (fun p entry =>
                           Some (if samefile p path
                                 then RegularFile (wave_bytes w) (Some w)
                                 else entry))
                 fs)).
Proof.
  intros [Hd Hopen]. unfold wave_write. rewrite Hopen.
  destruct (fs !! path) as [[size|content view]|] eqn:E; try reflexivity.
  by destruct (Hd size).
Qed.



(* Written over another spelling of its path, a file is replaced all the
   same: converting in.wav to ./in.wav leaves the mono file at in.wav. *)
Lemma convert_to_mono_overwrites_other_spellings splitext wave_bytes samefile
    open_wb_error fs input_file output_file wf path :
  wave_at fs input_file wf ->
  convertible wf ->
  holds_announced_frames wf ->
  writable open_wb_error fs (output_path splitext input_file output_file) ->
  is_Some (fs !! path) ->
  samefile path (output_path splitext input_file output_file) = true ->
  converted_fs fs
    (convert_to_mono splitext wave_bytes samefile open_wb_error fs input_file
       output_file) !! path
  = Some (RegularFile (wave_bytes (mono_of wf)) (Some (mono_of wf))).
Proof.
  intros Hin Hc Hh Hd [entry Hpath] Hsame.
  rewrite (convert_to_mono_convertible _ _ _ _ _ _ _ wf) by done.
  rewrite wave_write_writable by done. cbn [and_then converted_fs].
  destruct (decide (path = output_path splitext input_file output_file)) as [->|Hne].
  - by rewrite lookup_insert_eq.
  - rewrite lookup_insert_ne by done.
    rewrite map_lookup_imap, Hpath. cbn. by rewrite Hsame.
Qed.














